(** * The Champ Timer, tournament edition: heat timing and standings engine

    A shallow embedding of the core of [champ_timer_logger.py] (the console
    front end, class [TournamentLogger]) and [champ_timer_gui.py] (the Tk
    front end, class [TournamentGUI]): line framing, timer-line parsing,
    winner resolution, the competitor ledger, the standings ranking and the
    rows written to the two CSV files.

    Conventions of the model.
    - Text is a list of characters.  A character is a code point below 256;
      the device emits ASCII.
    - A time read from the timer is held exactly, as the decimal it was
      written as: a count of 1e-4 s ([12345] is 1.2345 s).  Times are only
      compared and stored.  A sum of times is a binary64 accumulation, which
      rounds at every step: the model keeps the terms in the order they were
      added and assumes no law of floating-point addition; a quotient is
      kept as its operands.
    - A Python [dict] is an association list in insertion order without
      duplicate keys: assignment to an existing key keeps its position.
    - An exception is an explicit outcome next to the state reached when it
      was raised: mutations made before the [raise] stay. *)

From Stdlib Require Import Ascii String ZArith Lia Bool Arith.
From Stdlib Require Import List Permutation Sorted.
Import ListNotations.
Open Scope string_scope.
Open Scope nat_scope.
Open Scope list_scope.

Set Implicit Arguments.

(** ** Text *)

Abbreviation text := (list ascii) (only parsing).

Definition txt (s : string) : text := list_ascii_of_string s.

Abbreviation time := Z (only parsing).

Definition LF : ascii := ascii_of_nat 10.
Definition CR : ascii := ascii_of_nat 13.
Definition DOT : ascii := ascii_of_nat 46.

(** [\d] on code points below 256: the ten ASCII digits. *)
Definition is_digit (c : ascii) : bool :=
  let n := nat_of_ascii c in (48 <=? n)%nat && (n <=? 57)%nat.

Definition is_dot (c : ascii) : bool := Ascii.eqb c DOT.

(** [str.isspace] on code points below 256: TAB, LF, VT, FF, CR, FS, GS, RS,
    US, SPACE, NEL and NBSP. *)
Definition is_space (c : ascii) : bool :=
  let n := nat_of_ascii c in
  ((9 <=? n)%nat && (n <=? 13)%nat) || ((28 <=? n)%nat && (n <=? 32)%nat)
  || (n =? 133)%nat || (n =? 160)%nat.

Fixpoint dropwhile (p : ascii -> bool) (s : text) : text :=
  match s with
  | [] => []
  | c :: s' => if p c then dropwhile p s' else s
  end.

Arguments is_digit : simpl never.
Arguments is_dot : simpl never.
Arguments is_space : simpl never.

(** [s.strip()] *)
Definition strip (s : text) : text :=
  rev (dropwhile is_space (rev (dropwhile is_space s))).

(** Truth value of a [str]: non-empty. *)
Definition nonempty (s : text) : bool :=
  match s with [] => false | _ :: _ => true end.

(** [c in s] for a one-character [c]. *)
Definition contains (c : ascii) (s : text) : bool := existsb (Ascii.eqb c) s.

(** ** Exceptions *)

Inductive exn : Type :=
| KeyError
| IndexError
| ValueError
| ZeroDivisionError.

(** ** Regular expressions: the backtracking matcher

    The constructs of [r'(\d+\.?\d{4})']: a character class, concatenation,
    a greedy optional part, a greedy [+] and a counted repetition of a class.
    The matcher is in continuation-passing style: [k] is what remains to be
    matched, it receives the rest of the input, and a failure of [k] makes
    the construct try its next alternative, as Python's [re] does. *)

Inductive regex : Type :=
| Class (p : ascii -> bool)
| Cat (r1 r2 : regex)
| Opt (r : regex)
| Plus (p : ascii -> bool)
| Rep (n : nat) (p : ascii -> bool).

(** Greedy [p+]: one character, then as many more as possible first. *)
Fixpoint plus_class (p : ascii -> bool) (s : text)
    (k : text -> option text) : option text :=
  match s with
  | [] => None
  | c :: s' =>
      if p c then
        match plus_class p s' k with
        | Some r => Some r
        | None => k s'
        end
      else None
  end.

Fixpoint rep_class (n : nat) (p : ascii -> bool) (s : text)
    (k : text -> option text) : option text :=
  match n with
  | O => k s
  | S n' =>
      match s with
      | [] => None
      | c :: s' => if p c then rep_class n' p s' k else None
      end
  end.

Fixpoint rmatch (r : regex) (s : text) (k : text -> option text)
    : option text :=
  match r with
  | Class p =>
      match s with
      | [] => None
      | c :: s' => if p c then k s' else None
      end
  | Cat r1 r2 => rmatch r1 s (fun s1 => rmatch r2 s1 k)
  | Opt r1 =>
      match rmatch r1 s k with
      | Some t => Some t
      | None => k s
      end
  | Plus p => plus_class p s k
  | Rep n p => rep_class n p s k
  end.

(** A match of [r] at the start of [s]: the input left after it. *)
Definition match_at (r : regex) (s : text) : option text := rmatch r s Some.

(** [re.findall(r, s)] for a pattern with one group around the whole of it
    and no empty match: scan from the left; on a match record it and go on
    after it, otherwise move one character on.  [skip] counts the characters
    of the last match still to be passed over. *)
Fixpoint findall_from (r : regex) (s : text) (skip : nat) : list text :=
  match s with
  | [] => []
  | _ :: s' =>
      match skip with
      | S n => findall_from r s' n
      | O =>
          match match_at r s with
          | Some rest =>
              let m := firstn (length s - length rest) s in
              m :: findall_from r s' (length m - 1)
          | None => findall_from r s' 0
          end
      end
  end.

Definition findall (r : regex) (s : text) : list text := findall_from r s 0.

(** [time_pattern = r'(\d+\.?\d{4})'] *)
Definition time_pattern : regex :=
  Cat (Plus is_digit) (Cat (Opt (Class is_dot)) (Rep 4 is_digit)).

(** ** [float(match)]

    The numerals the model gives a value to are [D+] and [D+ . D{0,4}];
    anything else is a [ValueError] here.  Python accepts more (signs,
    exponents, longer fractions), so a call that succeeds in the model
    succeeds in Python. *)

Definition digit_val (c : ascii) : Z := Z.of_nat (nat_of_ascii c - 48).

Definition digits_val (ds : text) : Z :=
  fold_left (fun a c => 10 * a + digit_val c)%Z ds 0%Z.

Fixpoint span_digits (s : text) : text * text :=
  match s with
  | [] => ([], [])
  | c :: s' =>
      if is_digit c then let (a, b) := span_digits s' in (c :: a, b)
      else ([], s)
  end.

Definition py_float (tok : text) : option time :=
  match span_digits tok with
  | ([], _) => None
  | (ip, []) => Some (digits_val ip * 10000)%Z
  | (ip, c :: fp) =>
      if is_dot c && forallb is_digit fp && (length fp <=? 4)%nat then
        Some (digits_val ip * 10000
              + digits_val fp * 10 ^ Z.of_nat (4 - length fp))%Z
      else None
  end.

(** ** Timer line parser: [parse_timer_data] *)

(** [times[i] = v] on a list: in range it replaces the slot, out of range
    Python raises [IndexError]. *)
Fixpoint list_set {A : Type} (i : nat) (v : A) (l : list A)
    : option (list A) :=
  match l, i with
  | [], _ => None
  | _ :: l', O => Some (v :: l')
  | x :: l', S i' =>
      match list_set i' v l' with
      | Some r => Some (x :: r)
      | None => None
      end
  end.

(** The loop [for i, match in enumerate(matches[:4]): times[i] = float(match)];
    the result is the array reached and the exception that stopped the loop,
    if any. *)
Fixpoint fill_times (times : list (option time)) (i : nat)
    (matches : list text) : list (option time) * option exn :=
  match matches with
  | [] => (times, None)
  | m :: ms =>
      match py_float m with
      | None => (times, Some ValueError)
      | Some v =>
          match list_set i (Some v) times with
          | None => (times, Some IndexError)
          | Some times' => fill_times times' (S i) ms
          end
      end
  end.

(** The body of the [try] block. *)
Definition parse_timer_data_try (data_line : text)
    : list (option time) * option exn :=
  fill_times [None; None; None; None] 0
             (firstn 4 (findall time_pattern data_line)).

(** Both front ends return [times] after the [try], whether or not the
    handler ran (the console one prints the error first). *)
Definition parse_timer_data (data_line : text) : list (option time) :=
  fst (parse_timer_data_try data_line).

(** [any(t is not None for t in times)] *)
Definition any_present (times : list (option time)) : bool :=
  existsb (fun t => match t with Some _ => true | None => false end) times.

(** ** Line framer: the buffer loop of [run_tournament] and
    [listen_for_race] *)

(** [s.split(c, 1)] unpacked into two names: the part before the first [c]
    and the part after it; [None] when [c] does not occur (the unpacking
    would raise). *)
Fixpoint split_at_first (c : ascii) (s : text) : option (text * text) :=
  match s with
  | [] => None
  | x :: s' =>
      if Ascii.eqb x c then Some ([], s')
      else
        match split_at_first c s' with
        | Some (a, b) => Some (x :: a, b)
        | None => None
        end
  end.

(** The guard of the [while] and the [if]/[else] that picks the delimiter:
    a newline anywhere in the buffer is preferred to a carriage return. *)
Definition next_line (buffer : text) : option (text * text) :=
  if contains LF buffer || contains CR buffer then
    if contains LF buffer then split_at_first LF buffer
    else split_at_first CR buffer
  else None.

(** The [while] loop: a line is trimmed; an empty line and a line without a
    time are passed over; the first line that holds a time completes the
    heat and ends the loop there ([break] in the console front end, [return]
    in the GUI), with the rest of the buffer left as it is.  Without such a
    line the loop runs until the buffer holds no delimiter.  Every iteration
    removes at least the delimiter, so [length buffer] iterations are
    enough. *)
Fixpoint listen_loop (fuel : nat) (buffer : text)
    : option (list (option time)) * text :=
  match fuel with
  | O => (None, buffer)
  | S fuel' =>
      match next_line buffer with
      | None => (None, buffer)
      | Some (line, buffer') =>
          let line := strip line in
          if nonempty line then
            let times := parse_timer_data line in
            if any_present times then (Some times, buffer')
            else listen_loop fuel' buffer'
          else listen_loop fuel' buffer'
      end
  end.

Definition listen (buffer : text) : option (list (option time)) * text :=
  listen_loop (length buffer) buffer.

(** *** The lines of a stream

    Not a loop of the code: the split and the trimming of [listen_loop]
    carried through a whole buffer as if no line completed a heat, which
    gives the trimmed non-empty lines of the buffer and the partial line
    after them.  The lines that [listen] passes over and the line it stops
    at are described against this list. *)
Fixpoint frame_loop (fuel : nat) (buffer : text) : list text * text :=
  match fuel with
  | O => ([], buffer)
  | S fuel' =>
      match next_line buffer with
      | None => ([], buffer)
      | Some (line, buffer') =>
          let line := strip line in
          let (ls, b) := frame_loop fuel' buffer' in
          (if nonempty line then line :: ls else ls, b)
      end
  end.

Definition frame (buffer : text) : list text * text :=
  frame_loop (length buffer) buffer.

(** ** Race resolver: [find_winner] *)

Fixpoint enumerate_from {A : Type} (i : nat) (l : list A) : list (nat * A) :=
  match l with
  | [] => []
  | x :: l' => (i, x) :: enumerate_from (S i) l'
  end.

(** [[(i+1, t) for i, t in enumerate(times) if t is not None]] *)
Definition valid_times (times : list (option time)) : list (nat * time) :=
  flat_map (fun it => match snd it with
                      | Some t => [(fst it + 1, t)]
                      | None => []
                      end)
           (enumerate_from 0 times).

(** [min(xs, key=...)] on a non-empty sequence [best :: xs]: the first
    element is kept until a strictly smaller key comes. *)
Fixpoint py_min_by {A : Type} (key : A -> Z) (best : A) (xs : list A) : A :=
  match xs with
  | [] => best
  | x :: xs' => py_min_by key (if (key x <? key best)%Z then x else best) xs'
  end.

(** [(None, None)] is [None], [(winner_lane, winner_time)] is [Some]. *)
Definition find_winner (times : list (option time)) : option (nat * time) :=
  match valid_times times with
  | [] => None
  | x :: xs => Some (py_min_by snd x xs)
  end.

(** ** Dictionaries in insertion order *)

Section Dict.
Variables K V : Type.
Variable keq : K -> K -> bool.

Fixpoint dict_get (k : K) (d : list (K * V)) : option V :=
  match d with
  | [] => None
  | (k', v) :: d' => if keq k k' then Some v else dict_get k d'
  end.

Definition dict_mem (k : K) (d : list (K * V)) : bool :=
  match dict_get k d with Some _ => true | None => false end.

(** [d[k] = v]: an existing key keeps its place, a new one goes last. *)
Fixpoint dict_set (k : K) (v : V) (d : list (K * V)) : list (K * V) :=
  match d with
  | [] => [(k, v)]
  | (k', v') :: d' =>
      if keq k k' then (k', v) :: d' else (k', v') :: dict_set k v d'
  end.

Definition dict_keys (d : list (K * V)) : list K := map fst d.
End Dict.

(** ** Competitor ledger *)

(** [{'heat': ..., 'lane': ..., 'time': ...}] *)
Record heat_record : Type := {
  hr_heat : Z;
  hr_lane : nat;
  hr_time : time
}.

(** [{'heats': [], 'best_time': None, 'total_time': 0.0, 'races_count': 0}].
    [total_time] is the float [0.0 + t1 + ... + tk], added from the left in
    binary64: the field holds the terms [t1; ...; tk] in the order they were
    added, which determine it. *)
Record stats : Type := {
  heats : list heat_record;
  best_time : option time;
  total_time : list time;
  races_count : nat
}.

Definition fresh_stats : stats :=
  {| heats := []; best_time := None; total_time := []; races_count := 0 |}.

Definition ledger := list (string * stats).
Definition assignments := list (nat * string).

(** The body of the lane loop once the guard holds: the four mutations of
    [self.competitors[competitor]]. *)
Definition record_time (heat_number : Z) (lane : nat) (time_val : time)
    (s : stats) : stats :=
  {| heats := heats s ++ [{| hr_heat := heat_number;
                             hr_lane := lane;
                             hr_time := time_val |}];
     best_time := match best_time s with
                  | None => Some time_val
                  | Some b => if (time_val <? b)%Z then Some time_val
                              else Some b
                  end;
     total_time := total_time s ++ [time_val];
     races_count := races_count s + 1 |}.

(** One iteration of [for lane in range(1, 5)].  [times[lane-1]] is read
    only when the lane is assigned; a missing slot raises [IndexError], a
    competitor missing from the ledger raises [KeyError], both before the
    iteration has changed anything. *)
Definition update_lane (heat_number : Z) (asg : assignments)
    (times : list (option time)) (lane : nat) (cs : ledger)
    : ledger * option exn :=
  match dict_get Nat.eqb lane asg with
  | None => (cs, None)
  | Some competitor =>
      match nth_error times (lane - 1) with
      | None => (cs, Some IndexError)
      | Some None => (cs, None)
      | Some (Some time_val) =>
          match dict_get String.eqb competitor cs with
          | None => (cs, Some KeyError)
          | Some s =>
              (dict_set String.eqb competitor
                        (record_time heat_number lane time_val s) cs,
               None)
          end
      end
  end.

Fixpoint update_lanes (heat_number : Z) (asg : assignments)
    (times : list (option time)) (lanes : list nat) (cs : ledger)
    : ledger * option exn :=
  match lanes with
  | [] => (cs, None)
  | lane :: rest =>
      match update_lane heat_number asg times lane cs with
      | (cs', None) => update_lanes heat_number asg times rest cs'
      | (cs', Some e) => (cs', Some e)
      end
  end.

(** ** The files *)

(** A CSV field as the writer receives it. *)
Inductive cell : Type :=
| CInt (n : Z)
| CStr (s : string)
| CTime (t : time)
| CAvg (total : list time) (races : nat).

(** The field is written as nothing: only the empty [str] is. *)
Definition cell_empty (c : cell) : bool :=
  match c with
  | CStr s => String.eqb s EmptyString
  | _ => false
  end.

Definition row := list cell.

Definition heats_header : row :=
  map CStr ["Heat #"; "Timestamp"; "Lane 1 Name"; "Lane 1 Time";
            "Lane 2 Name"; "Lane 2 Time"; "Lane 3 Name"; "Lane 3 Time";
            "Lane 4 Name"; "Lane 4 Time"; "Heat Winner"].

Definition standings_header : row :=
  map CStr ["Rank"; "Name"; "Best Time"; "Average Time"; "Total Races"].

(** ** The state of a front end *)

Record state : Type := {
  competitors : ledger;
  current_heat_assignments : assignments;
  heat_number : Z;
  heats_file : list row;
  standings_file : list row
}.

Definition set_competitors (cs : ledger) (st : state) : state :=
  {| competitors := cs;
     current_heat_assignments := current_heat_assignments st;
     heat_number := heat_number st;
     heats_file := heats_file st;
     standings_file := standings_file st |}.

Definition set_assignments (asg : assignments) (st : state) : state :=
  {| competitors := competitors st;
     current_heat_assignments := asg;
     heat_number := heat_number st;
     heats_file := heats_file st;
     standings_file := standings_file st |}.

Definition set_heat_number (n : Z) (st : state) : state :=
  {| competitors := competitors st;
     current_heat_assignments := current_heat_assignments st;
     heat_number := n;
     heats_file := heats_file st;
     standings_file := standings_file st |}.

Definition set_heats_file (f : list row) (st : state) : state :=
  {| competitors := competitors st;
     current_heat_assignments := current_heat_assignments st;
     heat_number := heat_number st;
     heats_file := f;
     standings_file := standings_file st |}.

Definition set_standings_file (f : list row) (st : state) : state :=
  {| competitors := competitors st;
     current_heat_assignments := current_heat_assignments st;
     heat_number := heat_number st;
     heats_file := heats_file st;
     standings_file := f |}.

(** [__init__] of either front end, once the heats file has its header. *)
Definition initial_state : state :=
  {| competitors := [];
     current_heat_assignments := [];
     heat_number := 1%Z;
     heats_file := [heats_header];
     standings_file := [] |}.

(** [update_competitor_stats(times)], and the same loop inside the GUI's
    [process_race_results]. *)
Definition update_competitor_stats (times : list (option time)) (st : state)
    : state * option exn :=
  let (cs, e) := update_lanes (heat_number st) (current_heat_assignments st)
                              times [1; 2; 3; 4] (competitors st) in
  (set_competitors cs st, e).

(** ** Standings ranker: the [sorted(...)] call and the rows of
    [save_standings] *)

(** [x[1]['best_time'] if x[1]['best_time'] is not None else 999.0] *)
Definition sentinel : time := 9990000%Z.

Definition sort_key (item : string * stats) : Z :=
  match best_time (snd item) with
  | Some t => t
  | None => sentinel
  end.

(** [sorted(xs, key=...)] is a stable sort: elements with equal keys keep
    their order.  Stable insertion from the right gives the same list. *)
Section StableSort.
Variable A : Type.
Variable key : A -> Z.

Fixpoint insert_by (x : A) (l : list A) : list A :=
  match l with
  | [] => [x]
  | y :: l' =>
      if (key x <=? key y)%Z then x :: y :: l' else y :: insert_by x l'
  end.

Fixpoint py_sorted (l : list A) : list A :=
  match l with
  | [] => []
  | x :: l' => insert_by x (py_sorted l')
  end.
End StableSort.

Definition sorted_competitors (cs : ledger) : list (string * stats) :=
  py_sorted sort_key cs.

(** Truth value of [stats['best_time']]: [None] and [0.0] are false. *)
Definition truthy (o : option time) : bool :=
  match o with
  | Some t => negb (t =? 0)%Z
  | None => false
  end.

(** [total / n] with [n] an [int]: [ZeroDivisionError] on zero, else the
    float quotient, kept as its operands. *)
Definition py_div (total : list time) (n : nat)
    : option (list time * nat) :=
  match n with
  | O => None
  | S _ => Some (total, n)
  end.

(** The row written for one competitor; [None] is an exception raised while
    building it. *)
Definition standings_row (rank : nat) (item : string * stats)
    : option row :=
  let name := fst item in
  let s := snd item in
  let best := if truthy (best_time s)
              then match best_time s with
                   | Some t => CTime t
                   | None => CStr EmptyString
                   end
              else CStr EmptyString in
  if 0 <? races_count s then
    match py_div (total_time s) (races_count s) with
    | Some (total, n) =>
        Some [CInt (Z.of_nat rank); CStr name; best; CAvg total n;
              CInt (Z.of_nat (races_count s))]
    | None => None
    end
  else
    Some [CInt (Z.of_nat rank); CStr name; best; CStr EmptyString;
          CInt (Z.of_nat (races_count s))].

(** [for rank, (name, stats) in enumerate(sorted_competitors, 1)]: the rows
    written, and the exception that stopped the loop, if any. *)
Fixpoint standings_rows (rank : nat) (items : list (string * stats))
    : list row * option exn :=
  match items with
  | [] => ([], None)
  | item :: rest =>
      match standings_row rank item with
      | None => ([], Some ZeroDivisionError)
      | Some r =>
          let (rs, e) := standings_rows (S rank) rest in (r :: rs, e)
      end
  end.

(** [save_standings()]: the file is opened for writing, so it is replaced;
    the handler swallows an exception and leaves what was written. *)
Definition save_standings (st : state) : state :=
  let (rows, _) := standings_rows 1 (sorted_competitors (competitors st)) in
  set_standings_file (standings_header :: rows) st.

(** ** Heat log rows *)

(** [d.get(k, '')] *)
Definition get_or_empty (lane : nat) (asg : assignments) : string :=
  match dict_get Nat.eqb lane asg with
  | Some name => name
  | None => EmptyString
  end.

(** [row.extend([competitor, time_val])] for one lane; [None] is the
    [IndexError] of [times[lane-1]]. *)
Definition lane_cells (asg : assignments) (times : list (option time))
    (lane : nat) : option (list cell) :=
  match nth_error times (lane - 1) with
  | None => None
  | Some slot =>
      Some [CStr (get_or_empty lane asg);
            match slot with
            | Some t => CTime t
            | None => CStr EmptyString
            end]
  end.

Fixpoint lanes_cells (asg : assignments) (times : list (option time))
    (lanes : list nat) : option (list cell) :=
  match lanes with
  | [] => Some []
  | lane :: rest =>
      match lane_cells asg times lane with
      | None => None
      | Some cs =>
          match lanes_cells asg times rest with
          | None => None
          | Some cs' => Some (cs ++ cs')
          end
      end
  end.

(** [if winner_lane: ... .get(winner_lane, '') else ''] *)
Definition winner_cell (asg : assignments) (winner_lane : option nat)
    : cell :=
  match winner_lane with
  | Some (S l) => CStr (get_or_empty (S l) asg)
  | _ => CStr EmptyString
  end.

Definition heat_row (number : Z) (timestamp : string) (asg : assignments)
    (times : list (option time)) (winner_lane : option nat) : option row :=
  match lanes_cells asg times [1; 2; 3; 4] with
  | None => None
  | Some cs =>
      Some ([CInt number; CStr timestamp] ++ cs
            ++ [winner_cell asg winner_lane])
  end.

(** Console front end: [row = [self.heat_number, timestamp]].  An exception
    is caught inside and nothing is written. *)
Definition log_heat_results (timestamp : string)
    (times : list (option time)) (winner_lane : option nat) (st : state)
    : state :=
  match heat_row (heat_number st) timestamp (current_heat_assignments st)
                 times winner_lane with
  | Some r => set_heats_file (heats_file st ++ [r]) st
  | None => st
  end.

(** GUI: [row = [self.heat_number - 1, timestamp]]. *)
Definition save_heat_results (timestamp : string)
    (times : list (option time)) (winner_lane : option nat) (st : state)
    : state :=
  match heat_row (heat_number st - 1) timestamp (current_heat_assignments st)
                 times winner_lane with
  | Some r => set_heats_file (heats_file st ++ [r]) st
  | None => st
  end.

(** ** A completed heat *)

(** The display loop reads [times[lane-1]] for the four lanes before
    anything is updated. *)
Definition display_heat_results (times : list (option time))
    : option nat * option exn :=
  let winner_lane := option_map fst (find_winner times) in
  if length times <? 4 then (winner_lane, Some IndexError)
  else (winner_lane, None).

(** Console front end, [run_tournament], the branch
    [if any(t is not None for t in times)]: display, update, log, save the
    standings, then [self.heat_number += 1].  An exception leaves the loop. *)
Definition logger_heat (timestamp : string) (times : list (option time))
    (st : state) : state * option exn :=
  match display_heat_results times with
  | (_, Some e) => (st, Some e)
  | (winner_lane, None) =>
      match update_competitor_stats times st with
      | (st1, Some e) => (st1, Some e)
      | (st1, None) =>
          let st2 := log_heat_results timestamp times winner_lane st1 in
          let st3 := save_standings st2 in
          (set_heat_number (heat_number st3 + 1) st3, None)
      end
  end.

(** GUI, [process_race_results(times)]: winner, display, update, save the
    heat row, save the standings, then [self.heat_number += 1]. *)
Definition process_race_results (timestamp : string)
    (times : list (option time)) (st : state) : state * option exn :=
  match display_heat_results times with
  | (_, Some e) => (st, Some e)
  | (winner_lane, None) =>
      match update_competitor_stats times st with
      | (st1, Some e) => (st1, Some e)
      | (st1, None) =>
          let st2 := save_heat_results timestamp times winner_lane st1 in
          let st3 := save_standings st2 in
          (set_heat_number (heat_number st3 + 1) st3, None)
      end
  end.

Inductive front_end : Type :=
| Console
| Gui.

(** What one heat brings: the lane assignments made before listening, the
    times of the line received, and the clock when the row is written. *)
Record heat_input : Type := {
  hi_assignments : assignments;
  hi_times : list (option time);
  hi_timestamp : string
}.

(** The assignments are stored, then a line whose times are not all absent
    completes the heat; any other line leaves the front end listening.  The
    GUI ([start_listening]) does not listen at all when no lane is
    assigned. *)
Definition run_heat (fe : front_end) (h : heat_input) (st : state)
    : state * option exn :=
  let st1 := set_assignments (hi_assignments h) st in
  match fe with
  | Console =>
      if any_present (hi_times h)
      then logger_heat (hi_timestamp h) (hi_times h) st1
      else (st1, None)
  | Gui =>
      match hi_assignments h with
      | [] => (st1, None)
      | _ :: _ =>
          if any_present (hi_times h)
          then process_race_results (hi_timestamp h) (hi_times h) st1
          else (st1, None)
      end
  end.

(** Heats one after the other; an exception ends the session in both front
    ends. *)
Fixpoint run_heats (fe : front_end) (hs : list heat_input) (st : state)
    : state * option exn :=
  match hs with
  | [] => (st, None)
  | h :: rest =>
      match run_heat fe h st with
      | (st', None) => run_heats fe rest st'
      | (st', Some e) => (st', Some e)
      end
  end.

(** ** Registration *)

Inductive add_outcome : Type :=
| Added
| EmptyName
| Duplicate.

(** GUI, [add_competitor]: the entry is trimmed; an empty name and a name
    already in the ledger are refused with a warning. *)
Definition add_competitor (entry : text) (st : state) : state * add_outcome :=
  let name := strip entry in
  if negb (nonempty name) then (st, EmptyName)
  else
    let n := string_of_list_ascii name in
    if dict_mem String.eqb n (competitors st) then (st, Duplicate)
    else
      (set_competitors (dict_set String.eqb n fresh_stats (competitors st)) st,
       Added).

(** Console front end, one pass of the [while True] of [setup_competitors]:
    a non-empty name is stored and accepted ([break]), an empty one is asked
    again. *)
Definition register_prompt (entry : text) (cs : ledger) : ledger * bool :=
  let name := strip entry in
  if nonempty name then
    (dict_set String.eqb (string_of_list_ascii name) fresh_stats cs, true)
  else (cs, false).

(** [for i in range(num)] over the lines typed: [remaining] names are still
    to be accepted. *)
Fixpoint setup_competitors (remaining : nat) (entries : list text)
    (cs : ledger) : ledger :=
  match remaining, entries with
  | O, _ => cs
  | _, [] => cs
  | S r, entry :: rest =>
      match register_prompt entry cs with
      | (cs', true) => setup_competitors r rest cs'
      | (cs', false) => setup_competitors (S r) rest cs'
      end
  end.

(** ** The parser as the specification words it *)

(** A token that is one or more digits, an optional decimal point and
    exactly four digits, and nothing else. *)
Definition full_token (w : text) : bool :=
  match span_digits w with
  | (ip, []) => 5 <=? length ip
  | (ip, c :: fp) =>
      nonempty ip && is_dot c && forallb is_digit fp && (length fp =? 4)
  end.

(** The tokens of a line: its maximal runs of characters that are not white
    space. *)
Fixpoint words_from (cur : text) (s : text) : list text :=
  match s with
  | [] => if nonempty cur then [rev cur] else []
  | c :: s' =>
      if is_space c then
        (if nonempty cur then [rev cur] else []) ++ words_from [] s'
      else words_from (c :: cur) s'
  end.

Definition words (s : text) : list text := words_from [] s.

(** Four slots from at most four values. *)
Definition four_slots (vs : list (option time)) : list (option time) :=
  firstn 4 (vs ++ [None; None; None; None]).

(** The parser of the specification: the tokens of the line that have the
    form, the first four of them, by position. *)
Definition spec_parse_timer_data (line : text) : list (option time) :=
  four_slots (map py_float (firstn 4 (filter full_token (words line)))).

(** ** The matches of the pattern, without the matcher *)

(** The form of a match, on any stretch of text: digits, an optional point,
    four digits. *)
Inductive token_shape : text -> Prop :=
| shape_plain (ds d4 : text) :
    ds <> [] -> forallb is_digit ds = true ->
    forallb is_digit d4 = true -> length d4 = 4 ->
    token_shape (ds ++ d4)
| shape_point (ds d4 : text) :
    ds <> [] -> forallb is_digit ds = true ->
    forallb is_digit d4 = true -> length d4 = 4 ->
    token_shape (ds ++ DOT :: d4).

Definition is_prefix (m s : text) : Prop := exists rest, s = m ++ rest.

(** [m] is the longest stretch of the form at the start of [s]. *)
Definition longest_at (s m : text) : Prop :=
  token_shape m /\ is_prefix m s
  /\ forall m', token_shape m' -> is_prefix m' s -> length m' <= length m.

(** The leftmost longest stretches of the form, one after the other without
    overlap. *)
Inductive scan : text -> list text -> Prop :=
| scan_end : scan [] []
| scan_skip (c : ascii) (s : text) (ms : list text) :
    (forall m, token_shape m -> ~ is_prefix m (c :: s)) ->
    scan s ms -> scan (c :: s) ms
| scan_take (m rest : text) (ms : list text) :
    longest_at (m ++ rest) m ->
    scan rest ms -> scan (m ++ rest) (m :: ms).

(** The value of a match: the digits before the point count seconds, the
    four after it count 1e-4 s; without a point all digits count seconds. *)
Inductive token_reads : text -> time -> Prop :=
| reads_plain (ds : text) :
    ds <> [] -> forallb is_digit ds = true ->
    token_reads ds (digits_val ds * 10000)%Z
| reads_point (ds d4 : text) :
    ds <> [] -> forallb is_digit ds = true ->
    forallb is_digit d4 = true -> length d4 = 4 ->
    token_reads (ds ++ DOT :: d4) (digits_val ds * 10000 + digits_val d4)%Z.

(** ** The framer as the specification words it *)

(** The split of the specification: at the first character that is either
    delimiter. *)
Fixpoint spec_next_line (buffer : text) : option (text * text) :=
  match buffer with
  | [] => None
  | c :: s' =>
      if Ascii.eqb c LF || Ascii.eqb c CR then Some ([], s')
      else
        match spec_next_line s' with
        | Some (a, b) => Some (c :: a, b)
        | None => None
        end
  end.

(** ** Streams whose carriage returns are not inside a line *)

(** A stream whose carriage returns never stand inside a line: every
    stretch that ends at a newline, once trimmed, holds none.  Streams with
    newlines only, with carriage returns only, and with CR LF line ends are
    of this kind. *)
Inductive returns_in_margins : text -> Prop :=
| margins_tail (s : text) :
    contains LF s = false -> returns_in_margins s
| margins_line (seg rest : text) :
    contains LF seg = false -> contains CR (strip seg) = false ->
    returns_in_margins rest -> returns_in_margins (seg ++ LF :: rest).

(** Every carriage return is followed at once by a newline, or ends the
    stream: the line ends are LF or CR LF. *)
Fixpoint returns_before_newlines (s : text) : bool :=
  match s with
  | [] => true
  | c :: s' =>
      (if Ascii.eqb c CR
       then match s' with
            | [] => true
            | d :: _ => Ascii.eqb d LF
            end
       else true)
      && returns_before_newlines s'
  end.

(** ** What a competitor finished in a sequence of heats *)

(** The times of the lanes of one heat that are assigned to [name] and hold
    a time, in lane order. *)
Definition lane_finish (name : string) (asg : assignments)
    (times : list (option time)) (lane : nat) : list (nat * time) :=
  match dict_get Nat.eqb lane asg, nth_error times (lane - 1) with
  | Some competitor, Some (Some t) =>
      if String.eqb competitor name then [(lane, t)] else []
  | _, _ => []
  end.

(** The finishes of one heat, over its four lanes. *)
Definition heat_finishes (name : string) (asg : assignments)
    (times : list (option time)) : list (nat * time) :=
  flat_map (lane_finish name asg times) [1; 2; 3; 4].

(** Truth value of the assignments [dict]. *)
Definition nonempty_assignments (asg : assignments) : bool :=
  match asg with [] => false | _ :: _ => true end.

(** The record appended for a finish [(lane, time)] of heat [number]. *)
Definition finish_record (number : Z) (lt : nat * time) : heat_record :=
  {| hr_heat := number; hr_lane := fst lt; hr_time := snd lt |}.

(** Whether the input completes a heat in the front end. *)
Definition heat_runs (fe : front_end) (h : heat_input) : bool :=
  match fe with
  | Console => any_present (hi_times h)
  | Gui => nonempty_assignments (hi_assignments h) && any_present (hi_times h)
  end.

(** The same over the heats of a session, with the heat number each one was
    run under; an input that completes no heat uses up no number. *)
Fixpoint session_finishes (fe : front_end) (name : string) (number : Z)
    (hs : list heat_input) : list heat_record :=
  match hs with
  | [] => []
  | h :: rest =>
      if heat_runs fe h then
        map (finish_record number)
            (heat_finishes name (hi_assignments h) (hi_times h))
        ++ session_finishes fe name (number + 1) rest
      else session_finishes fe name number rest
  end.

(** [min(ts)], absent on the empty sequence. *)
Definition min_time (ts : list time) : option time :=
  match ts with
  | [] => None
  | t :: ts' => Some (fold_left Z.min ts' t)
  end.

(** Every assigned name is registered and the array has its four slots:
    what the front ends and the parser hand to the ledger. *)
Definition heat_ok (cs : ledger) (h : heat_input) : Prop :=
  length (hi_times h) = 4
  /\ forall lane name, In (lane, name) (hi_assignments h) ->
                       dict_mem String.eqb name cs = true.

(** The invariant of a competitor's record. *)
Definition stats_ok (s : stats) : Prop :=
  races_count s = length (heats s)
  /\ best_time s = min_time (map hr_time (heats s))
  /\ total_time s = map hr_time (heats s).

(** ** Auxiliary functions of the proofs *)

(** The statistics after the finishes [fs] of one heat were recorded. *)
Definition record_all (number : Z) (fs : list (nat * time)) (s : stats)
    : stats :=
  fold_left (fun acc lt => record_time number (fst lt) (snd lt) acc) fs s.

(** The best time after one more time, as the update computes it. *)
Definition best_step (b : option time) (t : time) : option time :=
  match b with
  | None => Some t
  | Some b' => if (t <? b')%Z then Some t else Some b'
  end.

(** The statistics [s0] with the records [rs] added one after the other. *)
Definition stats_after (s0 : stats) (rs : list heat_record) : stats :=
  {| heats := heats s0 ++ rs;
     best_time := fold_left best_step (map hr_time rs) (best_time s0);
     total_time := total_time s0 ++ map hr_time rs;
     races_count := races_count s0 + length rs |}.

(** A best time as a sequence of at most one time. *)
Definition option_list (o : option time) : list time :=
  match o with
  | Some t => [t]
  | None => []
  end.

(** The text does not start with a digit. *)
Definition no_digit_ahead (s : text) : Prop :=
  match s with
  | [] => True
  | c :: _ => is_digit c = false
  end.

(** What follows the greedy digit run: [\.?\d{4}]. *)
Definition after_run (s : text) : option text :=
  rmatch (Cat (Opt (Class is_dot)) (Rep 4 is_digit)) s Some.

(** Backtracking over a digit run [ds] followed by [rest]: the continuation
    is tried with ever fewer digits taken by [\d+]. *)
Fixpoint try_back (k : text -> option text) (ds rest : text) : option text :=
  match ds with
  | [] => None
  | _ :: ds' =>
      match try_back k ds' rest with
      | Some r => Some r
      | None => k (ds' ++ rest)
      end
  end.

(** The last row of a file. *)
Definition last_row (f : list row) : row := last f [].

(** ** Sample sessions *)

(** Alice and Bob, heat 1, the line [1.2345 1.1111 ]. *)
Definition two_competitors : ledger :=
  [("Alice", fresh_stats); ("Bob", fresh_stats)].

Definition sample_state : state :=
  set_assignments [(1, "Alice"); (2, "Bob")]
                  (set_competitors two_competitors initial_state).

Definition sample_heat : heat_input :=
  {| hi_assignments := [(1, "Alice"); (2, "Bob")];
     hi_times := [Some 12345%Z; Some 11111%Z; None; None];
     hi_timestamp := "2024-01-01 10:00:00" |}.

(** A session whose first registered competitor finishes in 1000 s. *)
Definition slow_state : state :=
  set_competitors [("Bob", fresh_stats); ("Ann", fresh_stats)] initial_state.

Definition slow_heat : heat_input :=
  {| hi_assignments := [(1, "Bob")];
     hi_times := parse_timer_data (txt "1000.0000");
     hi_timestamp := "2024-01-01 10:00:00" |}.

(** A heat whose line reads 0.0000 on lane 1. *)
Definition zero_heat : heat_input :=
  {| hi_assignments := [(1, "Alice"); (2, "Bob")];
     hi_times := parse_timer_data (txt "0.0000 1.1111");
     hi_timestamp := "2024-01-01 10:00:00" |}.

(** * The rest of the front ends *)

(** ** [int(s)], list subscripts and [del] *)

Definition PLUS : ascii := ascii_of_nat 43.
Definition MINUS : ascii := ascii_of_nat 45.
Definition UNDERSCORE : ascii := ascii_of_nat 95.

(** The digits of an [int] literal: single underscores are allowed between
    digits.  [after_digit] tells whether the last character was a digit. *)
Fixpoint int_digits (acc : Z) (after_digit : bool) (s : text) : option Z :=
  match s with
  | [] => if after_digit then Some acc else None
  | c :: s' =>
      if is_digit c then int_digits (10 * acc + digit_val c)%Z true s'
      else if Ascii.eqb c UNDERSCORE
           then if after_digit then int_digits acc false s' else None
           else None
  end.

(** The white space [int] drops around a numeral, on code points below 256:
    TAB, LF, VT, FF, CR, SPACE, NEL and NBSP.  FS, GS, RS and US, which
    [str.strip] removes, are not among them: [int('\x1c1')] raises
    [ValueError]. *)
Definition is_int_space (c : ascii) : bool :=
  let n := nat_of_ascii c in
  ((9 <=? n)%nat && (n <=? 13)%nat) || (n =? 32)%nat
  || (n =? 133)%nat || (n =? 160)%nat.

Definition int_strip (s : text) : text :=
  rev (dropwhile is_int_space (rev (dropwhile is_int_space s))).

(** [sys.get_int_max_str_digits()], as Python sets it: [int] refuses a
    numeral with more digits, leading zeros counted, sign, white space and
    underscores not. *)
Definition int_max_str_digits : nat := 4300.

(** [int(s)] in base ten: the white space of [is_int_space] around the
    numeral is dropped, one sign is allowed; [None] is the [ValueError]. *)
Definition py_int (s : text) : option Z :=
  match int_strip s with
  | [] => None
  | c :: s' =>
      let numeral :=
        if Ascii.eqb c PLUS || Ascii.eqb c MINUS then s' else c :: s' in
      if int_max_str_digits <? length (filter is_digit numeral) then None
      else if Ascii.eqb c PLUS then int_digits 0 false s'
      else if Ascii.eqb c MINUS
           then option_map Z.opp (int_digits 0 false s')
           else int_digits 0 false (c :: s')
  end.

(** [l[i]]: an index from [-len(l)] to [-1] counts from the end; [None] is
    the [IndexError]. *)
Definition py_index {A : Type} (l : list A) (i : Z) : option A :=
  let n := Z.of_nat (length l) in
  if ((0 <=? i) && (i <? n))%Z then nth_error l (Z.to_nat i)
  else if ((- n <=? i) && (i <? 0))%Z then nth_error l (Z.to_nat (n + i))
  else None.

(** [del d[k]]; [None] is the [KeyError] of a missing key. *)
Fixpoint dict_del {K V : Type} (keq : K -> K -> bool) (k : K)
    (d : list (K * V)) : option (list (K * V)) :=
  match d with
  | [] => None
  | (k', v) :: d' =>
      if keq k k' then Some d'
      else
        match dict_del keq k d' with
        | Some r => Some ((k', v) :: r)
        | None => None
        end
  end.

(** [listbox.delete(idx)]: the item at [idx] goes, if there is one. *)
Fixpoint remove_at {A : Type} (idx : nat) (l : list A) : list A :=
  match l, idx with
  | [], _ => []
  | _ :: l', O => l'
  | x :: l', S i => x :: remove_at i l'
  end.

(** ** Console front end: [connect], the choice of the port *)

(** [choice.lower() == 'q'] *)
Definition is_quit (choice : text) : bool :=
  match choice with
  | [c] => (nat_of_ascii c =? 113) || (nat_of_ascii c =? 81)
  | _ => false
  end.

(** The part of [connect] before the port is opened, for [port_name=None]:
    the name of the port to open, or [None] when [connect] returns [False]
    (no port, [q], a choice that is no number, a subscript out of range). *)
Definition choose_port (ports : list string) (choice : text)
    : option string :=
  match ports with
  | [] => None
  | _ :: _ =>
      if is_quit choice then None
      else
        match py_int choice with
        | None => None
        | Some n => py_index ports (n - 1)%Z
        end
  end.

(** ** Console front end: [assign_heat] *)

(** The [while True] of one lane over the lines typed: an empty line leaves
    the lane empty, a number from 1 to the number of competitors takes the
    competitor at that place, a registered name takes that competitor,
    anything else is asked again.  [None] is the end of the input. *)
Fixpoint assign_lane (available : list string) (cs : ledger)
    (inputs : list text) : option (option string * list text) :=
  match inputs with
  | [] => None
  | typed :: rest =>
      let assignment := strip typed in
      if negb (nonempty assignment) then Some (None, rest)
      else
        let by_number :=
          match py_int assignment with
          | Some n =>
              let idx := (n - 1)%Z in
              if ((0 <=? idx) && (idx <? Z.of_nat (length available)))%Z
              then nth_error available (Z.to_nat idx)
              else None
          | None => None
          end in
        match by_number with
        | Some competitor_name => Some (Some competitor_name, rest)
        | None =>
            if dict_mem String.eqb (string_of_list_ascii assignment) cs
            then Some (Some (string_of_list_ascii assignment), rest)
            else assign_lane available cs rest
        end
  end.

(** [for lane in range(1, 5)]: the assignments made so far, and the input
    left, [None] when it ended inside the loop. *)
Fixpoint assign_lanes (available : list string) (cs : ledger)
    (lanes : list nat) (inputs : list text) (asg : assignments)
    : assignments * option (list text) :=
  match lanes with
  | [] => (asg, Some inputs)
  | lane :: rest_lanes =>
      match assign_lane available cs inputs with
      | None => (asg, None)
      | Some (None, rest) => assign_lanes available cs rest_lanes rest asg
      | Some (Some name, rest) =>
          assign_lanes available cs rest_lanes rest
                       (dict_set Nat.eqb lane name asg)
      end
  end.

(** [input(...).lower() == 'y'] *)
Definition is_yes (answer : text) : bool :=
  match answer with
  | [c] => (nat_of_ascii c =? 121) || (nat_of_ascii c =? 89)
  | _ => false
  end.

(** [assign_heat()]: the state reached and, unless the input ended, the
    value returned with the input left.  Without competitors it returns
    [False] at once and leaves the assignments of the heat before. *)
Definition assign_heat (inputs : list text) (st : state)
    : state * option (bool * list text) :=
  match competitors st with
  | [] => (st, Some (false, inputs))
  | _ :: _ =>
      match assign_lanes (dict_keys (competitors st)) (competitors st)
                         [1; 2; 3; 4] inputs [] with
      | (asg, None) => (set_assignments asg st, None)
      | (asg, Some []) => (set_assignments asg st, None)
      | (asg, Some (answer :: rest)) =>
          (set_assignments asg st, Some (is_yes answer, rest))
      end
  end.

(** ** GUI: the setup tab *)

(** The ledger with the listbox that shows it. *)
Record setup_tab : Type := {
  tab_state : state;
  competitor_listbox : list string
}.

(** [add_competitor] with its last lines: an accepted name is appended to
    the listbox. *)
Definition add_competitor_click (entry : text) (g : setup_tab)
    : setup_tab * add_outcome :=
  match add_competitor entry (tab_state g) with
  | (st', Added) =>
      ({| tab_state := st';
          competitor_listbox :=
            competitor_listbox g ++ [string_of_list_ascii (strip entry)] |},
       Added)
  | (_, outcome) => (g, outcome)
  end.

Inductive remove_outcome : Type :=
| Removed
| NoSelection
| Declined
| RemoveRaised (e : exn).

(** [remove_competitor]: [selection] is [curselection()], [confirm] the
    answer to the dialog.  The name is read from the listbox (an index
    without an item reads as the empty string) and deleted from the ledger,
    then the listbox item is deleted. *)
Definition remove_competitor (selection : list nat) (confirm : bool)
    (g : setup_tab) : setup_tab * remove_outcome :=
  match selection with
  | [] => (g, NoSelection)
  | idx :: _ =>
      let name := nth idx (competitor_listbox g) EmptyString in
      if confirm then
        match dict_del String.eqb name (competitors (tab_state g)) with
        | None => (g, RemoveRaised KeyError)
        | Some cs =>
            ({| tab_state := set_competitors cs (tab_state g);
                competitor_listbox :=
                  remove_at idx (competitor_listbox g) |},
             Removed)
        end
      else (g, Declined)
  end.

Inductive setup_click : Type :=
| ClickAdd (entry : text)
| ClickRemove (selection : list nat) (confirm : bool).

Definition setup_step (g : setup_tab) (c : setup_click) : setup_tab :=
  match c with
  | ClickAdd entry => fst (add_competitor_click entry g)
  | ClickRemove selection confirm =>
      fst (remove_competitor selection confirm g)
  end.

(** [__init__]: no competitor, an empty listbox. *)
Definition initial_setup_tab : setup_tab :=
  {| tab_state := initial_state; competitor_listbox := [] |}.

(** ** GUI: the racing tab *)

(** The value shown by each of the four lane comboboxes. *)
Definition combos := list (nat * string).

Definition EMPTY_CHOICE : string := "(empty)".

(** [create_racing_tab]: four comboboxes with nothing chosen. *)
Definition initial_combos : combos :=
  [(1, EmptyString); (2, EmptyString); (3, EmptyString); (4, EmptyString)].

(** [update_lane_options]: every combobox is set to ['(empty)']. *)
Definition update_lane_options (cb : combos) : combos :=
  map (fun lc => (fst lc, EMPTY_CHOICE)) cb.

(** [lambda x: x[1]['races_count']] *)
Definition races_key (item : string * stats) : Z :=
  Z.of_nat (races_count (snd item)).

(** [for lane, (name, _) in zip(range(1, 5), ...): lane_combos[lane].set(name)] *)
Fixpoint set_combos (pairs : list (nat * string)) (cb : combos) : combos :=
  match pairs with
  | [] => cb
  | (lane, name) :: rest => set_combos rest (dict_set Nat.eqb lane name cb)
  end.

(** [auto_assign_lanes]: the competitors sorted by number of races, the
    first four of them on lanes 1 to 4. *)
Definition auto_assign_lanes (cs : ledger) (cb : combos) : combos :=
  set_combos (combine [1; 2; 3; 4]
                      (map fst (firstn 4 (py_sorted races_key cs))))
             cb.

(** [selection and selection != '(empty)'] *)
Definition is_selection (selection : string) : bool :=
  negb (String.eqb selection EmptyString)
  && negb (String.eqb selection EMPTY_CHOICE).

(** [start_listening], the assignments read from the comboboxes. *)
Definition combo_assignments (cb : combos) : assignments :=
  filter (fun lc => is_selection (snd lc)) cb.

(** [start_listening]: the assignments are stored; listening starts ([true])
    when there is one at least and the dialog is confirmed. *)
Definition start_listening (cb : combos) (confirm : bool) (st : state)
    : state * bool :=
  let st1 := set_assignments (combo_assignments cb) st in
  if nonempty_assignments (combo_assignments cb) then (st1, confirm)
  else (st1, false).

(** ** Listening over the polls of one heat *)

(** The outer [while] of [listen_for_race] and of the heat in
    [run_tournament]: each chunk read is appended to the buffer and the
    lines are taken, until one completes the heat; the chunks not yet read
    stay with the transport.  A chunk is the text the bytes read were
    decoded to; on ASCII bytes decoding changes nothing and does not depend
    on where the chunks end. *)
Fixpoint listen_polls (buffer : text) (chunks : list text)
    : option (list (option time)) * text :=
  match chunks with
  | [] => (None, buffer)
  | chunk :: rest =>
      match listen (buffer ++ chunk) with
      | (Some times, b) => (Some times, b)
      | (None, b) => listen_polls b rest
      end
  end.

(** The times of the first line that holds one, among lines already
    framed. *)
Fixpoint first_timed (lines : list text) : option (list (option time)) :=
  match lines with
  | [] => None
  | line :: rest =>
      if any_present (parse_timer_data line)
      then Some (parse_timer_data line)
      else first_timed rest
  end.

(** ** Reading the files *)

(** The first field of a row. *)
Definition first_cell (r : row) : cell := hd (CStr EmptyString) r.

(** The second field of a row. *)
Definition second_cell (r : row) : cell := nth 1 r (CStr EmptyString).

(** [CInt n; CInt (n+1); ...], [k] of them. *)
Definition numbers_from (n : Z) (k : nat) : list cell :=
  map (fun i => CInt (n + Z.of_nat i)) (seq 0 k).

(** The heat number a front end writes while the heat number is [n]. *)
Definition logged_number (fe : front_end) (n : Z) : Z :=
  match fe with
  | Console => n
  | Gui => (n - 1)%Z
  end.

(** The row a front end writes for the heat [h] run under heat number
    [n]. *)
Definition logged_row (fe : front_end) (n : Z) (h : heat_input)
    : option row :=
  heat_row (logged_number fe n) (hi_timestamp h) (hi_assignments h)
           (hi_times h) (option_map fst (find_winner (hi_times h))).

(** The rows of the heats that run, each under its heat number, counted
    from [n]. *)
Fixpoint logged_rows (fe : front_end) (n : Z) (hs : list heat_input)
    : list row :=
  match hs with
  | [] => []
  | h :: rest =>
      if heat_runs fe h then
        match logged_row fe n h with
        | Some r => r :: logged_rows fe (n + 1) rest
        | None => logged_rows fe (n + 1) rest
        end
      else logged_rows fe n rest
  end.

(** GUI, [finish_setup]: with a competitor at least and the dialog
    confirmed, the heat log is opened for writing and gets its header; the
    heat number is left as it is.  The setup tab stays enabled, so this can
    happen after heats were logged. *)
Definition finish_setup (confirm : bool) (st : state) : state :=
  match competitors st with
  | [] => st
  | _ :: _ => if confirm then set_heats_file [heats_header] st else st
  end.

(** The text has no white space at either end. *)
Definition trimmed (s : text) : Prop := strip s = s.

(** Some lane from 1 to 4 is assigned to a name that is not in the ledger
    and holds a time. *)
Definition unregistered_finisher (asg : assignments)
    (times : list (option time)) (cs : ledger) (lane : nat) : Prop :=
  exists name t,
    dict_get Nat.eqb lane asg = Some name
    /\ nth_error times (lane - 1) = Some (Some t)
    /\ dict_get String.eqb name cs = None.

(** What the setup tab keeps: the listbox shows the names of the ledger in
    its order, no name twice, every name non-empty and without white space
    around it, every record as registration made it. *)
Definition setup_ok (g : setup_tab) : Prop :=
  competitor_listbox g = dict_keys (competitors (tab_state g))
  /\ NoDup (competitor_listbox g)
  /\ Forall (fun name => name <> EmptyString
                         /\ trimmed (list_ascii_of_string name))
            (competitor_listbox g)
  /\ Forall (fun item => snd item = fresh_stats)
            (competitors (tab_state g)).

(** * Properties *)

(** ** Race resolver *)

(** The valid pairs from index [i] on are the present slots, each under its
    lane number. *)
Lemma in_valid_from (times : list (option time)) :
  forall i lane t,
    In (lane, t)
       (flat_map (fun it => match snd it with
                            | Some t => [(fst it + 1, t)]
                            | None => []
                            end) (enumerate_from i times))
    <-> i + 1 <= lane /\ nth_error times (lane - (i + 1)) = Some (Some t).
Proof.
  induction times as [|slot r IH]; intros i lane t.
  - simpl. split; [tauto|]. intros [_ H]. destruct (lane - (i + 1)); discriminate.
  - cbn [enumerate_from flat_map]. rewrite in_app_iff, IH. cbn [snd fst].
    split.
    + intros [H|[Hle Hn]].
      * destruct slot as [t0|]; simpl in H; [|tauto].
        destruct H as [H|[]]. inversion H; subst.
        replace (i + 1 - (i + 1)) with 0 by lia. split; [lia|reflexivity].
      * split; [lia|].
        replace (lane - (i + 1)) with (S (lane - (S i + 1))) by lia. exact Hn.
    + intros [Hle Hn].
      destruct (Nat.eq_dec lane (i + 1)) as [->|Hne].
      * left. replace (i + 1 - (i + 1)) with 0 in Hn by lia. simpl in Hn.
        inversion Hn; subst. simpl. auto.
      * right. split; [lia|].
        replace (lane - (i + 1)) with (S (lane - (S i + 1))) in Hn by lia.
        exact Hn.
Qed.

Lemma in_valid_times (times : list (option time)) (lane : nat) (t : time) :
  In (lane, t) (valid_times times)
  <-> 1 <= lane /\ nth_error times (lane - 1) = Some (Some t).
Proof. unfold valid_times. rewrite in_valid_from. simpl. tauto. Qed.

(** The lanes of the valid pairs grow strictly. *)
Lemma valid_from_sorted (times : list (option time)) :
  forall i,
    StronglySorted (fun a b : nat * time => fst a < fst b)
       (flat_map (fun it => match snd it with
                            | Some t => [(fst it + 1, t)]
                            | None => []
                            end) (enumerate_from i times)).
Proof.
  induction times as [|slot r IH]; intros i.
  - constructor.
  - cbn [enumerate_from flat_map snd fst]. destruct slot as [t|]; simpl.
    + constructor; [apply IH|].
      apply Forall_forall. intros [l t'] Hin.
      apply in_valid_from in Hin. simpl. lia.
    + apply IH.
Qed.

(** [min] by key: the element returned splits the sequence into a part of
    strictly larger keys before it and a part of keys at least as large
    after it. *)
Lemma py_min_by_split (A : Type) (key : A -> Z) (xs : list A) :
  forall best,
  exists pre post,
    best :: xs = pre ++ py_min_by key best xs :: post
    /\ (forall y, In y pre -> (key (py_min_by key best xs) < key y)%Z)
    /\ (forall y, In y post -> (key (py_min_by key best xs) <= key y)%Z).
Proof.
  induction xs as [|x xs IH]; intros best.
  - exists [], []. simpl. repeat split; intros y [].
  - simpl. destruct (Z.ltb_spec (key x) (key best)) as [Hlt|Hge].
    + destruct (IH x) as (pre & post & Heq & Hpre & Hpost).
      exists (best :: pre), post. repeat split.
      * simpl. f_equal. exact Heq.
      * intros y [<-|Hin]; [|auto].
        assert (key (py_min_by key x xs) <= key x)%Z; [|lia].
        destruct pre as [|p pre'].
        -- simpl in Heq. injection Heq as H1 H2. rewrite <- H1. lia.
        -- simpl in Heq. injection Heq as H1 H2. subst p.
           specialize (Hpre x (or_introl eq_refl)). lia.
      * exact Hpost.
    + destruct (IH best) as (pre & post & Heq & Hpre & Hpost).
      destruct pre as [|p pre'].
      * simpl in Heq. injection Heq as H1 H2.
        exists [], (x :: post). repeat split.
        -- simpl. rewrite <- H1, H2. reflexivity.
        -- intros y [].
        -- intros y [<-|Hin]; [rewrite <- H1; lia|auto].
      * simpl in Heq. injection Heq as H1 H2. subst p.
        exists (best :: x :: pre'), post. repeat split.
        -- simpl. do 2 f_equal. exact H2.
        -- intros y [<-|[<-|Hin]].
           ++ apply Hpre. left. reflexivity.
           ++ specialize (Hpre best (or_introl eq_refl)). lia.
           ++ apply Hpre. right. exact Hin.
        -- exact Hpost.
Qed.

Lemma valid_times_nil (times : list (option time)) :
  valid_times times = [] <-> Forall (fun slot => slot = None) times.
Proof.
  split.
  - intros H. apply Forall_forall. intros slot Hin.
    destruct slot as [t|]; [|reflexivity].
    apply In_nth_error in Hin. destruct Hin as [n Hn].
    assert (Hv : In (n + 1, t) (valid_times times)).
    { apply in_valid_times. split; [lia|].
      replace (n + 1 - 1) with n by lia. exact Hn. }
    rewrite H in Hv. destruct Hv.
  - intros H. destruct (valid_times times) as [|[l t] r] eqn:E; [reflexivity|].
    assert (Hv : In (l, t) (valid_times times)) by (rewrite E; left; reflexivity).
    apply in_valid_times in Hv. destruct Hv as [_ Hn].
    apply nth_error_In in Hn. rewrite Forall_forall in H.
    specialize (H _ Hn). discriminate.
Qed.

(** C5.  The resolver returns no winner exactly when every slot is absent;
    otherwise it returns a lane that holds a time, with that time, no present
    time is smaller, and among the lanes that hold the same time it is the
    lowest.  Absent slots take no part. *)
Theorem find_winner_lowest_lane_of_minimum (times : list (option time)) :
  (find_winner times = None <-> Forall (fun slot => slot = None) times)
  /\ forall lane t,
       find_winner times = Some (lane, t) ->
       1 <= lane <= length times
       /\ nth_error times (lane - 1) = Some (Some t)
       /\ forall lane' t',
            1 <= lane' -> nth_error times (lane' - 1) = Some (Some t') ->
            (t <= t')%Z /\ (t' = t -> lane <= lane').
Proof.
  split.
  - unfold find_winner. rewrite <- valid_times_nil.
    destruct (valid_times times); split; intros H; try reflexivity;
      discriminate.
  - intros lane t Hw. unfold find_winner in Hw.
    destruct (valid_times times) as [|x xs] eqn:E; [discriminate|].
    injection Hw as Hw'.
    destruct (py_min_by_split snd xs x) as (pre & post & Heq & Hpre & Hpost).
    rewrite Hw' in Heq, Hpre, Hpost. simpl in Hpre, Hpost.
    assert (Hin : In (lane, t) (valid_times times)).
    { rewrite E, Heq. apply in_or_app. right. left. reflexivity. }
    pose proof (proj1 (in_valid_times _ _ _) Hin) as [Hl Hn].
    split.
    { split; [exact Hl|].
      assert (lane - 1 < length times) by (apply nth_error_Some; congruence).
      lia. }
    split; [exact Hn|].
    intros lane' t' Hl' Hn'.
    assert (Hin' : In (lane', t') (valid_times times))
      by (apply in_valid_times; auto).
    rewrite E, Heq in Hin'.
    pose proof (valid_from_sorted times 0) as Hs.
    fold (valid_times times) in Hs. rewrite E, Heq in Hs.
    apply in_app_or in Hin'. destruct Hin' as [Hp|[Hp|Hp]].
    + specialize (Hpre _ Hp). simpl in Hpre. split; [lia|]. intros ->. lia.
    + inversion Hp; subst. split; [lia|]. intros _. lia.
    + specialize (Hpost _ Hp). simpl in Hpost. split; [exact Hpost|].
      intros _.
      assert (Hs' : StronglySorted (fun a b : nat * time => fst a < fst b)
                      ((lane, t) :: post)).
      { clear - Hs. induction pre as [|p pre IH]; [exact Hs|].
        simpl in Hs. inversion Hs; subst. auto. }
      inversion Hs' as [|? ? _ Hall]; subst.
      rewrite Forall_forall in Hall. specialize (Hall _ Hp). simpl in Hall.
      lia.
Qed.

Lemma find_winner_lowest_lane_of_minimum_witness :
  find_winner [Some 10000%Z; Some 10000%Z; None; None] = Some (1, 10000%Z)
  /\ (1 <= 1 <= 4
      /\ nth_error [Some 10000%Z; Some 10000%Z; None; None] (1 - 1)
         = Some (Some 10000%Z)
      /\ forall lane' t',
           1 <= lane' ->
           nth_error [Some 10000%Z; Some 10000%Z; None; None] (lane' - 1)
           = Some (Some t') ->
           (10000 <= t')%Z /\ (t' = 10000%Z -> 1 <= lane')).
Proof.
  split; [reflexivity|].
  exact (proj2 (find_winner_lowest_lane_of_minimum
                  [Some 10000%Z; Some 10000%Z; None; None])
               1 10000%Z eq_refl).
Defined.

(** ** Dictionaries *)

Section DictFacts.
Variables K V : Type.
Variable keq : K -> K -> bool.
Hypothesis keq_spec : forall a b, reflect (a = b) (keq a b).

Lemma dict_get_set_same (k : K) (v : V) (d : list (K * V)) :
  dict_get keq k (dict_set keq k v d) = Some v.
Proof.
  induction d as [|[k' v'] d IH]; simpl.
  - destruct (keq_spec k k); [reflexivity|congruence].
  - destruct (keq_spec k k') as [->|Hne]; simpl.
    + destruct (keq_spec k' k'); [reflexivity|congruence].
    + destruct (keq_spec k k'); [congruence|exact IH].
Qed.

Lemma dict_get_set_other (k k0 : K) (v : V) (d : list (K * V)) :
  k0 <> k -> dict_get keq k0 (dict_set keq k v d) = dict_get keq k0 d.
Proof.
  intros Hne. induction d as [|[k' v'] d IH]; simpl.
  - destruct (keq_spec k0 k); [congruence|reflexivity].
  - destruct (keq_spec k k') as [->|Hne']; simpl.
    + destruct (keq_spec k0 k'); [congruence|reflexivity].
    + destruct (keq_spec k0 k'); [reflexivity|exact IH].
Qed.

(** Assigning to a key that is present changes no key and no position. *)
Lemma dict_keys_set_present (k : K) (v v0 : V) (d : list (K * V)) :
  dict_get keq k d = Some v0 ->
  dict_keys (dict_set keq k v d) = dict_keys d.
Proof.
  unfold dict_keys. induction d as [|[k' v'] d IH]; simpl; [discriminate|].
  destruct (keq_spec k k') as [->|Hne]; simpl; [reflexivity|].
  intros H. f_equal. auto.
Qed.

Lemma dict_get_in (k : K) (v : V) (d : list (K * V)) :
  dict_get keq k d = Some v -> In (k, v) d.
Proof.
  induction d as [|[k' v'] d IH]; simpl; [discriminate|].
  destruct (keq_spec k k') as [->|Hne].
  - intros H. injection H as ->. left. reflexivity.
  - intros H. right. auto.
Qed.

(** Membership depends on the keys alone. *)
Lemma dict_mem_keys (k : K) (d d' : list (K * V)) :
  dict_keys d' = dict_keys d -> dict_mem keq k d' = dict_mem keq k d.
Proof.
  unfold dict_mem, dict_keys. revert d'.
  induction d as [|[k1 v1] d IH]; intros [|[k2 v2] d'] H; simpl in *;
    try discriminate; [reflexivity|].
  injection H as -> H. destruct (keq k k1); [reflexivity|auto].
Qed.
End DictFacts.

(** ** Competitor ledger: one heat *)

Lemma update_lane_keys (number : Z) (asg : assignments)
    (times : list (option time)) (lane : nat) (cs : ledger) :
  dict_keys (fst (update_lane number asg times lane cs)) = dict_keys cs.
Proof.
  unfold update_lane.
  destruct (dict_get Nat.eqb lane asg) as [c|]; [|reflexivity].
  destruct (nth_error times (lane - 1)) as [[t|]|]; try reflexivity.
  destruct (dict_get String.eqb c cs) as [s|] eqn:E; [|reflexivity].
  simpl. eapply dict_keys_set_present; [exact String.eqb_spec|exact E].
Qed.

Lemma update_lanes_keys (number : Z) (asg : assignments)
    (times : list (option time)) (lanes : list nat) :
  forall cs,
    dict_keys (fst (update_lanes number asg times lanes cs)) = dict_keys cs.
Proof.
  induction lanes as [|lane rest IH]; intros cs; [reflexivity|].
  simpl. pose proof (update_lane_keys number asg times lane cs) as Hk.
  destruct (update_lane number asg times lane cs) as [cs' [e|]]; simpl in *.
  - exact Hk.
  - rewrite IH. exact Hk.
Qed.

(** A lane touches at most the competitor assigned to it, and only when its
    slot holds a time. *)
Lemma update_lane_other (number : Z) (asg : assignments)
    (times : list (option time)) (lane : nat) (cs : ledger) (name : string) :
  lane_finish name asg times lane = [] ->
  dict_get String.eqb name (fst (update_lane number asg times lane cs))
  = dict_get String.eqb name cs.
Proof.
  unfold update_lane, lane_finish.
  destruct (dict_get Nat.eqb lane asg) as [c|]; [|reflexivity].
  destruct (nth_error times (lane - 1)) as [[t|]|]; try reflexivity.
  destruct (String.eqb_spec c name) as [->|Hne]; [discriminate|].
  intros _. destruct (dict_get String.eqb c cs) as [s|]; [|reflexivity].
  simpl. apply dict_get_set_other; [exact String.eqb_spec|congruence].
Qed.

Lemma update_lanes_other (number : Z) (asg : assignments)
    (times : list (option time)) (name : string) (lanes : list nat) :
  forall cs,
    flat_map (lane_finish name asg times) lanes = [] ->
    dict_get String.eqb name (fst (update_lanes number asg times lanes cs))
    = dict_get String.eqb name cs.
Proof.
  induction lanes as [|lane rest IH]; intros cs H; [reflexivity|].
  simpl in H. apply app_eq_nil in H. destruct H as [H1 H2].
  simpl. pose proof (@update_lane_other number asg times lane cs name H1) as Ho.
  destruct (update_lane number asg times lane cs) as [cs' [e|]]; simpl in *.
  - exact Ho.
  - rewrite IH; assumption.
Qed.

(** When the loop ends without an exception, a competitor's statistics are
    those before it with this heat's finishes recorded, in lane order. *)
Lemma update_lanes_get (number : Z) (asg : assignments)
    (times : list (option time)) (name : string) (lanes : list nat) :
  forall cs cs',
    update_lanes number asg times lanes cs = (cs', None) ->
    dict_get String.eqb name cs'
    = option_map
        (record_all number (flat_map (lane_finish name asg times) lanes))
        (dict_get String.eqb name cs).
Proof.
  induction lanes as [|lane rest IH]; intros cs cs' H.
  - simpl in H. injection H as <-. simpl.
    destruct (dict_get String.eqb name cs); reflexivity.
  - simpl in H.
    destruct (update_lane number asg times lane cs) as [cs1 [e|]] eqn:E;
      [discriminate|].
    rewrite (IH _ _ H). cbn [flat_map].
    assert (Hone :
      dict_get String.eqb name cs1
      = option_map (record_all number (lane_finish name asg times lane))
                   (dict_get String.eqb name cs)).
    { clear IH H. unfold update_lane in E. unfold lane_finish.
      destruct (dict_get Nat.eqb lane asg) as [c|].
      2:{ injection E as <-. destruct (dict_get String.eqb name cs); reflexivity. }
      destruct (nth_error times (lane - 1)) as [[t|]|].
      2:{ injection E as <-. destruct (dict_get String.eqb name cs); reflexivity. }
      2:{ discriminate. }
      destruct (dict_get String.eqb c cs) as [s|] eqn:Ec; [|discriminate].
      injection E as <-.
      destruct (String.eqb_spec c name) as [->|Hne].
      - rewrite dict_get_set_same by exact String.eqb_spec.
        rewrite Ec. reflexivity.
      - rewrite dict_get_set_other by (exact String.eqb_spec || congruence).
        destruct (dict_get String.eqb name cs); reflexivity. }
    rewrite Hone. destruct (dict_get String.eqb name cs); simpl;
      [|reflexivity].
    unfold record_all. rewrite fold_left_app. reflexivity.
Qed.

(** With every assigned name registered and a slot for every lane, the loop
    raises nothing. *)
Lemma update_lanes_completes (number : Z) (asg : assignments)
    (times : list (option time)) (lanes : list nat) :
  (forall lane, In lane lanes -> lane - 1 < length times) ->
  forall cs,
    (forall lane name, In (lane, name) asg ->
                       dict_mem String.eqb name cs = true) ->
    snd (update_lanes number asg times lanes cs) = None.
Proof.
  intros Hlen. induction lanes as [|lane rest IH]; intros cs Hreg;
    [reflexivity|].
  simpl.
  pose proof (update_lane_keys number asg times lane cs) as Hk.
  assert (He : snd (update_lane number asg times lane cs) = None).
  { unfold update_lane.
    destruct (dict_get Nat.eqb lane asg) as [c|] eqn:Ea; [|reflexivity].
    assert (Hl : lane - 1 < length times) by (apply Hlen; left; reflexivity).
    apply nth_error_Some in Hl.
    destruct (nth_error times (lane - 1)) as [[t|]|]; try reflexivity;
      [|congruence].
    apply (@dict_get_in _ _ Nat.eqb Nat.eqb_spec) in Ea. specialize (Hreg _ _ Ea).
    unfold dict_mem in Hreg.
    destruct (dict_get String.eqb c cs); [reflexivity|discriminate]. }
  destruct (update_lane number asg times lane cs) as [cs' [e|]];
    simpl in *; [discriminate|].
  apply IH.
  - intros l Hl. apply Hlen. right. exact Hl.
  - intros l n Hin. rewrite (@dict_mem_keys _ _ String.eqb n _ _ Hk). eauto.
Qed.

(** The update writes the ledger field alone. *)
Lemma update_competitor_stats_fields (times : list (option time))
    (st : state) :
  current_heat_assignments (fst (update_competitor_stats times st))
  = current_heat_assignments st
  /\ heat_number (fst (update_competitor_stats times st)) = heat_number st
  /\ heats_file (fst (update_competitor_stats times st)) = heats_file st
  /\ standings_file (fst (update_competitor_stats times st))
     = standings_file st.
Proof.
  unfold update_competitor_stats.
  destruct (update_lanes (heat_number st) (current_heat_assignments st) times
              [1; 2; 3; 4] (competitors st)).
  simpl. auto.
Qed.

(** C10.  The statistics update changes the ledger entries of no competitor
    other than those assigned to a lane whose slot holds a time; the
    registered names and their order, the lane assignments, the heat number
    and the two files are as before.  This holds whether or not the update
    ends with an exception. *)
Theorem update_competitor_stats_frame (times : list (option time))
    (st : state) :
  let st' := fst (update_competitor_stats times st) in
  dict_keys (competitors st') = dict_keys (competitors st)
  /\ current_heat_assignments st' = current_heat_assignments st
  /\ heat_number st' = heat_number st
  /\ heats_file st' = heats_file st
  /\ standings_file st' = standings_file st
  /\ forall name,
       (forall lane t,
          In lane [1; 2; 3; 4] ->
          dict_get Nat.eqb lane (current_heat_assignments st) = Some name ->
          nth_error times (lane - 1) <> Some (Some t)) ->
       dict_get String.eqb name (competitors st')
       = dict_get String.eqb name (competitors st).
Proof.
  unfold update_competitor_stats.
  pose proof (update_lanes_keys (heat_number st) (current_heat_assignments st)
                times [1; 2; 3; 4] (competitors st)) as Hk.
  pose proof (fun name =>
                @update_lanes_other (heat_number st)
                  (current_heat_assignments st) times name [1; 2; 3; 4]
                  (competitors st)) as Ho.
  destruct (update_lanes (heat_number st) (current_heat_assignments st) times
              [1; 2; 3; 4] (competitors st)) as [cs e].
  simpl in *. repeat split; try assumption.
  intros name Hfree. apply Ho.
  assert (Hl : forall lane, In lane [1; 2; 3; 4] ->
                 lane_finish name (current_heat_assignments st) times lane
                 = []).
  { intros lane Hin. unfold lane_finish.
    destruct (dict_get Nat.eqb lane (current_heat_assignments st))
      as [c|] eqn:Ea; [|reflexivity].
    destruct (nth_error times (lane - 1)) as [[t|]|] eqn:En; try reflexivity.
    destruct (String.eqb_spec c name) as [->|]; [|reflexivity].
    exfalso. exact (Hfree lane t Hin Ea En). }
  rewrite !Hl by (simpl; tauto). reflexivity.
Qed.

Lemma update_competitor_stats_frame_witness :
  dict_get String.eqb "Bob"
    (competitors
       (fst (update_competitor_stats [Some 12345%Z; None; None; None]
                                     sample_state)))
  = dict_get String.eqb "Bob" (competitors sample_state).
Proof.
  apply (update_competitor_stats_frame [Some 12345%Z; None; None; None]
                                       sample_state).
  intros lane t [<-|[<-|[<-|[<-|[]]]]] Ha; vm_compute in Ha; discriminate.
Defined.

(** ** Competitor ledger: a session *)

Lemma record_all_stats_after (number : Z) (fs : list (nat * time)) :
  forall s,
    record_all number fs s = stats_after s (map (finish_record number) fs).
Proof.
  unfold record_all, stats_after.
  induction fs as [|[l t] fs IH]; intros s.
  - destruct s. simpl. rewrite !app_nil_r, Nat.add_0_r. reflexivity.
  - simpl. rewrite IH. simpl. rewrite <- !app_assoc. simpl.
    f_equal. lia.
Qed.

Lemma stats_after_app (s0 : stats) (r1 r2 : list heat_record) :
  stats_after (stats_after s0 r1) r2 = stats_after s0 (r1 ++ r2).
Proof.
  unfold stats_after. simpl.
  rewrite map_app, !fold_left_app, length_app, !app_assoc. f_equal. lia.
Qed.

Lemma stats_after_nil (s0 : stats) : stats_after s0 [] = s0.
Proof.
  destruct s0. unfold stats_after. simpl.
  rewrite !app_nil_r, Nat.add_0_r. reflexivity.
Qed.

Lemma fold_best_some (ts : list time) :
  forall b, fold_left best_step ts (Some b) = Some (fold_left Z.min ts b).
Proof.
  induction ts as [|t ts IH]; intros b; simpl; [reflexivity|].
  destruct (Z.ltb_spec t b).
  - rewrite IH. rewrite (Z.min_r b t) by lia. reflexivity.
  - rewrite IH. rewrite (Z.min_l b t) by lia. reflexivity.
Qed.

Lemma fold_best_min (ts : list time) (b : option time) :
  fold_left best_step ts b = min_time (option_list b ++ ts).
Proof.
  destruct b as [b|]; simpl.
  - apply fold_best_some.
  - destruct ts as [|t ts]; simpl; [reflexivity|apply fold_best_some].
Qed.

Lemma competitors_save_standings (st : state) :
  competitors (save_standings st) = competitors st
  /\ heat_number (save_standings st) = heat_number st.
Proof.
  unfold save_standings.
  destruct (standings_rows 1 (sorted_competitors (competitors st))).
  split; reflexivity.
Qed.

Lemma competitors_log_heat_results (ts : string) (times : list (option time))
    (w : option nat) (st : state) :
  competitors (log_heat_results ts times w st) = competitors st
  /\ heat_number (log_heat_results ts times w st) = heat_number st.
Proof.
  unfold log_heat_results. destruct (heat_row _ _ _ _ _); split; reflexivity.
Qed.

Lemma competitors_save_heat_results (ts : string)
    (times : list (option time)) (w : option nat) (st : state) :
  competitors (save_heat_results ts times w st) = competitors st
  /\ heat_number (save_heat_results ts times w st) = heat_number st.
Proof.
  unfold save_heat_results. destruct (heat_row _ _ _ _ _); split; reflexivity.
Qed.

(** One heat of either front end, on well-formed input: it raises nothing,
    keeps the registered names, and records the competitor's finishes under
    the heat number it started with. *)
Lemma run_heat_stats (fe : front_end) (h : heat_input) (st : state)
    (name : string) (s0 : stats) :
  heat_ok (competitors st) h ->
  dict_get String.eqb name (competitors st) = Some s0 ->
  exists st',
    run_heat fe h st = (st', None)
    /\ dict_keys (competitors st') = dict_keys (competitors st)
    /\ heat_number st'
       = (if heat_runs fe h then heat_number st + 1
          else heat_number st)%Z
    /\ dict_get String.eqb name (competitors st')
       = Some (if heat_runs fe h
               then stats_after s0
                      (map (finish_record (heat_number st))
                           (heat_finishes name (hi_assignments h)
                                          (hi_times h)))
               else s0).
Proof.
  intros [Hlen Hreg] Hget.
  destruct (heat_runs fe h) eqn:Hrun.
  2:{ exists (set_assignments (hi_assignments h) st).
      repeat split; try reflexivity; [|exact Hget].
      unfold run_heat, heat_runs in *.
      destruct fe; [rewrite Hrun; reflexivity|].
      destruct (hi_assignments h); [reflexivity|].
      simpl in Hrun. rewrite Hrun. reflexivity. }
  assert (Hany : any_present (hi_times h) = true).
  { unfold heat_runs in Hrun. destruct fe; [exact Hrun|].
    apply andb_true_iff in Hrun. tauto. }
  assert (Hupd :
    exists cs,
      update_competitor_stats (hi_times h)
        (set_assignments (hi_assignments h) st)
      = (set_competitors cs (set_assignments (hi_assignments h) st), None)
      /\ dict_keys cs = dict_keys (competitors st)
      /\ dict_get String.eqb name cs
         = Some (stats_after s0
                   (map (finish_record (heat_number st))
                        (heat_finishes name (hi_assignments h)
                                       (hi_times h))))).
  { unfold update_competitor_stats.
    cbn [set_assignments heat_number current_heat_assignments competitors].
    pose proof (@update_lanes_completes (heat_number st) (hi_assignments h)
                  (hi_times h) [1; 2; 3; 4]) as Hc.
    pose proof (update_lanes_keys (heat_number st) (hi_assignments h)
                  (hi_times h) [1; 2; 3; 4] (competitors st)) as Hk.
    pose proof (@update_lanes_get (heat_number st) (hi_assignments h)
                  (hi_times h) name [1; 2; 3; 4] (competitors st)) as Hg.
    specialize (Hc ltac:(intros l [<-|[<-|[<-|[<-|[]]]]]; rewrite Hlen; lia)
                   (competitors st) Hreg).
    destruct (update_lanes (heat_number st) (hi_assignments h) (hi_times h)
                [1; 2; 3; 4] (competitors st)) as [cs e].
    simpl in Hc, Hk. subst e. exists cs. repeat split; [exact Hk|].
    rewrite (Hg cs eq_refl), Hget. simpl.
    rewrite record_all_stats_after. reflexivity. }
  destruct Hupd as (cs & Hupd & Hk & Hg).
  assert (Hd : display_heat_results (hi_times h)
               = (option_map fst (find_winner (hi_times h)), None)).
  { unfold display_heat_results. rewrite Hlen. reflexivity. }
  assert (Hgo :
    run_heat fe h st
    = match fe with
      | Console => logger_heat (hi_timestamp h) (hi_times h)
                     (set_assignments (hi_assignments h) st)
      | Gui => process_race_results (hi_timestamp h) (hi_times h)
                 (set_assignments (hi_assignments h) st)
      end).
  { unfold run_heat. rewrite Hany. destruct fe; [reflexivity|].
    revert Hrun. unfold heat_runs.
    destruct (hi_assignments h); [discriminate|reflexivity]. }
  rewrite Hgo. clear Hgo Hrun. destruct fe.
  - unfold logger_heat. rewrite Hd, Hupd.
    eexists. split; [reflexivity|]. simpl.
    destruct (competitors_save_standings
                (log_heat_results (hi_timestamp h) (hi_times h)
                   (option_map fst (find_winner (hi_times h)))
                   (set_competitors cs
                      (set_assignments (hi_assignments h) st))))
      as [-> ->].
    destruct (competitors_log_heat_results (hi_timestamp h) (hi_times h)
                (option_map fst (find_winner (hi_times h)))
                (set_competitors cs
                   (set_assignments (hi_assignments h) st)))
      as [-> ->].
    simpl. auto.
  - unfold process_race_results. rewrite Hd, Hupd.
    eexists. split; [reflexivity|]. simpl.
    destruct (competitors_save_standings
                (save_heat_results (hi_timestamp h) (hi_times h)
                   (option_map fst (find_winner (hi_times h)))
                   (set_competitors cs
                      (set_assignments (hi_assignments h) st))))
      as [-> ->].
    destruct (competitors_save_heat_results (hi_timestamp h) (hi_times h)
                (option_map fst (find_winner (hi_times h)))
                (set_competitors cs
                   (set_assignments (hi_assignments h) st)))
      as [-> ->].
    simpl. auto.
Qed.

Lemma heat_ok_keys (cs cs' : ledger) (h : heat_input) :
  dict_keys cs' = dict_keys cs -> heat_ok cs h -> heat_ok cs' h.
Proof.
  intros Hk [Hlen Hreg]. split; [exact Hlen|].
  intros lane name Hin.
  rewrite (@dict_mem_keys _ _ String.eqb name _ _ Hk). eauto.
Qed.

Lemma run_heats_stats (fe : front_end) (hs : list heat_input)
    (name : string) :
  forall st s0,
    Forall (heat_ok (competitors st)) hs ->
    dict_get String.eqb name (competitors st) = Some s0 ->
    exists st',
      run_heats fe hs st = (st', None)
      /\ dict_get String.eqb name (competitors st')
         = Some (stats_after s0 (session_finishes fe name (heat_number st) hs)).
Proof.
  induction hs as [|h hs IH]; intros st s0 Hok Hget.
  - exists st. simpl. rewrite stats_after_nil. auto.
  - inversion Hok as [|? ? Hh Hrest]; subst.
    destruct (@run_heat_stats fe h st name s0 Hh Hget)
      as (st1 & Hrun & Hk & Hn & Hg).
    assert (Hok1 : Forall (heat_ok (competitors st1)) hs).
    { eapply Forall_impl; [|exact Hrest].
      intros h0. apply heat_ok_keys. exact Hk. }
    destruct (IH st1 _ Hok1 Hg) as (st' & Hrun' & Hg').
    exists st'. simpl. rewrite Hrun. split; [exact Hrun'|].
    rewrite Hg', Hn. destruct (heat_runs fe h).
    + rewrite stats_after_app. reflexivity.
    + reflexivity.
Qed.

(** *** The invariant of the records *)

Lemma min_time_app (a b : list time) :
  min_time (a ++ b) = fold_left best_step b (min_time a).
Proof.
  transitivity (fold_left best_step (a ++ b) None).
  - symmetry. exact (fold_best_min (a ++ b) None).
  - rewrite fold_left_app. f_equal. exact (fold_best_min a None).
Qed.

Lemma stats_after_ok (s0 : stats) (rs : list heat_record) :
  stats_ok s0 -> stats_ok (stats_after s0 rs).
Proof.
  intros (H1 & H2 & H3). unfold stats_ok, stats_after. simpl.
  rewrite map_app, length_app, min_time_app, H1, H2, H3.
  auto.
Qed.

Lemma record_time_ok (number : Z) (lane : nat) (t : time) (s : stats) :
  stats_ok s -> stats_ok (record_time number lane t s).
Proof.
  intros H.
  change (record_time number lane t s)
    with (record_all number [(lane, t)] s).
  rewrite record_all_stats_after. apply stats_after_ok. exact H.
Qed.

Lemma dict_set_stats_ok (k : string) (v : stats) (cs : ledger) :
  Forall (fun item => stats_ok (snd item)) cs -> stats_ok v ->
  Forall (fun item => stats_ok (snd item)) (dict_set String.eqb k v cs).
Proof.
  intros Hcs Hv. induction Hcs as [|[k' v'] cs Hx Hcs IH]; simpl.
  - constructor; [exact Hv|constructor].
  - destruct (String.eqb k k'); constructor; assumption.
Qed.

Lemma dict_get_stats_ok (k : string) (s : stats) (cs : ledger) :
  Forall (fun item => stats_ok (snd item)) cs ->
  dict_get String.eqb k cs = Some s -> stats_ok s.
Proof.
  intros Hcs Hg. apply (@dict_get_in _ _ String.eqb String.eqb_spec) in Hg.
  rewrite Forall_forall in Hcs. exact (Hcs _ Hg).
Qed.

(** The lane loop keeps the invariant, whether or not it ends with an
    exception. *)
Lemma update_lanes_stats_ok (number : Z) (asg : assignments)
    (times : list (option time)) (lanes : list nat) :
  forall cs,
    Forall (fun item => stats_ok (snd item)) cs ->
    Forall (fun item => stats_ok (snd item))
           (fst (update_lanes number asg times lanes cs)).
Proof.
  induction lanes as [|lane rest IH]; intros cs Hcs; [exact Hcs|].
  cbn [update_lanes].
  assert (H1 : Forall (fun item => stats_ok (snd item))
                 (fst (update_lane number asg times lane cs))).
  { unfold update_lane.
    destruct (dict_get Nat.eqb lane asg) as [c|]; [|exact Hcs].
    destruct (nth_error times (lane - 1)) as [[t|]|]; try exact Hcs.
    destruct (dict_get String.eqb c cs) as [s|] eqn:E; [|exact Hcs].
    simpl. apply dict_set_stats_ok; [exact Hcs|].
    apply record_time_ok. exact (dict_get_stats_ok _ Hcs E). }
  destruct (update_lane number asg times lane cs) as [cs' [e|]];
    simpl in *; auto.
Qed.

(** The ledger after one input is the ledger before it, or the ledger the
    lane loop reached. *)
Lemma run_heat_competitors (fe : front_end) (h : heat_input) (st : state) :
  competitors (fst (run_heat fe h st)) = competitors st
  \/ competitors (fst (run_heat fe h st))
     = fst (update_lanes (heat_number st) (hi_assignments h) (hi_times h)
                         [1; 2; 3; 4] (competitors st)).
Proof.
  assert (Hc : forall timestamp,
    (competitors (fst (logger_heat timestamp (hi_times h)
                         (set_assignments (hi_assignments h) st)))
     = competitors st
     \/ competitors (fst (logger_heat timestamp (hi_times h)
                            (set_assignments (hi_assignments h) st)))
        = fst (update_lanes (heat_number st) (hi_assignments h) (hi_times h)
                            [1; 2; 3; 4] (competitors st)))
    /\ (competitors (fst (process_race_results timestamp (hi_times h)
                            (set_assignments (hi_assignments h) st)))
        = competitors st
        \/ competitors (fst (process_race_results timestamp (hi_times h)
                               (set_assignments (hi_assignments h) st)))
           = fst (update_lanes (heat_number st) (hi_assignments h)
                               (hi_times h) [1; 2; 3; 4] (competitors st)))).
  { intros timestamp.
    unfold logger_heat, process_race_results, display_heat_results.
    destruct (length (hi_times h) <? 4); [split; left; reflexivity|].
    unfold update_competitor_stats.
    cbn [set_assignments heat_number current_heat_assignments competitors].
    destruct (update_lanes (heat_number st) (hi_assignments h) (hi_times h)
                [1; 2; 3; 4] (competitors st)) as [cs [e|]];
      [split; right; reflexivity|].
    split; right; cbn [fst snd set_heat_number competitors].
    - rewrite (proj1 (competitors_save_standings _)).
      rewrite (proj1 (competitors_log_heat_results _ _ _ _)). reflexivity.
    - rewrite (proj1 (competitors_save_standings _)).
      rewrite (proj1 (competitors_save_heat_results _ _ _ _)). reflexivity. }
  unfold run_heat. destruct fe.
  - destruct (any_present (hi_times h)); [|left; reflexivity].
    exact (proj1 (Hc _)).
  - destruct (hi_assignments h) as [|a asg] eqn:E; [left; reflexivity|].
    destruct (any_present (hi_times h)); [|left; reflexivity].
    exact (proj2 (Hc _)).
Qed.

Lemma run_heats_stats_ok (fe : front_end) (hs : list heat_input) :
  forall st,
    Forall (fun item => stats_ok (snd item)) (competitors st) ->
    Forall (fun item => stats_ok (snd item))
           (competitors (fst (run_heats fe hs st))).
Proof.
  induction hs as [|h hs IH]; intros st Hst; [exact Hst|].
  cbn [run_heats].
  assert (H1 : Forall (fun item => stats_ok (snd item))
                 (competitors (fst (run_heat fe h st)))).
  { destruct (run_heat_competitors fe h st) as [->| ->]; [exact Hst|].
    apply update_lanes_stats_ok. exact Hst. }
  destruct (run_heat fe h st) as [st' [e|]]; simpl in *; auto.
Qed.

(** C4, as the code has it.  Whatever the heats and however the session
    ends, every competitor record keeps [races_count = len(heats)],
    [best_time = min] of the recorded times (absent without one) and
    [total_time] the accumulation of the recorded times in their order.  On
    heats that run to completion (four slots, every assigned name
    registered) either front end runs the whole session without an
    exception, and then a competitor's heat records are those it had
    followed by one record per lane that was assigned to it and held a time,
    in heat and lane order; [races_count] has grown by their number,
    [total_time] has had their times added one after the other in this
    order, and [best_time] is the minimum of the earlier best time and the
    new times.  A competitor whose assigned lanes all came without a time
    keeps its statistics unchanged. *)
Theorem ledger_statistics_after_heats (fe : front_end)
    (hs : list heat_input) (st : state) (name : string) (s0 : stats) :
  (Forall (fun item => stats_ok (snd item)) (competitors st) ->
   Forall (fun item => stats_ok (snd item))
          (competitors (fst (run_heats fe hs st))))
  /\ (Forall (heat_ok (competitors st)) hs ->
      dict_get String.eqb name (competitors st) = Some s0 ->
      exists st' s,
        run_heats fe hs st = (st', None)
        /\ dict_get String.eqb name (competitors st') = Some s
        /\ heats s = heats s0 ++ session_finishes fe name (heat_number st) hs
        /\ races_count s
           = races_count s0
             + length (session_finishes fe name (heat_number st) hs)
        /\ total_time s
           = total_time s0
             ++ map hr_time (session_finishes fe name (heat_number st) hs)
        /\ best_time s
           = min_time (option_list (best_time s0)
                       ++ map hr_time
                            (session_finishes fe name (heat_number st) hs))
        /\ (s0 = fresh_stats ->
            races_count s = length (heats s)
            /\ map hr_time (heats s)
               = map hr_time (session_finishes fe name (heat_number st) hs)
            /\ best_time s = min_time (map hr_time (heats s))
            /\ total_time s = map hr_time (heats s))
        /\ (session_finishes fe name (heat_number st) hs = [] -> s = s0)).
Proof.
  split; [apply run_heats_stats_ok|].
  intros Hok Hget.
  destruct (@run_heats_stats fe hs name st s0 Hok Hget) as (st' & Hrun & Hg).
  exists st', (stats_after s0 (session_finishes fe name (heat_number st) hs)).
  split; [exact Hrun|]. split; [exact Hg|].
  unfold stats_after at 1 2 3 4. simpl.
  split; [reflexivity|]. split; [reflexivity|].
  split; [reflexivity|]. split; [apply fold_best_min|].
  split.
  - intros ->. simpl. rewrite fold_best_min. simpl.
    repeat split; reflexivity.
  - intros ->. apply stats_after_nil.
Qed.

Lemma ledger_statistics_after_heats_witness :
  Forall (fun item => stats_ok (snd item))
         (competitors (fst (run_heats Gui [sample_heat] sample_state)))
  /\ exists st' s,
       run_heats Gui [sample_heat] sample_state = (st', None)
       /\ dict_get String.eqb "Bob" (competitors st') = Some s
       /\ heats s = [{| hr_heat := 1%Z; hr_lane := 2; hr_time := 11111%Z |}]
       /\ races_count s = 1
       /\ total_time s = [11111%Z]
       /\ best_time s = Some 11111%Z.
Proof.
  destruct (@ledger_statistics_after_heats Gui [sample_heat] sample_state
              "Bob" fresh_stats) as [HA HB].
  split.
  - apply HA. repeat constructor.
  - destruct HB as (st' & s & H1 & H2 & H3 & H4 & H5 & H6 & _).
    + repeat constructor.
      intros lane name [H|[H|[]]]; inversion H; reflexivity.
    + reflexivity.
    + exists st', s. repeat split; assumption.
Defined.

(** Without the condition the accounting fails in the GUI.  Ghost is chosen for
    lane 1 and Alice for lane 2; Ghost is then removed on the setup tab,
    which leaves the comboboxes as they are.  The heat's line gives both
    lanes a time: the update raises [KeyError] at lane 1 and Alice, who
    finished in 2.9876 s, keeps an empty record. *)
Lemma ledger_statistics_lost_after_key_error :
  let g := fold_left setup_step
             [ClickAdd (txt "Ghost"); ClickAdd (txt "Alice");
              ClickRemove [0] true] initial_setup_tab in
  let cb := [(1, "Ghost"); (2, "Alice"); (3, EMPTY_CHOICE);
             (4, EMPTY_CHOICE)] in
  let listening := start_listening cb true (tab_state g) in
  let h := {| hi_assignments := current_heat_assignments (fst listening);
              hi_times := parse_timer_data (txt "3.1234 2.9876");
              hi_timestamp := "2024-01-01 10:00:00" |} in
  dict_keys (competitors (tab_state g)) = ["Alice"]
  /\ snd listening = true
  /\ session_finishes Gui "Alice" (heat_number (tab_state g)) [h]
     = [{| hr_heat := 1%Z; hr_lane := 2; hr_time := 29876%Z |}]
  /\ snd (run_heats Gui [h] (tab_state g)) = Some KeyError
  /\ dict_get String.eqb "Alice"
                (competitors (fst (run_heats Gui [h] (tab_state g))))
     = Some fresh_stats.
Proof. vm_compute. repeat split; reflexivity. Qed.

(** ** Digits and the pattern *)

Lemma digit_not_dot (c : ascii) : is_digit c = true -> is_dot c = false.
Proof.
  unfold is_digit, is_dot. intros H.
  destruct (Ascii.eqb_spec c DOT) as [->|]; [|reflexivity].
  vm_compute in H. discriminate.
Qed.

Lemma dot_is_dot : is_dot DOT = true.
Proof. reflexivity. Qed.

Lemma is_dot_eq (c : ascii) : is_dot c = true -> c = DOT.
Proof. unfold is_dot. apply Ascii.eqb_eq. Qed.

Lemma span_digits_spec (s : text) :
  s = fst (span_digits s) ++ snd (span_digits s)
  /\ forallb is_digit (fst (span_digits s)) = true
  /\ no_digit_ahead (snd (span_digits s)).
Proof.
  induction s as [|c s IH]; simpl; [auto|].
  destruct (is_digit c) eqn:E.
  - destruct (span_digits s) as [a b]. simpl in *.
    destruct IH as (H1 & H2 & H3). rewrite E, H2. subst s. auto.
  - simpl. auto.
Qed.

Lemma span_digits_app (a b : text) :
  forallb is_digit a = true -> no_digit_ahead b ->
  span_digits (a ++ b) = (a, b).
Proof.
  induction a as [|c a IH]; simpl; intros Ha Hb.
  - destruct b as [|c b]; [reflexivity|]. simpl in *. rewrite Hb. reflexivity.
  - apply andb_true_iff in Ha. destruct Ha as [Hc Ha].
    rewrite Hc, IH by assumption. reflexivity.
Qed.

Lemma span_digits_app_digits (a x : text) :
  forallb is_digit a = true ->
  span_digits (a ++ x) = (a ++ fst (span_digits x), snd (span_digits x)).
Proof.
  induction a as [|c a IH]; simpl; intros Ha.
  - destruct (span_digits x); reflexivity.
  - apply andb_true_iff in Ha. destruct Ha as [Hc Ha].
    rewrite Hc, IH by assumption. reflexivity.
Qed.

(** [\d{n}] at the start of [r]. *)
Lemma rep_class_some (n : nat) :
  forall r r',
    rep_class n is_digit r Some = Some r'
    <-> exists d, r = d ++ r' /\ forallb is_digit d = true /\ length d = n.
Proof.
  induction n as [|n IH]; intros r r'; simpl.
  - split.
    + intros H. injection H as <-. exists []. auto.
    + intros (d & -> & _ & Hl). destruct d; [reflexivity|discriminate].
  - destruct r as [|c r].
    + split; [discriminate|]. intros (d & H & _ & Hl).
      destruct d; discriminate.
    + destruct (is_digit c) eqn:E.
      * rewrite IH. split.
        -- intros (d & -> & Hd & Hl). exists (c :: d). simpl.
           rewrite E, Hd, Hl. auto.
        -- intros (d & H & Hd & Hl). destruct d as [|c' d]; [discriminate|].
           simpl in *. injection H as <- ->. injection Hl as Hl.
           apply andb_true_iff in Hd. exists d. tauto.
      * split; [discriminate|]. intros (d & H & Hd & Hl).
        destruct d as [|c' d]; [discriminate|]. simpl in *.
        injection H as <- ->. rewrite E in Hd. discriminate.
Qed.

Lemma rep_class_no_digit (n : nat) (r : text) :
  no_digit_ahead r -> rep_class (S n) is_digit r Some = None.
Proof.
  destruct r as [|c r]; simpl; [reflexivity|]. intros ->. reflexivity.
Qed.

(** After a run that stopped, only a point and four digits can follow. *)
Lemma after_run_no_digit (rest : text) :
  no_digit_ahead rest ->
  after_run rest
  = match rest with
    | c :: r => if is_dot c then rep_class 4 is_digit r Some else None
    | [] => None
    end.
Proof.
  intros H. unfold after_run. cbn [rmatch].
  destruct rest as [|c r]; [reflexivity|].
  rewrite (rep_class_no_digit 3 (c :: r) H).
  destruct (is_dot c); [|reflexivity].
  destruct (rep_class 4 is_digit r Some); reflexivity.
Qed.

(** Inside the run the point is not there, so four digits must follow. *)
Lemma after_run_digits (d rest : text) :
  d <> [] -> forallb is_digit d = true -> no_digit_ahead rest ->
  length d <= 4 ->
  after_run (d ++ rest) = if length d =? 4 then Some rest else None.
Proof.
  intros Hne Hd Hrest Hlen. unfold after_run. cbn [rmatch].
  destruct d as [|c d]; [congruence|]. cbn [app].
  simpl in Hd. apply andb_true_iff in Hd. destruct Hd as [Hc Hd].
  rewrite (digit_not_dot c Hc).
  change (c :: d ++ rest) with ((c :: d) ++ rest).
  assert (Hd' : forallb is_digit (c :: d) = true) by (simpl; rewrite Hc; auto).
  destruct (Nat.eqb_spec (length (c :: d)) 4) as [E|E].
  - apply rep_class_some. exists (c :: d). auto.
  - destruct (rep_class 4 is_digit ((c :: d) ++ rest) Some) as [r'|] eqn:R;
      [|reflexivity].
    exfalso. apply rep_class_some in R. destruct R as (d' & H & Hd'' & Hl).
    assert (Hs : span_digits ((c :: d) ++ rest) = (c :: d, rest))
      by (apply span_digits_app; assumption).
    rewrite H, span_digits_app_digits in Hs by assumption.
    injection Hs as Hs _.
    apply (f_equal (@length ascii)) in Hs. rewrite length_app in Hs. lia.
Qed.

Lemma plus_class_try_back (k : text -> option text) (ds rest : text) :
  forallb is_digit ds = true -> no_digit_ahead rest ->
  plus_class is_digit (ds ++ rest) k = try_back k ds rest.
Proof.
  intros Hd Hr. induction ds as [|c ds IH]; simpl.
  - destruct rest as [|c r]; simpl in *; [reflexivity|]. rewrite Hr.
    reflexivity.
  - simpl in Hd. apply andb_true_iff in Hd. destruct Hd as [Hc Hd].
    rewrite Hc, IH by assumption. reflexivity.
Qed.

Lemma try_back_after_run (ds rest : text) :
  ds <> [] -> forallb is_digit ds = true -> no_digit_ahead rest ->
  try_back after_run ds rest
  = match after_run rest with
    | Some r => Some r
    | None => if 5 <=? length ds then Some rest else None
    end.
Proof.
  intros Hne Hd Hr. induction ds as [|c ds IH]; [congruence|].
  simpl in Hd. apply andb_true_iff in Hd. destruct Hd as [Hc Hd].
  cbn [try_back]. destruct ds as [|c' ds].
  - simpl. destruct (after_run rest); reflexivity.
  - rewrite IH by (congruence || assumption).
    destruct (after_run rest) as [r|]; [reflexivity|].
    destruct (Nat.leb_spec 5 (length (c' :: ds))) as [H5|H5].
    + destruct (Nat.leb_spec 5 (length (c :: c' :: ds))); [reflexivity|].
      simpl in *. lia.
    + rewrite after_run_digits by (congruence || assumption || lia).
      simpl length in *.
      destruct (Nat.eqb_spec (S (length ds)) 4);
        destruct (Nat.leb_spec 5 (S (S (length ds)))); try reflexivity; lia.
Qed.

(** The matcher on the time pattern, from the digit run at the start. *)
Lemma match_at_time_pattern (s : text) :
  match_at time_pattern s
  = match fst (span_digits s) with
    | [] => None
    | _ :: _ =>
        match after_run (snd (span_digits s)) with
        | Some r => Some r
        | None =>
            if 5 <=? length (fst (span_digits s))
            then Some (snd (span_digits s)) else None
        end
    end.
Proof.
  destruct (span_digits_spec s) as (Hs & Hd & Hr).
  unfold match_at, time_pattern. cbn [rmatch].
  change (fun s1 => rmatch (Opt (Class is_dot)) s1
                      (fun s2 => rep_class 4 is_digit s2 Some))
    with after_run.
  rewrite Hs at 1. rewrite plus_class_try_back by assumption.
  destruct (fst (span_digits s)) as [|c ds] eqn:E; [reflexivity|].
  apply try_back_after_run; [congruence|assumption|assumption].
Qed.

(** A stretch of the form at the start of [s] either ends the digit run
    with a point and four digits, or lies within the digit run. *)
Lemma shape_prefix_cases (s m : text) :
  token_shape m -> is_prefix m s ->
  (exists d4 x,
      m = fst (span_digits s) ++ DOT :: d4
      /\ snd (span_digits s) = DOT :: d4 ++ x
      /\ forallb is_digit d4 = true /\ length d4 = 4
      /\ fst (span_digits s) <> [])
  \/ (forallb is_digit m = true
      /\ 5 <= length m <= length (fst (span_digits s))).
Proof.
  intros Hm [x ->]. destruct Hm as [ds d4 Hne Hds Hd4 Hl|ds d4 Hne Hds Hd4 Hl].
  - right.
    assert (Hall : forallb is_digit (ds ++ d4) = true)
      by (rewrite forallb_app, Hds, Hd4; reflexivity).
    rewrite span_digits_app_digits by exact Hall. simpl.
    rewrite !length_app, Hl. destruct ds; [congruence|]. simpl.
    split; [exact Hall|]. lia.
  - left. rewrite <- app_assoc. cbn [app].
    rewrite span_digits_app; [|exact Hds|reflexivity]. simpl.
    exists d4, x. auto.
Qed.

Lemma after_run_point (d4 x : text) :
  forallb is_digit d4 = true -> length d4 = 4 ->
  after_run (DOT :: d4 ++ x) = Some x.
Proof.
  intros Hd Hl. rewrite after_run_no_digit by reflexivity.
  rewrite dot_is_dot. apply rep_class_some. exists d4. auto.
Qed.

(** A match is the longest stretch of the form at that place. *)
Lemma match_at_some (s r : text) :
  match_at time_pattern s = Some r ->
  exists m, s = m ++ r /\ longest_at s m.
Proof.
  rewrite match_at_time_pattern.
  destruct (span_digits_spec s) as (Hs & Hd & Hr).
  destruct (fst (span_digits s)) as [|c ds] eqn:E; [discriminate|].
  destruct (after_run (snd (span_digits s))) as [r'|] eqn:A.
  - intros H. injection H as ->.
    rewrite after_run_no_digit in A by exact Hr.
    destruct (snd (span_digits s)) as [|c0 r0] eqn:E2; [discriminate|].
    destruct (is_dot c0) eqn:Hc0; [|discriminate].
    apply is_dot_eq in Hc0. subst c0.
    apply rep_class_some in A. destruct A as (d4 & -> & Hd4 & Hl).
    exists ((c :: ds) ++ DOT :: d4). split.
    { rewrite Hs, <- app_assoc. reflexivity. }
    split; [constructor; (congruence || assumption)|].
    split; [exists r; rewrite Hs, <- app_assoc; reflexivity|].
    intros m' Hm' Hp'.
    destruct (shape_prefix_cases Hm' Hp') as
      [(d4' & x & -> & _ & _ & Hl' & _)|(_ & _ & Hle)].
    + rewrite E, !length_app. simpl. lia.
    + rewrite E in Hle. rewrite length_app. lia.
  - destruct (Nat.leb_spec 5 (length (c :: ds))) as [H5|H5]; [|discriminate].
    intros H. injection H as <-.
    exists (c :: ds). split; [exact Hs|].
    split.
    { rewrite <- (firstn_skipn (length (c :: ds) - 4) (c :: ds)).
      rewrite <- (firstn_skipn (length (c :: ds) - 4) (c :: ds)) in Hd.
      rewrite forallb_app in Hd. apply andb_true_iff in Hd.
      destruct Hd as [Hd1 Hd2].
      constructor; try assumption.
      - intros H0. apply (f_equal (@length ascii)) in H0.
        rewrite length_firstn in H0. simpl in *. lia.
      - rewrite length_skipn. lia. }
    split; [exists (snd (span_digits s)); exact Hs|].
    intros m' Hm' Hp'.
    destruct (shape_prefix_cases Hm' Hp') as
      [(d4' & x & _ & Hrest & Hd4' & Hl' & _)|(_ & _ & Hle)].
    + rewrite Hrest, after_run_point in A by assumption. discriminate.
    + rewrite E in Hle. exact Hle.
Qed.

(** Where the matcher fails, no stretch of the form starts. *)
Lemma match_at_none (s : text) :
  match_at time_pattern s = None ->
  forall m, token_shape m -> ~ is_prefix m s.
Proof.
  rewrite match_at_time_pattern. intros H m Hm Hp.
  destruct (shape_prefix_cases Hm Hp) as
    [(d4' & x & _ & Hrest & Hd4' & Hl' & Hne)|(_ & H5 & Hle)].
  - destruct (fst (span_digits s)); [congruence|].
    rewrite Hrest, after_run_point in H by assumption. discriminate.
  - destruct (fst (span_digits s)) as [|c ds]; [simpl in Hle; lia|].
    destruct (after_run (snd (span_digits s))); [discriminate|].
    destruct (Nat.leb_spec 5 (length (c :: ds))); [discriminate|lia].
Qed.

Lemma token_shape_nonempty (m : text) : token_shape m -> m <> [].
Proof.
  intros [ds d4 Hne _ _ _|ds d4 Hne _ _ _] H;
    apply app_eq_nil in H; destruct H; congruence.
Qed.

(** ** The scan of [findall] *)

Lemma findall_from_skip (r : regex) (m rest : text) :
  findall_from r (m ++ rest) (length m) = findall_from r rest 0.
Proof.
  induction m as [|c m IH]; simpl.
  - destruct rest; reflexivity.
  - exact IH.
Qed.

Lemma findall_hit (r : regex) (m rest : text) :
  m <> [] -> match_at r (m ++ rest) = Some rest ->
  findall r (m ++ rest) = m :: findall r rest.
Proof.
  intros Hne Hm. unfold findall. destruct m as [|c m]; [congruence|].
  cbn [app findall_from]. change (c :: m ++ rest) with ((c :: m) ++ rest).
  rewrite Hm.
  replace (length ((c :: m) ++ rest) - length rest) with (length (c :: m))
    by (rewrite length_app; lia).
  rewrite firstn_app, Nat.sub_diag, firstn_all, firstn_O, app_nil_r.
  replace (length (c :: m) - 1) with (length m) by (simpl; lia).
  rewrite findall_from_skip. reflexivity.
Qed.

Lemma findall_miss (r : regex) (c : ascii) (s : text) :
  match_at r (c :: s) = None -> findall r (c :: s) = findall r s.
Proof. intros H. unfold findall. cbn [findall_from]. rewrite H. reflexivity. Qed.

(** [findall] returns the leftmost longest stretches of the form. *)
Lemma findall_scan (s : text) : scan s (findall time_pattern s).
Proof.
  remember (length s) as n eqn:Hn. revert s Hn.
  induction n as [n IH] using lt_wf_ind. intros s Hn.
  destruct s as [|c s]; [constructor|].
  destruct (match_at time_pattern (c :: s)) as [rest|] eqn:M.
  - destruct (match_at_some _ M) as (m & Hs & Hl).
    pose proof (token_shape_nonempty (proj1 Hl)) as Hne.
    rewrite Hs in M |- *. rewrite (findall_hit _ Hne M).
    rewrite Hs in Hl. constructor; [exact Hl|].
    apply (IH (length rest)); [|reflexivity].
    rewrite Hn, Hs, length_app. destruct m; [congruence|]. simpl. lia.
  - rewrite (@findall_miss _ _ _ M). constructor; [exact (match_at_none M)|].
    apply (IH (length s)); [|reflexivity]. rewrite Hn. simpl. lia.
Qed.

Lemma app_same_length (a b a' b' : text) :
  a ++ b = a' ++ b' -> length a = length a' -> a = a' /\ b = b'.
Proof.
  revert a'. induction a as [|x a IH]; intros [|x' a'] H Hl;
    simpl in *; try discriminate; [auto|].
  injection H as -> H. injection Hl as Hl.
  destruct (IH _ H Hl) as [-> ->]. auto.
Qed.

(** The scan has one result. *)
Lemma scan_unique (s : text) (ms : list text) :
  scan s ms -> forall ms', scan s ms' -> ms' = ms.
Proof.
  induction 1 as [|c s ms Hno _ IH|m rest ms Hl _ IH]; intros ms' H'.
  - inversion H' as [| |m' rest' ms0' Hl' _ Heq]; [reflexivity|].
    pose proof (token_shape_nonempty (proj1 Hl')) as Hne.
    destruct m'; [congruence|discriminate].
  - inversion H' as [|c' s' ms0' _ Hs'|m' rest' ms0' Hl' _ Heq]; subst.
    + apply IH. exact Hs'.
    + exfalso. destruct Hl' as (Hm' & Hp' & _).
      rewrite Heq in Hp'. exact (Hno _ Hm' Hp').
  - remember (m ++ rest) as s eqn:Es.
    destruct H' as [|c s ms' Hno Hs'|m' rest' ms' Hl' Hs'].
    + pose proof (token_shape_nonempty (proj1 Hl)) as Hne.
      destruct m; [congruence|discriminate].
    + exfalso. destruct Hl as (Hm & Hp & _). exact (Hno _ Hm Hp).
    + destruct Hl as (Hm & Hp & Hmax). destruct Hl' as (Hm' & Hp' & Hmax').
      assert (Hlen : length m' = length m).
      { apply Nat.le_antisymm.
        - apply Hmax; [exact Hm'|exact Hp'].
        - apply Hmax'; [exact Hm|exact Hp]. }
      destruct (app_same_length _ _ _ _ Es Hlen) as [-> ->].
      f_equal. apply IH. exact Hs'.
Qed.

(** ** [float] on a match *)

Lemma py_float_plain (ds : text) :
  ds <> [] -> forallb is_digit ds = true ->
  py_float ds = Some (digits_val ds * 10000)%Z.
Proof.
  intros Hne Hd. unfold py_float.
  rewrite <- (app_nil_r ds) at 1.
  rewrite span_digits_app by (assumption || exact I).
  destruct ds; [congruence|reflexivity].
Qed.

Lemma py_float_point (ds d4 : text) :
  ds <> [] -> forallb is_digit ds = true ->
  forallb is_digit d4 = true -> length d4 = 4 ->
  py_float (ds ++ DOT :: d4)
  = Some (digits_val ds * 10000 + digits_val d4)%Z.
Proof.
  intros Hne Hd Hd4 Hl. unfold py_float.
  rewrite span_digits_app by (assumption || reflexivity).
  destruct ds as [|c ds]; [congruence|].
  rewrite dot_is_dot, Hd4, Hl. simpl. rewrite Z.mul_1_r. reflexivity.
Qed.

(** [float] reads a match as its decimal value. *)
Lemma py_float_shape (m : text) :
  token_shape m -> exists v, token_reads m v /\ py_float m = Some v.
Proof.
  intros [ds d4 Hne Hds Hd4 Hl|ds d4 Hne Hds Hd4 Hl].
  - assert (Hne' : ds ++ d4 <> []) by (destruct ds; [congruence|discriminate]).
    assert (Hall : forallb is_digit (ds ++ d4) = true)
      by (rewrite forallb_app, Hds, Hd4; reflexivity).
    eexists. split; [constructor; assumption|].
    apply py_float_plain; assumption.
  - eexists. split; [constructor; assumption|].
    apply py_float_point; assumption.
Qed.

Lemma scan_shapes (s : text) (ms : list text) :
  scan s ms -> forall m, In m ms -> token_shape m.
Proof.
  induction 1 as [|c s ms _ _ IH|m0 rest ms Hl _ IH]; intros m Hin.
  - destruct Hin.
  - auto.
  - destruct Hin as [<-|Hin]; [exact (proj1 Hl)|auto].
Qed.

(** ** The parser *)

(** When every match has a value, the loop fills the slots in order and
    raises nothing. *)
Lemma fill_times_ok (ms : list text) :
  length ms <= 4 ->
  (forall m, In m ms -> exists v, py_float m = Some v) ->
  fill_times [None; None; None; None] 0 ms
  = (four_slots (map py_float ms), None).
Proof.
  intros Hlen Hv.
  destruct ms as [|a [|b [|c [|d [|e ms]]]]]; [| | | | |simpl in Hlen; lia].
  - reflexivity.
  - destruct (Hv a) as [va Ea]; [simpl; tauto|].
    cbn [fill_times map]. rewrite Ea. reflexivity.
  - destruct (Hv a) as [va Ea]; [simpl; tauto|].
    destruct (Hv b) as [vb Eb]; [simpl; tauto|].
    cbn [fill_times map]. rewrite Ea, Eb. reflexivity.
  - destruct (Hv a) as [va Ea]; [simpl; tauto|].
    destruct (Hv b) as [vb Eb]; [simpl; tauto|].
    destruct (Hv c) as [vc Ec]; [simpl; tauto|].
    cbn [fill_times map]. rewrite Ea, Eb, Ec. reflexivity.
  - destruct (Hv a) as [va Ea]; [simpl; tauto|].
    destruct (Hv b) as [vb Eb]; [simpl; tauto|].
    destruct (Hv c) as [vc Ec]; [simpl; tauto|].
    destruct (Hv d) as [vd Ed]; [simpl; tauto|].
    cbn [fill_times map]. rewrite Ea, Eb, Ec, Ed. reflexivity.
Qed.

Lemma in_firstn (A : Type) (x : A) (n : nat) :
  forall l, In x (firstn n l) -> In x l.
Proof.
  induction n as [|n IH]; intros [|y l] H; simpl in *; try tauto.
  destruct H as [H|H]; [left; exact H|right; auto].
Qed.

Lemma parse_timer_data_try_scan (line : text) (ms : list text) :
  scan line ms ->
  parse_timer_data_try line
  = (four_slots (map py_float (firstn 4 ms)), None).
Proof.
  intros Hs.
  rewrite (scan_unique (findall_scan line) Hs) in Hs |- *. clear Hs.
  pose proof (findall_scan line) as Hs.
  unfold parse_timer_data_try.
  apply fill_times_ok.
  - rewrite length_firstn. lia.
  - intros m Hin.
    destruct (py_float_shape (scan_shapes Hs m (in_firstn _ _ _ Hin)))
      as (v & _ & Hv).
    eauto.
Qed.

Example parse_two_lanes :
  parse_timer_data (txt "1.2345 1.1111 ")
  = [Some 12345%Z; Some 11111%Z; None; None].
Proof. reflexivity. Qed.

Example parse_takes_first_four :
  parse_timer_data (txt "3.1000 3.2000 3.3000 3.4000 3.5000")
  = [Some 31000%Z; Some 32000%Z; Some 33000%Z; Some 34000%Z].
Proof. reflexivity. Qed.

Example parse_short_fraction_unmatched :
  parse_timer_data (txt "lane 1: 3.14 s") = [None; None; None; None].
Proof. reflexivity. Qed.

Example parse_long_digit_run :
  parse_timer_data (txt "abc123456.78 9.99")
  = [Some 1234560000%Z; None; None; None].
Proof. reflexivity. Qed.

Lemma four_slots_length (vs : list (option time)) : length (four_slots vs) = 4.
Proof.
  unfold four_slots. rewrite length_firstn, length_app. cbn [length]. lia.
Qed.

(** C2, as the code has it.  The slots of the parser hold, by position, the
    values of the first four matches of the line, the rest being absent; the
    matches are the leftmost longest stretches of text made of one or more
    digits, an optional point and four digits, taken one after the other
    without overlap, wherever they start and end inside a token.  They are
    determined by the line, and [float] gives each its decimal value. *)
Theorem parse_timer_data_leftmost_longest (line : text) :
  exists ms,
    scan line ms
    /\ (forall ms', scan line ms' -> ms' = ms)
    /\ (forall m, In m ms ->
        token_shape m /\ exists v, token_reads m v /\ py_float m = Some v)
    /\ parse_timer_data line = four_slots (map py_float (firstn 4 ms))
    /\ length (parse_timer_data line) = 4.
Proof.
  exists (findall time_pattern line).
  pose proof (findall_scan line) as Hs.
  split; [exact Hs|].
  split; [exact (scan_unique Hs)|].
  split.
  { intros m Hin. pose proof (scan_shapes Hs m Hin) as Hm.
    split; [exact Hm|exact (py_float_shape Hm)]. }
  unfold parse_timer_data. rewrite (parse_timer_data_try_scan Hs). simpl fst.
  split; [reflexivity|apply four_slots_length].
Qed.

Lemma parse_timer_data_leftmost_longest_witness :
  scan (txt "1.2345 1.1111 ") [txt "1.2345"; txt "1.1111"]
  /\ parse_timer_data (txt "1.2345 1.1111 ")
     = [Some 12345%Z; Some 11111%Z; None; None].
Proof.
  destruct (parse_timer_data_leftmost_longest (txt "1.2345 1.1111 "))
    as (ms & Hs & Huniq & _ & Hp & _).
  pose proof (Huniq _ (findall_scan (txt "1.2345 1.1111 "))) as E.
  vm_compute in E. subst ms. split; [exact Hs|exact Hp].
Defined.

(** The parser of the specification and the parser of the code differ on a
    token with five fractional digits: the code fills lane 1 from its first
    four. *)
Lemma parse_timer_data_matches_inside_token :
  parse_timer_data (txt "1.23456") <> spec_parse_timer_data (txt "1.23456").
Proof. vm_compute. discriminate. Qed.

(** C9.  The body of the parser's [try] raises nothing on any line, the
    result has four slots, and a line without a match gives four absent
    slots. *)
Theorem parse_timer_data_total (line : text) :
  snd (parse_timer_data_try line) = None
  /\ length (parse_timer_data line) = 4
  /\ (findall time_pattern line = [] ->
      parse_timer_data line = [None; None; None; None]).
Proof.
  pose proof (findall_scan line) as Hs.
  unfold parse_timer_data. rewrite (parse_timer_data_try_scan Hs). simpl.
  split; [reflexivity|]. split; [apply four_slots_length|].
  intros ->. reflexivity.
Qed.

Lemma parse_timer_data_total_witness :
  parse_timer_data (txt "READY 12.5") = [None; None; None; None].
Proof.
  apply (parse_timer_data_total (txt "READY 12.5")). reflexivity.
Defined.

(** A line completes a heat exactly when it has a match. *)
Lemma any_present_iff_match (line : text) :
  any_present (parse_timer_data line) = true
  <-> findall time_pattern line <> [].
Proof.
  pose proof (findall_scan line) as Hs.
  unfold parse_timer_data. rewrite (parse_timer_data_try_scan Hs). simpl fst.
  destruct (findall time_pattern line) as [|m ms] eqn:E.
  - simpl. split; [discriminate|congruence].
  - split; [discriminate|]. intros _.
    destruct (py_float_shape (scan_shapes Hs m (or_introl eq_refl)))
      as (v & _ & Hv).
    simpl. rewrite Hv. reflexivity.
Qed.

(** ** Line framer *)

Lemma contains_app (c : ascii) (a b : text) :
  contains c (a ++ b) = contains c a || contains c b.
Proof. apply existsb_app. Qed.

Lemma split_at_first_some (c : ascii) (s a b : text) :
  split_at_first c s = Some (a, b) ->
  s = a ++ c :: b /\ contains c a = false.
Proof.
  revert a b. induction s as [|x s IH]; intros a b; simpl; [discriminate|].
  destruct (Ascii.eqb_spec x c) as [->|Hne].
  - intros H. injection H as <- <-. auto.
  - destruct (split_at_first c s) as [[a' b']|]; [|discriminate].
    intros H. injection H as <- <-.
    destruct (IH a' b' eq_refl) as [-> Hc]. simpl.
    destruct (Ascii.eqb_spec c x); [congruence|auto].
Qed.

Lemma split_at_first_app (c : ascii) (a b : text) :
  contains c a = false -> split_at_first c (a ++ c :: b) = Some (a, b).
Proof.
  induction a as [|x a IH]; simpl; intros H.
  - rewrite Ascii.eqb_refl. reflexivity.
  - apply orb_false_iff in H. destruct H as [Hx Ha].
    rewrite Ascii.eqb_sym, Hx, IH by exact Ha. reflexivity.
Qed.

Lemma split_at_first_none (c : ascii) (s : text) :
  contains c s = false -> split_at_first c s = None.
Proof.
  induction s as [|x s IH]; simpl; [reflexivity|]. intros H.
  apply orb_false_iff in H. destruct H as [Hx Hs].
  rewrite Ascii.eqb_sym, Hx, IH by exact Hs. reflexivity.
Qed.

Lemma split_at_first_contains (c : ascii) (s : text) :
  contains c s = true -> exists a b, split_at_first c s = Some (a, b).
Proof.
  intros H. destruct (split_at_first c s) as [[a b]|] eqn:E; [eauto|].
  exfalso. revert H E. induction s as [|x s IH]; simpl; [discriminate|].
  rewrite Ascii.eqb_sym. destruct (Ascii.eqb x c); [discriminate|]. simpl.
  destruct (split_at_first c s) as [[a b]|]; [discriminate|]. auto.
Qed.

(** The guard and the choice of the delimiter, case by case. *)
Lemma next_line_newline (buffer : text) :
  contains LF buffer = true ->
  exists line rest,
    next_line buffer = Some (line, rest)
    /\ buffer = line ++ LF :: rest /\ contains LF line = false.
Proof.
  intros H. unfold next_line. rewrite H. simpl.
  destruct (split_at_first_contains LF buffer H) as (a & b & E).
  exists a, b. split; [exact E|]. exact (split_at_first_some _ _ E).
Qed.

Lemma next_line_return (buffer : text) :
  contains LF buffer = false -> contains CR buffer = true ->
  exists line rest,
    next_line buffer = Some (line, rest)
    /\ buffer = line ++ CR :: rest /\ contains CR line = false.
Proof.
  intros H H'. unfold next_line. rewrite H, H'. simpl.
  destruct (split_at_first_contains CR buffer H') as (a & b & E).
  exists a, b. split; [exact E|]. exact (split_at_first_some _ _ E).
Qed.

Lemma next_line_none (buffer : text) :
  contains LF buffer = false -> contains CR buffer = false ->
  next_line buffer = None.
Proof. intros H H'. unfold next_line. rewrite H, H'. reflexivity. Qed.

Lemma next_line_none_inv (buffer : text) :
  next_line buffer = None ->
  contains LF buffer = false /\ contains CR buffer = false.
Proof.
  destruct (contains LF buffer) eqn:E.
  - destruct (next_line_newline buffer E) as (a & b & H & _). congruence.
  - destruct (contains CR buffer) eqn:E'; [|auto].
    destruct (next_line_return buffer E E') as (a & b & H & _). congruence.
Qed.

Lemma next_line_shorter (buffer line rest : text) :
  next_line buffer = Some (line, rest) -> length rest < length buffer.
Proof.
  unfold next_line.
  destruct (contains LF buffer || contains CR buffer); [|discriminate].
  destruct (contains LF buffer); intros H;
    apply split_at_first_some in H; destruct H as [-> _];
    rewrite length_app; simpl; lia.
Qed.

Lemma next_line_decompose (buffer line rest : text) :
  next_line buffer = Some (line, rest) ->
  exists d, buffer = line ++ d :: rest.
Proof.
  unfold next_line.
  destruct (contains LF buffer || contains CR buffer); [|discriminate].
  destruct (contains LF buffer); intros H;
    apply split_at_first_some in H; destruct H as [-> _]; eauto.
Qed.

(** More fuel than the length of the buffer changes nothing. *)
Lemma frame_loop_fuel (n : nat) :
  forall buffer, length buffer <= n ->
    frame_loop n buffer = frame_loop (length buffer) buffer.
Proof.
  induction n as [n IH] using lt_wf_ind. intros buffer Hn.
  destruct n as [|n].
  - destruct buffer; [reflexivity|simpl in Hn; lia].
  - destruct buffer as [|c s]; [reflexivity|].
    cbn [frame_loop length].
    destruct (next_line (c :: s)) as [[line rest]|] eqn:E; [|reflexivity].
    pose proof (next_line_shorter _ E) as Hl. simpl in Hl, Hn.
    rewrite (IH n) by lia. rewrite (IH (length s)) by lia. reflexivity.
Qed.

(** The lines of a buffer, one split at a time. *)
Lemma frame_step (buffer : text) :
  frame buffer
  = match next_line buffer with
    | None => ([], buffer)
    | Some (line, rest) =>
        (if nonempty (strip line) then strip line :: fst (frame rest)
         else fst (frame rest),
         snd (frame rest))
    end.
Proof.
  unfold frame. destruct buffer as [|c s]; [reflexivity|].
  cbn [frame_loop length].
  destruct (next_line (c :: s)) as [[line rest]|] eqn:E; [|reflexivity].
  pose proof (next_line_shorter _ E) as Hl. simpl in Hl.
  rewrite frame_loop_fuel by lia.
  destruct (frame_loop (length rest) rest). reflexivity.
Qed.

(** The partial line after the lines holds neither delimiter. *)
Lemma frame_remainder (buffer : text) :
  contains LF (snd (frame buffer)) = false
  /\ contains CR (snd (frame buffer)) = false.
Proof.
  remember (length buffer) as n eqn:Hn. revert buffer Hn.
  induction n as [n IH] using lt_wf_ind. intros buffer Hn.
  rewrite frame_step.
  destruct (next_line buffer) as [[line rest]|] eqn:E.
  - simpl. apply (IH (length rest)); [|reflexivity].
    rewrite Hn. exact (next_line_shorter _ E).
  - simpl. exact (next_line_none_inv _ E).
Qed.

(** With one kind of delimiter in the stream, framing a text in one pass is
    framing its first part and then the carried-over buffer with the rest. *)
Lemma frame_app_one_kind (s2 : text) :
  forall s1,
    contains CR (s1 ++ s2) = false \/ contains LF (s1 ++ s2) = false ->
    frame (s1 ++ s2)
    = (fst (frame s1) ++ fst (frame (snd (frame s1) ++ s2)),
       snd (frame (snd (frame s1) ++ s2))).
Proof.
  intros s1. remember (length s1) as n eqn:Hn. revert s1 Hn.
  induction n as [n IH] using lt_wf_ind. intros s1 Hn Hone.
  rewrite (frame_step s1).
  destruct (next_line s1) as [[line rest]|] eqn:E.
  2:{ simpl. destruct (frame (s1 ++ s2)); reflexivity. }
  pose proof (next_line_shorter _ E) as Hl.
  assert (E' : next_line (s1 ++ s2) = Some (line, rest ++ s2)).
  { unfold next_line in E |- *. rewrite !contains_app in *.
    destruct (contains LF s1) eqn:L1.
    - simpl in *. apply split_at_first_some in E. destruct E as [-> Hc].
      rewrite <- app_assoc. simpl. apply split_at_first_app. exact Hc.
    - destruct (contains CR s1) eqn:C1; [|discriminate]. simpl in *.
      destruct Hone as [Hone|Hone]; [discriminate|]. rewrite Hone.
      apply split_at_first_some in E. destruct E as [-> Hc].
      rewrite <- app_assoc. simpl. apply split_at_first_app. exact Hc. }
  rewrite (frame_step (s1 ++ s2)), E'. cbn [fst snd].
  assert (Hone' : contains CR (rest ++ s2) = false
                  \/ contains LF (rest ++ s2) = false).
  { destruct (next_line_decompose _ E) as [d ->].
    rewrite <- app_assoc in Hone. cbn [app] in Hone.
    change (line ++ d :: rest ++ s2) with (line ++ [d] ++ rest ++ s2) in Hone.
    rewrite !app_assoc in Hone. rewrite <- app_assoc in Hone.
    destruct Hone as [Hone|Hone]; [left|right];
      rewrite contains_app in Hone; apply orb_false_iff in Hone; tauto. }
  rewrite (IH (length rest)) by (lia || reflexivity || exact Hone').
  cbn [fst snd]. destruct (nonempty (strip line)); reflexivity.
Qed.


(** ** Standings ranker *)

Section StableSortFacts.
Variable A : Type.
Variable key : A -> Z.

Lemma insert_by_perm (x : A) (l : list A) :
  Permutation (insert_by key x l) (x :: l).
Proof.
  induction l as [|y l IH]; simpl; [reflexivity|].
  destruct (key x <=? key y)%Z; [reflexivity|].
  rewrite IH. apply perm_swap.
Qed.

Lemma py_sorted_perm (l : list A) : Permutation (py_sorted key l) l.
Proof.
  induction l as [|x l IH]; simpl; [reflexivity|].
  rewrite insert_by_perm, IH. reflexivity.
Qed.

Lemma insert_by_sorted (x : A) (l : list A) :
  StronglySorted (fun a b => (key a <= key b)%Z) l ->
  StronglySorted (fun a b => (key a <= key b)%Z) (insert_by key x l).
Proof.
  induction 1 as [|y l Hs IH Hall]; simpl.
  - repeat constructor.
  - destruct (Z.leb_spec (key x) (key y)) as [Hle|Hgt].
    + constructor; [constructor; assumption|].
      constructor; [exact Hle|].
      eapply Forall_impl; [|exact Hall]. simpl. intros a Ha. lia.
    + constructor; [exact IH|].
      eapply Permutation_Forall; [symmetry; apply insert_by_perm|].
      constructor; [lia|exact Hall].
Qed.

(** The result is in ascending key order. *)
Lemma py_sorted_sorted (l : list A) :
  StronglySorted (fun a b => (key a <= key b)%Z) (py_sorted key l).
Proof.
  induction l as [|x l IH]; simpl; [constructor|].
  apply insert_by_sorted. exact IH.
Qed.

Lemma insert_by_filter (k : Z) (x : A) (l : list A) :
  StronglySorted (fun a b => (key a <= key b)%Z) l ->
  filter (fun a => (key a =? k)%Z) (insert_by key x l)
  = filter (fun a => (key a =? k)%Z) (x :: l).
Proof.
  induction 1 as [|y l Hs IH Hall]; [reflexivity|].
  cbn [insert_by]. destruct (Z.leb_spec (key x) (key y)) as [Hle|Hgt];
    [reflexivity|].
  cbn [filter] in *. rewrite IH.
  destruct (Z.eqb_spec (key y) k), (Z.eqb_spec (key x) k);
    try reflexivity; lia.
Qed.

(** The sort is stable: the elements of one key keep their order. *)
Lemma py_sorted_stable (k : Z) (l : list A) :
  filter (fun a => (key a =? k)%Z) (py_sorted key l)
  = filter (fun a => (key a =? k)%Z) l.
Proof.
  induction l as [|x l IH]; [reflexivity|].
  cbn [py_sorted]. rewrite insert_by_filter by apply py_sorted_sorted.
  cbn [filter]. rewrite IH. reflexivity.
Qed.
Lemma filter_key_in (k : Z) (x : A) (l : list A) :
  In x l -> key x = k -> In x (filter (fun a => (key a =? k)%Z) l).
Proof.
  intros Hin Hk. apply filter_In. split; [exact Hin|].
  apply Z.eqb_eq. exact Hk.
Qed.

(** Two ascending lists with the same elements of each key, in the same
    order, are equal: a stable sort has one result, so the list computed
    here is the list [sorted] returns. *)
Lemma stable_sorted_unique (l1 : list A) :
  forall l2,
    StronglySorted (fun a b => (key a <= key b)%Z) l1 ->
    StronglySorted (fun a b => (key a <= key b)%Z) l2 ->
    (forall k, filter (fun a => (key a =? k)%Z) l1
               = filter (fun a => (key a =? k)%Z) l2) ->
    l1 = l2.
Proof.
  induction l1 as [|x l1 IH]; intros l2 H1 H2 Hf.
  - destruct l2 as [|y l2]; [reflexivity|].
    specialize (Hf (key y)). cbn [filter] in Hf.
    rewrite Z.eqb_refl in Hf. discriminate.
  - destruct l2 as [|y l2].
    { specialize (Hf (key x)). cbn [filter] in Hf.
      rewrite Z.eqb_refl in Hf. discriminate. }
    inversion H1 as [|? ? H1' Hall1]; subst.
    inversion H2 as [|? ? H2' Hall2]; subst.
    rewrite Forall_forall in Hall1, Hall2.
    assert (Hxy : key x = key y).
    { apply Z.le_antisymm.
      - assert (Hin : In y (x :: l1)).
        { eapply (proj1 (filter_In _ _ _)). rewrite (Hf (key y)).
          apply filter_key_in; [left|]; reflexivity. }
        destruct Hin as [<-|Hin]; [lia|exact (Hall1 _ Hin)].
      - assert (Hin : In x (y :: l2)).
        { eapply (proj1 (filter_In _ _ _)). rewrite <- (Hf (key x)).
          apply filter_key_in; [left|]; reflexivity. }
        destruct Hin as [<-|Hin]; [lia|exact (Hall2 _ Hin)]. }
    pose proof (Hf (key x)) as Hk. cbn [filter] in Hk.
    rewrite Z.eqb_refl, <- Hxy, Z.eqb_refl in Hk. injection Hk as <- Hk.
    f_equal. apply IH; try assumption.
    intros k. specialize (Hf k). cbn [filter] in Hf.
    destruct (key x =? k)%Z; [injection Hf as Hf|]; exact Hf.
Qed.
End StableSortFacts.

(** The ranking lists every competitor once, in ascending order of the sort
    key, competitors of equal key in registration order. *)
Lemma sorted_competitors_ranking (cs : ledger) :
  Permutation (sorted_competitors cs) cs
  /\ StronglySorted (fun a b => (sort_key a <= sort_key b)%Z)
                    (sorted_competitors cs)
  /\ forall k,
       filter (fun a => (sort_key a =? k)%Z) (sorted_competitors cs)
       = filter (fun a => (sort_key a =? k)%Z) cs.
Proof.
  unfold sorted_competitors. split; [apply py_sorted_perm|].
  split; [apply py_sorted_sorted|]. intros k. apply py_sorted_stable.
Qed.

(** While every recorded best time is below 999 s, no competitor without a
    time is ranked before a competitor with one. *)
Lemma absent_after_present_below_sentinel (cs : ledger)
    (pre post : list (string * stats)) (a b : string * stats) :
  (forall c t, In c cs -> best_time (snd c) = Some t -> (t < sentinel)%Z) ->
  sorted_competitors cs = pre ++ a :: post -> In b post ->
  best_time (snd a) = None -> best_time (snd b) = None.
Proof.
  intros Hlow Hs Hin Ha.
  destruct (sorted_competitors_ranking cs) as (Hp & Hsort & _).
  rewrite Hs in Hsort, Hp.
  assert (Hs' : StronglySorted (fun a b => (sort_key a <= sort_key b)%Z)
                  (a :: post)).
  { clear - Hsort. induction pre as [|p pre IH]; [exact Hsort|].
    simpl in Hsort. inversion Hsort; subst. auto. }
  inversion Hs' as [|? ? _ Hall]; subst.
  rewrite Forall_forall in Hall. specialize (Hall _ Hin).
  unfold sort_key in Hall. rewrite Ha in Hall.
  destruct (best_time (snd b)) as [t|] eqn:Eb; [|reflexivity].
  assert (Hb : In b cs).
  { eapply Permutation_in; [exact Hp|]. apply in_or_app. right. right.
    exact Hin. }
  specialize (Hlow _ _ Hb Eb). lia.
Qed.

(** C1 at the failing input.  Bob is registered first and finishes one heat
    in 1000.0000 s; Ann never races.  The ranking puts Ann, who has no best
    time, before Bob: the key of an absent best time is 999.0, not
    infinity. *)
Theorem standings_rank_absent_before_slow_time :
  let st := fst (run_heat Console slow_heat slow_state) in
  dict_get String.eqb "Bob" (competitors st)
  = Some {| heats := [{| hr_heat := 1%Z; hr_lane := 1;
                         hr_time := 10000000%Z |}];
            best_time := Some 10000000%Z;
            total_time := [10000000%Z];
            races_count := 1 |}
  /\ dict_get String.eqb "Ann" (competitors st) = Some fresh_stats
  /\ map fst (sorted_competitors (competitors st)) = ["Ann"; "Bob"].
Proof. vm_compute. repeat split; reflexivity. Qed.

(** ** Rows of the standings file *)

(** Writing the rows raises nothing: the division is guarded. *)
Lemma standings_rows_no_exception (items : list (string * stats)) :
  forall rank,
    snd (standings_rows rank items) = None
    /\ length (fst (standings_rows rank items)) = length items.
Proof.
  induction items as [|item rest IH]; intros rank; [auto|].
  cbn [standings_rows]. unfold standings_row.
  destruct (races_count (snd item)) as [|n] eqn:E; simpl.
  - destruct (IH (S rank)) as [H1 H2].
    destruct (standings_rows (S rank) rest). simpl in *. auto.
  - destruct (IH (S rank)) as [H1 H2].
    destruct (standings_rows (S rank) rest). simpl in *. auto.
Qed.

(** The average field of a row: empty exactly for a competitor without a
    race, else the total time over the number of races; the best-time field
    is empty exactly when the best time is absent or zero. *)
Lemma standings_row_fields (rank : nat) (item : string * stats) :
  exists best avg,
    standings_row rank item
    = Some [CInt (Z.of_nat rank); CStr (fst item); best; avg;
            CInt (Z.of_nat (races_count (snd item)))]
    /\ (cell_empty avg = true <-> races_count (snd item) = 0)
    /\ (0 < races_count (snd item) ->
        avg = CAvg (total_time (snd item)) (races_count (snd item)))
    /\ (cell_empty best = true
        <-> best_time (snd item) = None \/ best_time (snd item) = Some 0%Z)
    /\ (forall t, best_time (snd item) = Some t -> t <> 0%Z ->
                  best = CTime t).
Proof.
  unfold standings_row.
  destruct (races_count (snd item)) as [|n] eqn:E; simpl.
  - eexists _, _. split; [reflexivity|]. simpl.
    split; [tauto|]. split; [lia|].
    destruct (best_time (snd item)) as [t|]; simpl.
    + destruct (Z.eqb_spec t 0) as [->|Hne]; simpl.
      * split; [split; auto|]. intros t' H. injection H as <-. congruence.
      * split.
        -- split; [discriminate|]. intros [H|H]; congruence.
        -- intros t' H. injection H as <-. reflexivity.
    + split; [split; auto|]. discriminate.
  - eexists _, _. split; [reflexivity|]. simpl.
    split; [split; discriminate|]. split; [reflexivity|].
    destruct (best_time (snd item)) as [t|]; simpl.
    + destruct (Z.eqb_spec t 0) as [->|Hne]; simpl.
      * split; [split; auto|]. intros t' H. injection H as <-. congruence.
      * split.
        -- split; [discriminate|]. intros [H|H]; congruence.
        -- intros t' H. injection H as <-. reflexivity.
    + split; [split; auto|]. discriminate.
Qed.

(** C7 at the failing input.  Alice finishes her first heat in 0.0000 s.
    Her best time is recorded, yet the best-time field of her standings row
    is empty: the field is chosen by the truth value of the best time, and
    0.0 is false.  The average field is filled. *)
Theorem standings_row_hides_zero_best_time :
  let st := fst (run_heat Console zero_heat sample_state) in
  dict_get String.eqb "Alice" (competitors st)
  = Some {| heats := [{| hr_heat := 1%Z; hr_lane := 1; hr_time := 0%Z |}];
            best_time := Some 0%Z;
            total_time := [0%Z];
            races_count := 1 |}
  /\ standings_file st
     = [standings_header;
        [CInt 1; CStr "Alice"; CStr EmptyString; CAvg [0%Z] 1; CInt 1];
        [CInt 2; CStr "Bob"; CTime 11111; CAvg [11111%Z] 1; CInt 1]].
Proof. vm_compute. split; reflexivity. Qed.

(** ** Rows of the heat log *)

Lemma heat_row_four (number : Z) (timestamp : string) (asg : assignments)
    (times : list (option time)) (winner_lane : option nat) :
  length times = 4 ->
  exists cells,
    heat_row number timestamp asg times winner_lane
    = Some (CInt number :: CStr timestamp :: cells)
    /\ length cells = 9.
Proof.
  intros H.
  destruct times as [|t1 [|t2 [|t3 [|t4 [|t5 times]]]]]; try discriminate.
  eexists. split; reflexivity.
Qed.

(** The console front end logs a heat under the number it was listened for
    under, and moves to the next number afterwards. *)
Lemma logger_heat_logs_active_number (timestamp : string)
    (times : list (option time)) (st st' : state) :
  length times = 4 ->
  logger_heat timestamp times st = (st', None) ->
  exists cells,
    heats_file st'
    = heats_file st ++ [CInt (heat_number st) :: CStr timestamp :: cells]
    /\ heat_number st' = (heat_number st + 1)%Z.
Proof.
  intros Hlen. unfold logger_heat, display_heat_results. rewrite Hlen.
  simpl Nat.ltb. cbv iota.
  pose proof (update_competitor_stats_fields times st) as Hf.
  destruct (update_competitor_stats times st) as [st1 [e|]]; [discriminate|].
  simpl in Hf. destruct Hf as (Ha & Hn & Hh & _).
  intros H. injection H as <-.
  unfold save_standings.
  destruct (standings_rows 1 _) as [rows e].
  unfold log_heat_results.
  destruct (@heat_row_four (heat_number st1) timestamp
              (current_heat_assignments st1) times
              (option_map fst (find_winner times)) Hlen)
    as (cells & -> & _).
  simpl. rewrite Hn, Hh. eauto.
Qed.

(** The GUI logs it under the number before. *)
Lemma process_race_results_logs_number_before (timestamp : string)
    (times : list (option time)) (st st' : state) :
  length times = 4 ->
  process_race_results timestamp times st = (st', None) ->
  exists cells,
    heats_file st'
    = heats_file st
      ++ [CInt (heat_number st - 1) :: CStr timestamp :: cells]
    /\ heat_number st' = (heat_number st + 1)%Z.
Proof.
  intros Hlen. unfold process_race_results, display_heat_results.
  rewrite Hlen. simpl Nat.ltb. cbv iota.
  pose proof (update_competitor_stats_fields times st) as Hf.
  destruct (update_competitor_stats times st) as [st1 [e|]]; [discriminate|].
  simpl in Hf. destruct Hf as (Ha & Hn & Hh & _).
  intros H. injection H as <-.
  unfold save_standings.
  destruct (standings_rows 1 _) as [rows e].
  unfold save_heat_results.
  destruct (@heat_row_four (heat_number st1 - 1) timestamp
              (current_heat_assignments st1) times
              (option_map fst (find_winner times)) Hlen)
    as (cells & -> & _).
  simpl. rewrite Hn, Hh. eauto.
Qed.

(** C6 at the failing input.  The first heat of a session is listened for
    under heat number 1 in both front ends, and its records in the ledger
    carry 1.  The console front end logs it as heat 1; the GUI logs the same
    heat as heat 0. *)
Theorem gui_logs_first_heat_as_zero :
  heat_number sample_state = 1%Z
  /\ last_row (heats_file (fst (run_heat Console sample_heat sample_state)))
     = [CInt 1; CStr "2024-01-01 10:00:00";
        CStr "Alice"; CTime 12345; CStr "Bob"; CTime 11111;
        CStr EmptyString; CStr EmptyString; CStr EmptyString; CStr EmptyString; CStr "Bob"]
  /\ last_row (heats_file (fst (run_heat Gui sample_heat sample_state)))
     = [CInt 0; CStr "2024-01-01 10:00:00";
        CStr "Alice"; CTime 12345; CStr "Bob"; CTime 11111;
        CStr EmptyString; CStr EmptyString; CStr EmptyString; CStr EmptyString; CStr "Bob"]
  /\ map hr_heat
       (match dict_get String.eqb "Bob"
                (competitors (fst (run_heat Gui sample_heat sample_state)))
        with
        | Some s => heats s
        | None => []
        end)
     = [1%Z].
Proof. vm_compute. repeat split; reflexivity. Qed.

(** ** Registration *)

(** The GUI refuses a name that is already registered and changes
    nothing. *)
Lemma add_competitor_duplicate (entry : text) (st : state) :
  dict_mem String.eqb (string_of_list_ascii (strip entry)) (competitors st)
  = true ->
  nonempty (strip entry) = true ->
  add_competitor entry st = (st, Duplicate).
Proof.
  intros Hm Hn. unfold add_competitor. rewrite Hn, Hm. reflexivity.
Qed.

(** C8 at the failing input.  In the console front end a name typed twice
    is accepted both times: of the two names asked for, one competitor is
    registered.  The second entry is stored over the first; on a ledger
    where the name already has results, they are replaced by an empty
    record. *)
Theorem console_setup_accepts_duplicate_name :
  register_prompt (txt "Alice") [("Alice", fresh_stats)]
  = ([("Alice", fresh_stats)], true)
  /\ setup_competitors 2 [txt "Alice"; txt "Alice"; txt "Bob"] []
     = [("Alice", fresh_stats)]
  /\ register_prompt (txt "Alice")
       [("Alice", record_time 1 1 12345 fresh_stats); ("Bob", fresh_stats)]
     = ([("Alice", fresh_stats); ("Bob", fresh_stats)], true).
Proof. vm_compute. repeat split; reflexivity. Qed.

(** ** Trimming *)

Lemma forallb_rev (p : ascii -> bool) (s : text) :
  forallb p (rev s) = forallb p s.
Proof.
  induction s as [|c s IH]; simpl; [reflexivity|].
  rewrite forallb_app, IH. simpl. rewrite andb_true_r. apply andb_comm.
Qed.

Lemma dropwhile_all (p : ascii -> bool) (a b : text) :
  forallb p a = true -> dropwhile p (a ++ b) = dropwhile p b.
Proof.
  induction a as [|c a IH]; simpl; [reflexivity|]. intros H.
  apply andb_true_iff in H. destruct H as [Hc Ha]. rewrite Hc. auto.
Qed.

Lemma dropwhile_some (p : ascii -> bool) (a b : text) :
  forallb p a = false ->
  dropwhile p (a ++ b) = dropwhile p a ++ b /\ dropwhile p a <> [].
Proof.
  induction a as [|c a IH]; simpl; [discriminate|].
  destruct (p c); simpl.
  - exact IH.
  - intros _. split; [reflexivity|discriminate].
Qed.

Lemma strip_all_space (s : text) : forallb is_space s = true -> strip s = [].
Proof.
  intros H. unfold strip.
  rewrite <- (app_nil_r s), dropwhile_all by exact H. reflexivity.
Qed.

Lemma strip_app_space_l (a b : text) :
  forallb is_space a = true -> strip (a ++ b) = strip b.
Proof. intros H. unfold strip. rewrite dropwhile_all by exact H. reflexivity. Qed.

Lemma strip_app_space_r (a b : text) :
  forallb is_space b = true -> strip (a ++ b) = strip a.
Proof.
  intros H. unfold strip.
  destruct (forallb is_space a) eqn:Ha.
  - rewrite dropwhile_all by exact Ha.
    rewrite <- (app_nil_r b), dropwhile_all by exact H.
    rewrite <- (app_nil_r a), dropwhile_all by exact Ha. reflexivity.
  - destruct (dropwhile_some is_space a b Ha) as [-> _].
    rewrite rev_app_distr, dropwhile_all by (rewrite forallb_rev; exact H).
    reflexivity.
Qed.

Lemma cr_is_space : is_space CR = true.
Proof. reflexivity. Qed.

(** A carriage return between two stretches that both hold something other
    than white space survives the trimming. *)
Lemma strip_keeps_inner_return (u v : text) :
  forallb is_space u = false -> forallb is_space v = false ->
  contains CR (strip (u ++ CR :: v)) = true.
Proof.
  intros Hu Hv. unfold strip.
  destruct (dropwhile_some is_space u (CR :: v) Hu) as [-> Hne].
  rewrite rev_app_distr. cbn [rev]. rewrite <- app_assoc. cbn [app].
  assert (Hv' : forallb is_space (rev v) = false)
    by (rewrite forallb_rev; exact Hv).
  destruct (dropwhile_some is_space (rev v)
              (CR :: rev (dropwhile is_space u)) Hv') as [-> _].
  rewrite rev_app_distr. cbn [rev]. rewrite <- app_assoc.
  rewrite !contains_app. simpl. rewrite orb_true_r. reflexivity.
Qed.

(** A carriage return that the trimming of the whole removes lies in white
    space on one side. *)
Lemma strip_return_cases (u v : text) :
  contains CR (strip (u ++ CR :: v)) = false ->
  (forallb is_space u = true /\ strip (u ++ CR :: v) = strip v)
  \/ (forallb is_space v = true /\ strip (u ++ CR :: v) = strip u).
Proof.
  intros H. destruct (forallb is_space u) eqn:Hu.
  - left. split; [reflexivity|].
    rewrite strip_app_space_l by exact Hu.
    change (CR :: v) with ([CR] ++ v). apply strip_app_space_l. reflexivity.
  - destruct (forallb is_space v) eqn:Hv.
    + right. split; [reflexivity|]. apply strip_app_space_r.
      cbn [forallb]. rewrite cr_is_space. exact Hv.
    + rewrite strip_keeps_inner_return in H by assumption. discriminate.
Qed.

(** ** Framing in chunks *)

Lemma next_line_delim (buffer line rest : text) :
  next_line buffer = Some (line, rest) ->
  (buffer = line ++ LF :: rest /\ contains LF line = false)
  \/ (buffer = line ++ CR :: rest /\ contains LF buffer = false
      /\ contains CR line = false).
Proof.
  unfold next_line.
  destruct (contains LF buffer) eqn:L; simpl.
  - intros H. left. exact (split_at_first_some _ _ H).
  - destruct (contains CR buffer); [|discriminate].
    intros H. right. destruct (split_at_first_some _ _ H). auto.
Qed.

Lemma first_split_unique (c : ascii) (a b a' b' : text) :
  contains c a = false -> contains c a' = false ->
  a ++ c :: b = a' ++ c :: b' -> a = a' /\ b = b'.
Proof.
  intros Ha Ha' H.
  pose proof (split_at_first_app c a b Ha) as E.
  rewrite H, (split_at_first_app c a' b' Ha') in E.
  injection E as -> ->. auto.
Qed.

Lemma contains_lf_cons_cr (s : text) : contains LF (CR :: s) = contains LF s.
Proof. reflexivity. Qed.

Lemma contains_lf_cons_lf (s : text) : contains LF (LF :: s) = true.
Proof. reflexivity. Qed.

Lemma margins_after_newline (seg r : text) :
  returns_in_margins (seg ++ LF :: r) -> contains LF seg = false ->
  returns_in_margins r /\ contains CR (strip seg) = false.
Proof.
  intros H Hseg. inversion H as [s Hs Es|seg' rest' Hseg' Hcr Hrest Es].
  - rewrite contains_app, contains_lf_cons_lf, orb_true_r in Hs.
    discriminate.
  - destruct (first_split_unique LF _ _ _ _ Hseg' Hseg Es) as [-> ->]. auto.
Qed.

Lemma margins_after_return (u r : text) :
  returns_in_margins (u ++ CR :: r) -> contains LF u = false ->
  returns_in_margins r.
Proof.
  intros H Hu.
  destruct (contains LF r) eqn:Hr; [|constructor; exact Hr].
  destruct (split_at_first_contains LF r Hr) as (r' & r'' & E).
  apply split_at_first_some in E. destruct E as [-> Hr'].
  assert (Hseg : contains LF (u ++ CR :: r') = false)
    by (rewrite contains_app, contains_lf_cons_cr, Hu, Hr'; reflexivity).
  change (u ++ CR :: r' ++ LF :: r'') with (u ++ (CR :: r') ++ LF :: r'') in H.
  rewrite app_assoc in H.
  destruct (margins_after_newline _ _ H Hseg) as [Hrest Hcr].
  constructor; [exact Hr'| |exact Hrest].
  destruct (strip_return_cases _ _ Hcr) as [[_ E]|[Hsp _]].
  - rewrite <- E. exact Hcr.
  - rewrite strip_all_space by exact Hsp. reflexivity.
Qed.

(** A buffer of white space yields no line and leaves white space. *)
Lemma frame_all_space (v : text) :
  forallb is_space v = true ->
  fst (frame v) = [] /\ forallb is_space (snd (frame v)) = true.
Proof.
  remember (length v) as n eqn:Hn. revert v Hn.
  induction n as [n IH] using lt_wf_ind. intros v Hn Hv.
  rewrite frame_step.
  destruct (next_line v) as [[line rest]|] eqn:E; [|auto].
  pose proof (next_line_shorter _ E) as Hl.
  destruct (next_line_decompose _ E) as [d ->].
  rewrite forallb_app in Hv. apply andb_true_iff in Hv.
  destruct Hv as [Hline Hrest]. cbn [forallb] in Hrest.
  apply andb_true_iff in Hrest. destruct Hrest as [_ Hrest].
  rewrite strip_all_space by exact Hline. cbn [nonempty fst snd].
  apply (IH (length rest)); [lia|reflexivity|exact Hrest].
Qed.

(** A stretch without a newline whose carriage returns lie in its margins:
    splitting it at its carriage returns and joining the last piece with
    what follows gives the one line that trimming the whole gives. *)
Lemma frame_returns_join (t : text) (ls : list text) :
  forall s1,
    contains LF s1 = false ->
    contains CR (strip (s1 ++ t)) = false ->
    fst (frame s1)
    ++ (if nonempty (strip (snd (frame s1) ++ t))
        then strip (snd (frame s1) ++ t) :: ls else ls)
    = if nonempty (strip (s1 ++ t)) then strip (s1 ++ t) :: ls else ls.
Proof.
  intros s1. remember (length s1) as n eqn:Hn. revert s1 Hn.
  induction n as [n IH] using lt_wf_ind. intros s1 Hn Hlf Hcr.
  rewrite frame_step.
  destruct (next_line s1) as [[line rest]|] eqn:E; [|reflexivity].
  pose proof (next_line_shorter _ E) as Hl.
  destruct (next_line_delim _ E) as [[-> _]|(-> & _ & _)].
  { rewrite contains_app, contains_lf_cons_lf, orb_true_r in Hlf.
    discriminate. }
  cbn [fst snd].
  rewrite contains_app, contains_lf_cons_cr in Hlf.
  apply orb_false_iff in Hlf. destruct Hlf as [_ Hlf].
  rewrite <- app_assoc in Hcr |- *. cbn [app] in Hcr |- *.
  destruct (strip_return_cases _ _ Hcr) as [[Hsp E']|[Hsp E']].
  - rewrite E' in Hcr |- *. rewrite (strip_all_space _ Hsp).
    cbn [nonempty]. apply (IH (length rest)); (lia || reflexivity || assumption).
  - rewrite E'. rewrite forallb_app in Hsp. apply andb_true_iff in Hsp.
    destruct Hsp as [Hrest Ht].
    destruct (frame_all_space rest Hrest) as [-> Hb].
    rewrite (strip_all_space (snd (frame rest) ++ t))
      by (rewrite forallb_app, Hb, Ht; reflexivity).
    cbn [nonempty]. destruct (nonempty (strip line)); reflexivity.
Qed.

Lemma next_line_at_newline (seg r : text) :
  contains LF seg = false -> next_line (seg ++ LF :: r) = Some (seg, r).
Proof.
  intros H. unfold next_line.
  rewrite contains_app, contains_lf_cons_lf, orb_true_r. simpl.
  apply split_at_first_app. exact H.
Qed.

(** Framing a text in one pass is framing its first part and then the
    carried-over buffer with the rest. *)
Lemma frame_app (s2 : text) :
  forall s1,
    returns_in_margins (s1 ++ s2) ->
    frame (s1 ++ s2)
    = (fst (frame s1) ++ fst (frame (snd (frame s1) ++ s2)),
       snd (frame (snd (frame s1) ++ s2))).
Proof.
  intros s1. remember (length s1) as n eqn:Hn. revert s1 Hn.
  induction n as [n IH] using lt_wf_ind. intros s1 Hn Hm.
  destruct (contains LF s1) eqn:L1.
  - destruct (next_line_newline s1 L1) as (line & rest & E & -> & Hline).
    pose proof (next_line_shorter _ E) as Hl.
    rewrite <- app_assoc in Hm |- *. cbn [app] in Hm |- *.
    destruct (margins_after_newline _ _ Hm Hline) as [Hm' _].
    rewrite (frame_step (line ++ LF :: rest ++ s2)),
      (next_line_at_newline _ _ Hline).
    rewrite (frame_step (line ++ LF :: rest)), (next_line_at_newline _ _ Hline).
    cbn [fst snd].
    rewrite (IH (length rest)) by (lia || reflexivity || exact Hm').
    cbn [fst snd]. destruct (nonempty (strip line)); reflexivity.
  - destruct (contains LF s2) eqn:L2.
    + destruct (split_at_first_contains LF s2 L2) as (t & r2 & E).
      apply split_at_first_some in E. destruct E as [-> Ht].
      destruct (frame_remainder s1) as [Hb _].
      assert (Hseg : contains LF (s1 ++ t) = false)
        by (rewrite contains_app, L1, Ht; reflexivity).
      assert (Hseg' : contains LF (snd (frame s1) ++ t) = false)
        by (rewrite contains_app, Hb, Ht; reflexivity).
      rewrite !app_assoc in *.
      destruct (margins_after_newline _ _ Hm Hseg) as [_ Hcr].
      rewrite (frame_step ((s1 ++ t) ++ LF :: r2)),
        (next_line_at_newline _ _ Hseg).
      rewrite (frame_step ((snd (frame s1) ++ t) ++ LF :: r2)),
        (next_line_at_newline _ _ Hseg').
      cbn [fst snd]. f_equal. symmetry.
      apply frame_returns_join; assumption.
    + apply frame_app_one_kind. right.
      rewrite contains_app, L1, L2. reflexivity.
Qed.

(** The buffer carried over keeps the stream of the same kind. *)
Lemma margins_remainder (s2 : text) :
  forall s1,
    returns_in_margins (s1 ++ s2) ->
    returns_in_margins (snd (frame s1) ++ s2).
Proof.
  intros s1. remember (length s1) as n eqn:Hn. revert s1 Hn.
  induction n as [n IH] using lt_wf_ind. intros s1 Hn Hm.
  rewrite frame_step.
  destruct (next_line s1) as [[line rest]|] eqn:E; [|exact Hm].
  pose proof (next_line_shorter _ E) as Hl. cbn [snd].
  apply (IH (length rest)); [lia|reflexivity|].
  destruct (next_line_delim _ E) as [[-> Hline]|(-> & Hlf & _)];
    rewrite <- app_assoc in Hm; cbn [app] in Hm.
  - exact (proj1 (margins_after_newline _ _ Hm Hline)).
  - rewrite contains_app in Hlf. apply orb_false_iff in Hlf.
    exact (margins_after_return _ _ Hm (proj1 Hlf)).
Qed.

Lemma contains_rev (c : ascii) (s : text) :
  contains c (rev s) = contains c s.
Proof.
  unfold contains. induction s as [|x s IH]; simpl; [reflexivity|].
  rewrite existsb_app, IH. simpl. rewrite orb_false_r. apply orb_comm.
Qed.

Lemma contains_dropwhile (c : ascii) (p : ascii -> bool) (s : text) :
  contains c s = false -> contains c (dropwhile p s) = false.
Proof.
  induction s as [|x s IH]; simpl; [auto|]. intros H.
  destruct (p x); [|exact H].
  apply orb_false_iff in H. apply IH. tauto.
Qed.

Lemma contains_strip (c : ascii) (s : text) :
  contains c s = false -> contains c (strip s) = false.
Proof.
  intros H. unfold strip. rewrite contains_rev.
  apply contains_dropwhile. rewrite contains_rev.
  apply contains_dropwhile. exact H.
Qed.

(** A stream without any carriage return is of the kind. *)
Lemma margins_no_return (s : text) :
  contains CR s = false -> returns_in_margins s.
Proof.
  remember (length s) as n eqn:Hn. revert s Hn.
  induction n as [n IH] using lt_wf_ind. intros s Hn Hc.
  destruct (contains LF s) eqn:L; [|constructor; exact L].
  destruct (split_at_first_contains LF s L) as (seg & rest & E).
  apply split_at_first_some in E. destruct E as [-> Hseg].
  rewrite contains_app in Hc. apply orb_false_iff in Hc.
  destruct Hc as [Hc1 Hc2].
  constructor; [exact Hseg|apply contains_strip; exact Hc1|].
  apply (IH (length rest)).
  - rewrite Hn, length_app. simpl. lia.
  - reflexivity.
  - simpl in Hc2. exact Hc2.
Qed.

Lemma returns_before_newlines_suffix (a b : text) :
  returns_before_newlines (a ++ b) = true ->
  returns_before_newlines b = true.
Proof.
  induction a as [|c a IH]; [auto|]. cbn [app returns_before_newlines].
  intros H. apply andb_true_iff in H. apply IH. tauto.
Qed.

(** In such a stream a carriage return can only be the last character of a
    stretch that ends at a newline. *)
Lemma segment_return_last (rest : text) :
  forall seg,
    returns_before_newlines (seg ++ LF :: rest) = true ->
    contains LF seg = false ->
    contains CR seg = false
    \/ exists body, seg = body ++ [CR] /\ contains CR body = false.
Proof.
  induction seg as [|c seg IH]; [left; reflexivity|].
  cbn [app returns_before_newlines]. intros H Hlf.
  apply andb_true_iff in H. destruct H as [Hc H].
  assert (Hlf' : contains LF seg = false /\ Ascii.eqb LF c = false)
    by (unfold contains in *; cbn [existsb] in Hlf;
        apply orb_false_iff in Hlf; tauto).
  destruct Hlf' as [Hlf' Hcl].
  destruct (Ascii.eqb_spec c CR) as [->|Hne].
  - destruct seg as [|d seg].
    + right. exists []. auto.
    + exfalso. cbn [app] in Hc. apply Ascii.eqb_eq in Hc. subst d.
      simpl in Hlf'. discriminate.
  - assert (Hcr : Ascii.eqb CR c = false)
      by (destruct (Ascii.eqb_spec CR c); congruence).
    destruct (IH H Hlf') as [Hno|(body & -> & Hb)].
    + left. unfold contains in *. cbn [existsb]. rewrite Hcr, Hno.
      reflexivity.
    + right. exists (c :: body). split; [reflexivity|].
      unfold contains in *. cbn [existsb]. rewrite Hcr, Hb. reflexivity.
Qed.

(** A stream whose line ends are LF or CR LF is of the kind. *)
Lemma margins_crlf (s : text) :
  returns_before_newlines s = true -> returns_in_margins s.
Proof.
  remember (length s) as n eqn:Hn. revert s Hn.
  induction n as [n IH] using lt_wf_ind. intros s Hn Hs.
  destruct (contains LF s) eqn:L; [|constructor; exact L].
  destruct (split_at_first_contains LF s L) as (seg & rest & E).
  apply split_at_first_some in E. destruct E as [-> Hseg].
  constructor; [exact Hseg| |].
  - destruct (segment_return_last rest seg Hs Hseg) as [H|(body & -> & Hb)].
    + apply contains_strip. exact H.
    + rewrite strip_app_space_r by reflexivity.
      apply contains_strip. exact Hb.
  - apply (IH (length rest)).
    + rewrite Hn, length_app. simpl. lia.
    + reflexivity.
    + change (seg ++ LF :: rest) with (seg ++ [LF] ++ rest) in Hs.
      rewrite app_assoc in Hs.
      exact (returns_before_newlines_suffix _ _ Hs).
Qed.

(** *** Listening *)

Lemma listen_loop_fuel (n : nat) :
  forall buffer, length buffer <= n ->
    listen_loop n buffer = listen_loop (length buffer) buffer.
Proof.
  induction n as [n IH] using lt_wf_ind. intros buffer Hn.
  destruct n as [|n].
  - destruct buffer; [reflexivity|simpl in Hn; lia].
  - destruct buffer as [|c s]; [reflexivity|].
    cbn [listen_loop length].
    destruct (next_line (c :: s)) as [[line rest]|] eqn:E; [|reflexivity].
    pose proof (next_line_shorter _ E) as Hl. simpl in Hl, Hn.
    rewrite (IH n) by lia. rewrite (IH (length s)) by lia. reflexivity.
Qed.

Lemma listen_step (buffer : text) :
  listen buffer
  = match next_line buffer with
    | None => (None, buffer)
    | Some (line, rest) =>
        if nonempty (strip line)
        then if any_present (parse_timer_data (strip line))
             then (Some (parse_timer_data (strip line)), rest)
             else listen rest
        else listen rest
    end.
Proof.
  unfold listen. destruct buffer as [|c s]; [reflexivity|].
  cbn [listen_loop length].
  destruct (next_line (c :: s)) as [[line rest]|] eqn:E; [|reflexivity].
  pose proof (next_line_shorter _ E) as Hl. simpl in Hl.
  rewrite listen_loop_fuel by lia. reflexivity.
Qed.

(** The loop stops at the first line of the buffer that holds a time: the
    lines before it hold none, and without such a line the loop leaves the
    partial line of the buffer. *)
Lemma listen_first_timed_line (buffer : text) :
  (fst (listen buffer) = None ->
   Forall (fun l => any_present (parse_timer_data l) = false)
          (fst (frame buffer))
   /\ snd (listen buffer) = snd (frame buffer))
  /\ (forall times,
        fst (listen buffer) = Some times ->
        exists skipped line later,
          fst (frame buffer) = skipped ++ line :: later
          /\ Forall (fun l => any_present (parse_timer_data l) = false)
                    skipped
          /\ times = parse_timer_data line
          /\ any_present times = true).
Proof.
  remember (length buffer) as n eqn:Hn. revert buffer Hn.
  induction n as [n IH] using lt_wf_ind. intros buffer Hn.
  rewrite listen_step, frame_step.
  destruct (next_line buffer) as [[line rest]|] eqn:E.
  2:{ simpl. split; [auto|discriminate]. }
  pose proof (next_line_shorter _ E) as Hl.
  destruct (IH (length rest) ltac:(lia) rest eq_refl) as [IHn IHs].
  cbn [fst snd].
  destruct (nonempty (strip line)); [|split; assumption].
  destruct (any_present (parse_timer_data (strip line))) eqn:A.
  - split; [discriminate|]. intros times H. injection H as <-.
    exists [], (strip line), (fst (frame rest)). auto.
  - split.
    + intros H. destruct (IHn H) as [H1 H2]. split; [|exact H2].
      constructor; assumption.
    + intros times H.
      destruct (IHs times H) as (skipped & l & later & -> & Hs & Ht & Ha).
      exists (strip line :: skipped), l, later. auto.
Qed.

(** ** The loop against the lines of the stream *)

Lemma first_timed_app (l1 l2 : list text) :
  first_timed (l1 ++ l2)
  = match first_timed l1 with
    | Some times => Some times
    | None => first_timed l2
    end.
Proof.
  induction l1 as [|l l1 IH]; simpl; [reflexivity|].
  destruct (any_present (parse_timer_data l)); [reflexivity|exact IH].
Qed.

Lemma first_timed_none (lines : list text) :
  Forall (fun l => any_present (parse_timer_data l) = false) lines ->
  first_timed lines = None.
Proof.
  induction 1 as [|l lines Hl _ IH]; simpl; [reflexivity|].
  rewrite Hl. exact IH.
Qed.

Lemma listen_first_timed (buffer : text) :
  fst (listen buffer) = first_timed (fst (frame buffer)).
Proof.
  destruct (listen_first_timed_line buffer) as [Hnone Hsome].
  destruct (fst (listen buffer)) as [times|].
  - destruct (Hsome times eq_refl) as (skipped & line & later & -> & Hs & -> & Ha).
    rewrite first_timed_app, (first_timed_none Hs). simpl.
    rewrite Ha. reflexivity.
  - destruct (Hnone eq_refl) as [Hall _]. symmetry.
    apply first_timed_none. exact Hall.
Qed.

Lemma listen_polls_first_timed (chunks : list text) :
  forall buffer,
    chunks <> []
    \/ (contains LF buffer = false /\ contains CR buffer = false) ->
    returns_in_margins (buffer ++ concat chunks) ->
    fst (listen_polls buffer chunks)
    = first_timed (fst (frame (buffer ++ concat chunks))).
Proof.
  induction chunks as [|chunk rest IH]; intros buffer Hstart Hm.
  - destruct Hstart as [Hne|[Hlf Hcr]]; [contradiction Hne; reflexivity|].
    simpl. rewrite app_nil_r, frame_step, (next_line_none _ Hlf Hcr).
    reflexivity.
  - cbn [listen_polls concat]. cbn [concat] in Hm.
    rewrite app_assoc in Hm |- *.
    rewrite (frame_app (concat rest) (buffer ++ chunk) Hm). cbn [fst].
    rewrite first_timed_app, <- listen_first_timed.
    destruct (listen_first_timed_line (buffer ++ chunk)) as [Hnone _].
    destruct (frame_remainder (buffer ++ chunk)) as [Hlf Hcr].
    pose proof (margins_remainder (concat rest) (buffer ++ chunk) Hm) as Hm'.
    destruct (listen (buffer ++ chunk)) as [[times|] b]; cbn [fst snd] in *;
      [reflexivity|].
    destruct (Hnone eq_refl) as [_ ->].
    apply IH; [right; split; assumption|exact Hm'].
Qed.

(** The partial line is the end of the buffer. *)
Lemma frame_suffix (buffer : text) :
  exists taken, buffer = taken ++ snd (frame buffer).
Proof.
  remember (length buffer) as n eqn:Hn. revert buffer Hn.
  induction n as [n IH] using lt_wf_ind. intros buffer Hn.
  rewrite (frame_step buffer).
  destruct (next_line buffer) as [[line rest]|] eqn:E.
  - pose proof (next_line_shorter _ E) as Hshort.
    destruct (next_line_decompose _ E) as [d Hb].
    destruct (IH (length rest) ltac:(lia) rest eq_refl) as [taken Ht].
    exists (line ++ d :: taken). cbn [snd].
    rewrite Hb at 1. rewrite Ht at 1. rewrite <- app_assoc. reflexivity.
  - exists []. reflexivity.
Qed.

(** Without a line that completes the heat, the polls leave the partial
    line of the whole stream. *)
Lemma listen_polls_remainder (chunks : list text) :
  forall buffer,
    chunks <> []
    \/ (contains LF buffer = false /\ contains CR buffer = false) ->
    returns_in_margins (buffer ++ concat chunks) ->
    fst (listen_polls buffer chunks) = None ->
    snd (listen_polls buffer chunks)
    = snd (frame (buffer ++ concat chunks)).
Proof.
  induction chunks as [|chunk rest IH]; intros buffer Hstart Hm Hnone.
  - destruct Hstart as [Hne|[Hlf Hcr]]; [contradiction Hne; reflexivity|].
    simpl. rewrite app_nil_r, frame_step, (next_line_none _ Hlf Hcr).
    reflexivity.
  - cbn [listen_polls concat] in *. rewrite app_assoc in Hm |- *.
    rewrite (frame_app (concat rest) (buffer ++ chunk) Hm). cbn [snd].
    destruct (listen_first_timed_line (buffer ++ chunk)) as [Hn _].
    destruct (frame_remainder (buffer ++ chunk)) as [Hlf Hcr].
    pose proof (margins_remainder (concat rest) (buffer ++ chunk) Hm) as Hm'.
    destruct (listen (buffer ++ chunk)) as [[times|] b]; cbn [fst snd] in *;
      [discriminate Hnone|].
    destruct (Hn eq_refl) as [_ ->].
    apply IH; [right; split; assumption|exact Hm'|exact Hnone].
Qed.

(** The line that completes the heat, in the buffer: what follows its
    delimiter is what stays buffered. *)
Lemma listen_completing_line (n : nat) :
  forall buffer times,
    length buffer <= n ->
    fst (listen buffer) = Some times ->
    exists skipped line d,
      buffer = skipped ++ line ++ d :: snd (listen buffer)
      /\ (d = LF \/ d = CR)
      /\ contains d line = false
      /\ times = parse_timer_data (strip line)
      /\ any_present times = true.
Proof.
  induction n as [|n IH]; intros buffer times Hlen.
  - destruct buffer; [|simpl in Hlen; lia]. discriminate.
  - rewrite (listen_step buffer).
    destruct (next_line buffer) as [[line rest]|] eqn:E; [|discriminate].
    pose proof (next_line_shorter _ E) as Hshort.
    assert (Hd : exists d, buffer = line ++ d :: rest
                           /\ (d = LF \/ d = CR)
                           /\ contains d line = false).
    { destruct (next_line_delim _ E) as [[H1 H2]|(H1 & _ & H2)];
        [exists LF|exists CR]; auto. }
    destruct Hd as (d & Hb & Hd & Hc).
    assert (Hrec : fst (listen rest) = Some times ->
                   exists skipped line0 d0,
                     buffer = skipped ++ line0 ++ d0 :: snd (listen rest)
                     /\ (d0 = LF \/ d0 = CR)
                     /\ contains d0 line0 = false
                     /\ times = parse_timer_data (strip line0)
                     /\ any_present times = true).
    { intros H. destruct (IH rest times) as (sk & l0 & d0 & H1 & H2);
        [lia|exact H|].
      exists (line ++ d :: sk), l0, d0. split; [|exact H2].
      rewrite Hb, H1 at 1. rewrite <- app_assoc. reflexivity. }
    destruct (nonempty (strip line)); [|exact Hrec].
    destruct (any_present (parse_timer_data (strip line))) eqn:Ha;
      [|exact Hrec].
    cbn [fst snd]. intros H. injection H as <-.
    exists [], line, d. simpl. auto.
Qed.

(** C3, as the code has it.  A buffer that holds a newline is split at its
    first newline, even when a carriage return comes earlier; only a buffer
    without a newline is split at its first carriage return; a buffer with
    neither is left alone.  The line before the delimiter is trimmed; an
    empty line and a line without a time are passed over, and the first
    line that holds a time completes the heat and ends the loop: what
    follows its delimiter stays buffered.  Without such a line the loop
    runs until the buffer holds no delimiter.  For a stream of text whose
    carriage returns never stand inside a line (newline-only,
    carriage-return-only and CR LF streams among them, see
    [margins_no_return], [margins_tail] and [margins_crlf]), polling it in
    any chunks completes the heat with the same times as reading it in one
    piece, and without a completed heat leaves the same partial line. *)
Theorem line_framer_newline_first (buffer : text) (chunks : list text) :
  (contains LF buffer = true ->
   exists line rest,
     next_line buffer = Some (line, rest)
     /\ buffer = line ++ LF :: rest /\ contains LF line = false)
  /\ (contains LF buffer = false -> contains CR buffer = true ->
      exists line rest,
        next_line buffer = Some (line, rest)
        /\ buffer = line ++ CR :: rest /\ contains CR line = false)
  /\ (contains LF buffer = false -> contains CR buffer = false ->
      next_line buffer = None)
  /\ listen buffer
     = match next_line buffer with
       | None => (None, buffer)
       | Some (line, rest) =>
           if nonempty (strip line)
           then if any_present (parse_timer_data (strip line))
                then (Some (parse_timer_data (strip line)), rest)
                else listen rest
           else listen rest
       end
  /\ (forall times,
        fst (listen buffer) = Some times ->
        exists skipped line d,
          buffer = skipped ++ line ++ d :: snd (listen buffer)
          /\ (d = LF \/ d = CR)
          /\ contains d line = false
          /\ times = parse_timer_data (strip line)
          /\ any_present times = true)
  /\ (fst (listen buffer) = None ->
      contains LF (snd (listen buffer)) = false
      /\ contains CR (snd (listen buffer)) = false
      /\ exists taken, buffer = taken ++ snd (listen buffer))
  /\ (chunks <> []
      \/ (contains LF buffer = false /\ contains CR buffer = false) ->
      returns_in_margins (buffer ++ concat chunks) ->
      fst (listen_polls buffer chunks)
      = fst (listen (buffer ++ concat chunks))
      /\ (fst (listen_polls buffer chunks) = None ->
          snd (listen_polls buffer chunks)
          = snd (listen (buffer ++ concat chunks)))).
Proof.
  split; [apply next_line_newline|].
  split; [apply next_line_return|].
  split; [apply next_line_none|].
  split; [apply listen_step|].
  split; [intros times; apply (@listen_completing_line (length buffer));
          apply Nat.le_refl|].
  split.
  - intros Hnone.
    destruct (listen_first_timed_line buffer) as [Hn _].
    destruct (Hn Hnone) as [_ ->].
    destruct (frame_remainder buffer) as [Hlf Hcr].
    split; [exact Hlf|]. split; [exact Hcr|].
    apply frame_suffix.
  - intros Hstart Hm.
    pose proof (@listen_polls_first_timed chunks buffer Hstart Hm) as Hfst.
    rewrite <- listen_first_timed in Hfst.
    split; [exact Hfst|]. intros Hnone.
    rewrite (@listen_polls_remainder chunks buffer Hstart Hm Hnone).
    destruct (listen_first_timed_line (buffer ++ concat chunks)) as [Hn _].
    rewrite Hfst in Hnone. destruct (Hn Hnone) as [_ ->]. reflexivity.
Qed.

Lemma line_framer_newline_first_witness :
  (exists line rest,
      next_line (txt "a" ++ CR :: txt "b" ++ [LF]) = Some (line, rest)
      /\ txt "a" ++ CR :: txt "b" ++ [LF] = line ++ LF :: rest)
  /\ fst (listen_polls (txt "REA")
            [txt "DY" ++ [CR]; LF :: txt "1.00"; txt "00 2.0000" ++ [CR; LF];
             txt "3.0000" ++ [CR; LF]])
     = Some [Some 10000%Z; Some 20000%Z; None; None].
Proof.
  destruct (line_framer_newline_first
              (txt "a" ++ CR :: txt "b" ++ [LF]) [])
    as (H1 & _).
  destruct (line_framer_newline_first
              (txt "REA")
              [txt "DY" ++ [CR]; LF :: txt "1.00"; txt "00 2.0000" ++ [CR; LF];
               txt "3.0000" ++ [CR; LF]])
    as (_ & _ & _ & _ & _ & _ & H7).
  split.
  - destruct (H1 eq_refl) as (line & rest & E & Hs & _).
    exists line, rest. split; assumption.
  - destruct H7 as [H7 _].
    + left. discriminate.
    + apply margins_crlf. vm_compute. reflexivity.
    + rewrite H7. vm_compute. reflexivity.
Defined.

(** The framer of the specification and the framer of the code differ when a
    carriage return comes before content and a newline: the code splits at
    the newline and keeps the carriage return inside the line, and the heat
    then depends on where the chunks end.  In one piece the line
    [1.0000 CR 2.0000] gives lanes 1 and 2 a time; cut after the carriage
    return, the heat is completed by [1.0000] alone. *)
Lemma line_framer_return_before_newline :
  next_line (txt "a" ++ CR :: txt "b" ++ [LF])
  = Some (txt "a" ++ CR :: txt "b", [])
  /\ spec_next_line (txt "a" ++ CR :: txt "b" ++ [LF])
     = Some (txt "a", txt "b" ++ [LF])
  /\ next_line (txt "a" ++ CR :: txt "b" ++ [LF])
     <> spec_next_line (txt "a" ++ CR :: txt "b" ++ [LF])
  /\ listen_polls [] [txt "1.0000" ++ CR :: txt "2.0000" ++ [LF]]
     = (Some [Some 10000%Z; Some 20000%Z; None; None], [])
  /\ listen_polls [] [txt "1.0000" ++ [CR]; txt "2.0000" ++ [LF]]
     = (Some [Some 10000%Z; None; None; None], [])
  /\ fst (listen_polls [] [txt "1.0000" ++ [CR]; txt "2.0000" ++ [LF]])
     <> fst (listen_polls [] [txt "1.0000" ++ CR :: txt "2.0000" ++ [LF]]).
Proof. vm_compute. repeat split; discriminate. Qed.

(** ** End to end *)

(** Alice and Bob are registered through the GUI; heat 1 has Alice on lane 1
    and Bob on lane 2; the line [1.2345 1.1111 ] arrives.  Bob wins on
    lane 2 and leads the standings. *)
Example end_to_end_heat :
  let st0 := fst (add_competitor (txt "Bob ")
                    (fst (add_competitor (txt " Alice") initial_state))) in
  let line := txt "1.2345 1.1111 " in
  let heard := listen (txt "READY" ++ [CR; LF] ++ line ++ [CR; LF]) in
  let h := {| hi_assignments := [(1, "Alice"); (2, "Bob")];
              hi_times := parse_timer_data line;
              hi_timestamp := "2024-01-01 10:00:00" |} in
  let st := fst (run_heat Gui h st0) in
  dict_keys (competitors st0) = ["Alice"; "Bob"]
  /\ heard = (Some [Some 12345%Z; Some 11111%Z; None; None], [])
  /\ find_winner (parse_timer_data line) = Some (2, 11111%Z)
  /\ map (fun item => (fst item, best_time (snd item), races_count (snd item)))
         (sorted_competitors (competitors st))
     = [("Bob", Some 11111%Z, 1); ("Alice", Some 12345%Z, 1)]
  /\ heat_number st = 2%Z.
Proof. vm_compute. repeat split; reflexivity. Qed.

(** * Further properties *)

(** ** More on dictionaries *)

Section DictMore.
Variables K V : Type.
Variable keq : K -> K -> bool.
Hypothesis keq_spec : forall a b, reflect (a = b) (keq a b).

Lemma dict_get_none_keys (k : K) (d : list (K * V)) :
  dict_get keq k d = None <-> ~ In k (dict_keys d).
Proof.
  unfold dict_keys. induction d as [|[k' v'] d IH]; simpl; [tauto|].
  destruct (keq_spec k k') as [->|Hne].
  - split; [discriminate|]. intros H. exfalso. apply H. left. reflexivity.
  - rewrite IH. split; [intros H [E|E]; congruence || auto|tauto].
Qed.

Lemma dict_mem_in_keys (k : K) (d : list (K * V)) :
  dict_mem keq k d = true <-> In k (dict_keys d).
Proof.
  unfold dict_mem. destruct (dict_get keq k d) eqn:E.
  - split; [|reflexivity]. intros _.
    apply (@dict_get_in K V keq keq_spec) in E.
    unfold dict_keys. apply in_map_iff. exists (k, v). auto.
  - apply dict_get_none_keys in E. split; [discriminate|tauto].
Qed.

(** Assigning to a key that is absent appends the entry. *)
Lemma dict_set_absent (k : K) (v : V) (d : list (K * V)) :
  dict_get keq k d = None -> dict_set keq k v d = d ++ [(k, v)].
Proof.
  induction d as [|[k' v'] d IH]; simpl; [reflexivity|].
  destruct (keq k k'); [discriminate|]. intros H. rewrite IH by exact H.
  reflexivity.
Qed.

Lemma dict_set_keys_cases (k : K) (v : V) (d : list (K * V)) :
  dict_keys (dict_set keq k v d) = dict_keys d
  \/ (~ In k (dict_keys d)
      /\ dict_keys (dict_set keq k v d) = dict_keys d ++ [k]).
Proof.
  destruct (dict_get keq k d) as [v0|] eqn:E.
  - left. exact (@dict_keys_set_present K V keq keq_spec k v v0 d E).
  - right. split; [apply dict_get_none_keys; exact E|].
    rewrite dict_set_absent by exact E. unfold dict_keys.
    rewrite map_app. reflexivity.
Qed.

Lemma dict_set_nodup (k : K) (v : V) (d : list (K * V)) :
  NoDup (dict_keys d) -> NoDup (dict_keys (dict_set keq k v d)).
Proof.
  intros H. destruct (dict_set_keys_cases k v d) as [->|[Hn ->]];
    [exact H|].
  apply NoDup_app; [exact H|repeat constructor; simpl; tauto|].
  intros x Hx [<-|[]]. exact (Hn Hx).
Qed.

Lemma in_dict_set (k k0 : K) (v v0 : V) (d : list (K * V)) :
  In (k, v) (dict_set keq k0 v0 d) -> (k = k0 /\ v = v0) \/ In (k, v) d.
Proof.
  induction d as [|[k' v'] d IH]; simpl.
  - intros [H|[]]. injection H as <- <-. auto.
  - destruct (keq_spec k0 k') as [->|Hne]; simpl.
    + intros [H|H]; [injection H as <- <-; auto|auto].
    + intros [H|H]; [auto|]. destruct (IH H); auto.
Qed.

Lemma dict_del_absent (k : K) (d : list (K * V)) :
  ~ In k (dict_keys d) -> dict_del keq k d = None.
Proof.
  unfold dict_keys. induction d as [|[k' v'] d IH]; simpl; [reflexivity|].
  intros H. destruct (keq_spec k k') as [->|Hne]; [tauto|].
  rewrite IH by tauto. reflexivity.
Qed.

(** Deleting the key at place [idx] removes the entry at that place. *)
Lemma dict_del_nth (dflt : K) (d : list (K * V)) :
  NoDup (dict_keys d) ->
  forall idx, idx < length d ->
    dict_del keq (nth idx (dict_keys d) dflt) d = Some (remove_at idx d).
Proof.
  unfold dict_keys. induction d as [|[k' v'] d IH]; intros Hnd idx Hidx;
    [simpl in Hidx; lia|].
  simpl in Hnd. inversion Hnd as [|? ? Hnot Hnd']; subst.
  destruct idx as [|idx]; simpl.
  - destruct (keq_spec k' k'); [reflexivity|congruence].
  - simpl in Hidx.
    destruct (keq_spec (nth idx (map fst d) dflt) k') as [E|Hne].
    + exfalso. apply Hnot. rewrite <- E. apply nth_In.
      rewrite length_map. lia.
    + rewrite IH by (assumption || lia). reflexivity.
Qed.

Lemma dict_del_set_absent (k : K) (v : V) (d : list (K * V)) :
  dict_get keq k d = None -> dict_del keq k (dict_set keq k v d) = Some d.
Proof.
  induction d as [|[k' v'] d IH]; simpl.
  - intros _. destruct (keq_spec k k); [reflexivity|congruence].
  - destruct (keq_spec k k') as [->|Hne]; [discriminate|]. intros H. simpl.
    destruct (keq_spec k k'); [congruence|]. rewrite IH by exact H.
    reflexivity.
Qed.

Lemma dict_get_remove_at (k : K) (d : list (K * V)) :
  NoDup (dict_keys d) ->
  forall idx,
    dict_get keq k (remove_at idx d)
    = if keq k (nth idx (dict_keys d) k) && (idx <? length d)
      then None else dict_get keq k d.
Proof.
  unfold dict_keys. induction d as [|[k' v'] d IH]; intros Hnd idx.
  - destruct idx; simpl; rewrite andb_false_r; reflexivity.
  - simpl in Hnd. inversion Hnd as [|? ? Hnot Hnd']; subst.
    destruct idx as [|idx]; simpl.
    + destruct (keq_spec k k') as [->|Hne]; simpl; [|reflexivity].
      apply dict_get_none_keys. exact Hnot.
    + rewrite IH by exact Hnd'.
      change (S idx <? S (length d)) with (idx <? length d).
      destruct (keq_spec k k') as [->|Hne]; [|reflexivity].
      destruct (Nat.ltb_spec idx (length d)) as [Hlt|Hge].
      * destruct (keq_spec k' (nth idx (map fst d) k')) as [E|_];
          [|reflexivity].
        exfalso. apply Hnot. rewrite E. apply nth_In.
        rewrite length_map. exact Hlt.
      * rewrite andb_false_r. reflexivity.
Qed.
End DictMore.

Lemma remove_at_map (A B : Type) (f : A -> B) (l : list A) :
  forall idx, map f (remove_at idx l) = remove_at idx (map f l).
Proof.
  induction l as [|x l IH]; intros [|idx]; simpl; try reflexivity.
  rewrite IH. reflexivity.
Qed.

Lemma remove_at_incl (A : Type) (l : list A) :
  forall idx x, In x (remove_at idx l) -> In x l.
Proof.
  induction l as [|y l IH]; intros [|idx] x; simpl; try tauto.
  intros [H|H]; [auto|right; eauto].
Qed.

Lemma remove_at_nodup (A : Type) (l : list A) :
  NoDup l -> forall idx, NoDup (remove_at idx l).
Proof.
  induction 1 as [|y l Hn Hnd IH]; intros [|idx]; simpl;
    try constructor; auto.
  intros Hin. apply Hn. exact (remove_at_incl _ _ _ Hin).
Qed.

Lemma remove_at_forall (A : Type) (P : A -> Prop) (l : list A) :
  Forall P l -> forall idx, Forall P (remove_at idx l).
Proof.
  intros H idx. apply Forall_forall. intros x Hin.
  rewrite Forall_forall in H. exact (H _ (remove_at_incl _ _ _ Hin)).
Qed.

Lemma remove_at_out_of_range (A : Type) (l : list A) :
  forall idx, length l <= idx -> remove_at idx l = l.
Proof.
  induction l as [|y l IH]; intros [|idx] H; simpl in *; try reflexivity;
    [lia|].
  rewrite IH by lia. reflexivity.
Qed.

Lemma remove_at_last (A : Type) (l : list A) (x : A) :
  remove_at (length l) (l ++ [x]) = l.
Proof. induction l as [|y l IH]; simpl; [reflexivity|]. rewrite IH. reflexivity. Qed.

(** ** More on trimming *)

Lemma dropwhile_split (p : ascii -> bool) (s : text) :
  exists pre, s = pre ++ dropwhile p s /\ forallb p pre = true.
Proof.
  induction s as [|c s IH]; simpl; [exists []; auto|].
  destruct (p c) eqn:E.
  - destruct IH as (pre & H1 & H2). exists (c :: pre). simpl.
    rewrite E, H2, <- H1. auto.
  - exists []. auto.
Qed.

Lemma dropwhile_head (p : ascii -> bool) (s : text) (c : ascii) (r : text) :
  dropwhile p s = c :: r -> p c = false.
Proof.
  induction s as [|x s IH]; simpl; [discriminate|].
  destruct (p x) eqn:E; [exact IH|]. intros H. injection H as <- _. exact E.
Qed.

Lemma dropwhile_fixed (p : ascii -> bool) (s : text) :
  match s with [] => True | c :: _ => p c = false end ->
  dropwhile p s = s.
Proof. destruct s as [|c s]; simpl; [reflexivity|]. intros ->. reflexivity. Qed.

(** Trimming twice is trimming once. *)
Lemma strip_idempotent (s : text) : strip (strip s) = strip s.
Proof.
  unfold strip.
  remember (dropwhile is_space s) as a eqn:Ea.
  remember (dropwhile is_space (rev a)) as b eqn:Eb.
  assert (H1 : dropwhile is_space (rev b) = rev b).
  { apply dropwhile_fixed.
    destruct (rev b) as [|c r] eqn:Er; [exact I|].
    destruct (dropwhile_split is_space (rev a)) as (pre & Hs & _).
    rewrite <- Eb in Hs. apply (f_equal (@rev ascii)) in Hs.
    rewrite rev_involutive, rev_app_distr, Er in Hs.
    simpl in Hs. symmetry in Ea. rewrite Hs in Ea.
    exact (dropwhile_head _ _ Ea). }
  rewrite H1, rev_involutive.
  assert (H2 : dropwhile is_space b = b).
  { apply dropwhile_fixed. destruct b as [|c r]; [exact I|].
    symmetry in Eb. exact (dropwhile_head _ _ Eb). }
  rewrite H2. reflexivity.
Qed.

(** ** GUI: the setup tab *)

Lemma setup_ok_initial : setup_ok initial_setup_tab.
Proof. repeat split; constructor. Qed.

Lemma add_competitor_click_ok (entry : text) (g : setup_tab) :
  setup_ok g -> setup_ok (fst (add_competitor_click entry g)).
Proof.
  intros (Hl & Hnd & Hnames & Hfresh).
  unfold add_competitor_click, add_competitor.
  destruct (nonempty (strip entry)) eqn:Hn; simpl;
    [|repeat split; assumption].
  destruct (dict_mem String.eqb (string_of_list_ascii (strip entry))
              (competitors (tab_state g))) eqn:Hm; simpl;
    [repeat split; assumption|].
  assert (Hg : dict_get String.eqb (string_of_list_ascii (strip entry))
                 (competitors (tab_state g)) = None).
  { unfold dict_mem in Hm.
    destruct (dict_get String.eqb _ (competitors (tab_state g)));
      [discriminate|reflexivity]. }
  rewrite (dict_set_absent String.eqb _ fresh_stats _ Hg).
  pose proof (proj1 (dict_get_none_keys String.eqb String.eqb_spec _ _) Hg) as Hnot.
  repeat split; simpl.
  - unfold dict_keys in *. rewrite map_app, Hl. reflexivity.
  - apply NoDup_app; [exact Hnd|repeat constructor; simpl; tauto|].
    intros x Hx [<-|[]]. rewrite Hl in Hx. exact (Hnot Hx).
  - apply Forall_app. split; [exact Hnames|]. constructor; [|constructor].
    split.
    + destruct (strip entry); [discriminate|]. simpl. discriminate.
    + unfold trimmed. rewrite list_ascii_of_string_of_list_ascii.
      apply strip_idempotent.
  - apply Forall_app. split; [exact Hfresh|]. repeat constructor.
Qed.

Lemma remove_competitor_ok (selection : list nat) (confirm : bool)
    (g : setup_tab) :
  setup_ok g -> setup_ok (fst (remove_competitor selection confirm g)).
Proof.
  intros Hok. pose proof Hok as (Hl & Hnd & Hnames & Hfresh).
  unfold remove_competitor.
  destruct selection as [|idx more]; [exact Hok|].
  destruct confirm; [|exact Hok].
  destruct (dict_del String.eqb (nth idx (competitor_listbox g) EmptyString)
              (competitors (tab_state g))) as [cs|] eqn:E; [|exact Hok].
  simpl.
  destruct (Nat.lt_ge_cases idx (length (competitors (tab_state g))))
    as [Hlt|Hge].
  - rewrite Hl in E, Hnd.
    rewrite (dict_del_nth String.eqb String.eqb_spec EmptyString _ Hnd Hlt) in E.
    injection E as <-.
    repeat split; simpl.
    + rewrite Hl. unfold dict_keys. rewrite remove_at_map. reflexivity.
    + apply remove_at_nodup. rewrite Hl. exact Hnd.
    + apply remove_at_forall. exact Hnames.
    + apply remove_at_forall. exact Hfresh.
  - exfalso. rewrite nth_overflow in E
      by (rewrite Hl; unfold dict_keys; rewrite length_map; exact Hge).
    rewrite (dict_del_absent String.eqb String.eqb_spec) in E;
      [discriminate|].
    intros Hin. rewrite <- Hl in Hin. rewrite Forall_forall in Hnames.
    destruct (Hnames _ Hin) as [Hne _]. congruence.
Qed.

Lemma setup_clicks_ok (clicks : list setup_click) :
  forall g, setup_ok g -> setup_ok (fold_left setup_step clicks g).
Proof.
  induction clicks as [|c clicks IH]; intros g Hg; [exact Hg|].
  simpl. apply IH. destruct c; simpl.
  - apply add_competitor_click_ok. exact Hg.
  - apply remove_competitor_ok. exact Hg.
Qed.

(** X1.  Whatever is clicked on the setup tab, in any order, the listbox
    shows exactly the names of the ledger in its order, no name is there
    twice, every name is non-empty and has no white space around it, and
    every record is an empty one. *)
Theorem setup_tab_keeps_listbox_and_ledger (clicks : list setup_click) :
  setup_ok (fold_left setup_step clicks initial_setup_tab).
Proof. apply setup_clicks_ok. exact setup_ok_initial. Qed.

(** X2.  With the listbox showing the ledger, removing the selected item
    after the dialog is confirmed raises nothing, takes exactly the
    competitor shown at that place out of the ledger and the listbox, and
    leaves every other competitor with its record, in the same order. *)
Theorem remove_competitor_removes_selected (g : setup_tab) (idx : nat)
    (more : list nat) :
  competitor_listbox g = dict_keys (competitors (tab_state g)) ->
  NoDup (competitor_listbox g) ->
  idx < length (competitor_listbox g) ->
  exists g',
    remove_competitor (idx :: more) true g = (g', Removed)
    /\ competitor_listbox g' = remove_at idx (competitor_listbox g)
    /\ competitors (tab_state g')
       = remove_at idx (competitors (tab_state g))
    /\ dict_get String.eqb (nth idx (competitor_listbox g) EmptyString)
                (competitors (tab_state g')) = None
    /\ forall other,
         other <> nth idx (competitor_listbox g) EmptyString ->
         dict_get String.eqb other (competitors (tab_state g'))
         = dict_get String.eqb other (competitors (tab_state g)).
Proof.
  intros Hl Hnd Hidx. unfold remove_competitor.
  assert (Hlen : idx < length (competitors (tab_state g))).
  { rewrite Hl in Hidx. unfold dict_keys in Hidx.
    rewrite length_map in Hidx. exact Hidx. }
  rewrite Hl in Hnd |- *.
  rewrite (dict_del_nth String.eqb String.eqb_spec EmptyString _ Hnd Hlen).
  eexists. split; [reflexivity|]. simpl.
  split; [reflexivity|]. split; [reflexivity|].
  assert (Hn : forall k,
             nth idx (dict_keys (competitors (tab_state g))) k
             = nth idx (dict_keys (competitors (tab_state g))) EmptyString).
  { intros k. apply nth_indep. unfold dict_keys. rewrite length_map.
    exact Hlen. }
  split.
  - rewrite (dict_get_remove_at String.eqb String.eqb_spec _ _ Hnd).
    rewrite (Hn (nth idx (dict_keys (competitors (tab_state g)))
                     EmptyString)).
    rewrite String.eqb_refl. apply Nat.ltb_lt in Hlen. rewrite Hlen.
    reflexivity.
  - intros other Hne.
    rewrite (dict_get_remove_at String.eqb String.eqb_spec _ _ Hnd).
    rewrite (Hn other).
    destruct (String.eqb_spec other
                (nth idx (dict_keys (competitors (tab_state g)))
                     EmptyString)); [congruence|reflexivity].
Qed.

Lemma remove_competitor_removes_selected_witness :
  exists g',
    remove_competitor [0] true
      (fold_left setup_step [ClickAdd (txt "Alice"); ClickAdd (txt "Bob")]
                 initial_setup_tab)
    = (g', Removed)
    /\ competitor_listbox g' = ["Bob"]
    /\ dict_keys (competitors (tab_state g')) = ["Bob"].
Proof.
  destruct (@remove_competitor_removes_selected
              (fold_left setup_step
                 [ClickAdd (txt "Alice"); ClickAdd (txt "Bob")]
                 initial_setup_tab) 0 [])
    as (g' & H1 & H2 & H3 & _).
  - reflexivity.
  - vm_compute. repeat constructor; simpl; intuition discriminate.
  - vm_compute. lia.
  - exists g'. split; [exact H1|]. rewrite H2, H3. split; reflexivity.
Defined.

(** X3.  Adding a competitor and then removing the last item of the listbox
    gives back the setup tab as it was: ledger, order and listbox. *)
Theorem add_then_remove_last_restores (entry : text) (g g1 : setup_tab) :
  add_competitor_click entry g = (g1, Added) ->
  remove_competitor [length (competitor_listbox g)] true g1 = (g, Removed).
Proof.
  unfold add_competitor_click, add_competitor.
  destruct (nonempty (strip entry)); simpl; [|discriminate].
  destruct (dict_mem String.eqb (string_of_list_ascii (strip entry))
              (competitors (tab_state g))) eqn:Hm; simpl; [discriminate|].
  intros H. injection H as <-.
  assert (Hg : dict_get String.eqb (string_of_list_ascii (strip entry))
                 (competitors (tab_state g)) = None).
  { unfold dict_mem in Hm.
    destruct (dict_get String.eqb _ (competitors (tab_state g)));
      [discriminate|reflexivity]. }
  unfold remove_competitor. simpl.
  rewrite app_nth2, Nat.sub_diag by lia. simpl.
  rewrite (dict_del_set_absent String.eqb String.eqb_spec _ fresh_stats _ Hg).
  rewrite remove_at_last.
  destruct g as [[cs asg n hf sf] lb]. reflexivity.
Qed.

Lemma add_then_remove_last_restores_witness :
  remove_competitor [1] true
    (fst (add_competitor_click (txt " Bob ")
            (fst (add_competitor_click (txt "Alice") initial_setup_tab))))
  = (fst (add_competitor_click (txt "Alice") initial_setup_tab), Removed).
Proof.
  apply (@add_then_remove_last_restores (txt " Bob ")
           (fst (add_competitor_click (txt "Alice") initial_setup_tab))).
  reflexivity.
Defined.

(** ** Console front end: registration *)

Lemma dict_set_length (k : string) (v : stats) (cs : ledger) :
  length (dict_set String.eqb k v cs) <= S (length cs).
Proof.
  induction cs as [|[k' v'] cs IH]; simpl; [lia|].
  destruct (String.eqb k k'); simpl; lia.
Qed.

Lemma dict_set_fresh (k : string) (cs : ledger) :
  Forall (fun item => snd item = fresh_stats) cs ->
  Forall (fun item => snd item = fresh_stats)
         (dict_set String.eqb k fresh_stats cs).
Proof.
  induction 1 as [|[k' v'] cs Hx Hcs IH]; simpl.
  - repeat constructor.
  - destruct (String.eqb k k'); constructor; auto.
Qed.

Lemma setup_competitors_ok (entries : list text) :
  forall remaining cs,
    NoDup (dict_keys cs) ->
    Forall (fun item => snd item = fresh_stats) cs ->
    length (setup_competitors remaining entries cs) <= length cs + remaining
    /\ NoDup (dict_keys (setup_competitors remaining entries cs))
    /\ Forall (fun item => snd item = fresh_stats)
              (setup_competitors remaining entries cs)
    /\ forall name,
         In name (dict_keys (setup_competitors remaining entries cs)) ->
         In name (dict_keys cs)
         \/ exists entry,
              In entry entries
              /\ nonempty (strip entry) = true
              /\ name = string_of_list_ascii (strip entry).
Proof.
  induction entries as [|entry entries IH]; intros remaining cs Hnd Hfresh.
  - destruct remaining; simpl; repeat split; auto; lia.
  - destruct remaining as [|r]; [simpl; repeat split; auto; lia|].
    cbn [setup_competitors]. unfold register_prompt.
    destruct (nonempty (strip entry)) eqn:Hn.
    + destruct (IH r (dict_set String.eqb (string_of_list_ascii (strip entry))
                        fresh_stats cs)) as (H1 & H2 & H3 & H4).
      * apply (dict_set_nodup String.eqb String.eqb_spec). exact Hnd.
      * apply dict_set_fresh. exact Hfresh.
      * split.
        { pose proof (dict_set_length (string_of_list_ascii (strip entry))
                        fresh_stats cs). lia. }
        split; [exact H2|]. split; [exact H3|].
        intros name Hin. destruct (H4 name Hin) as [Hk|(e & He & Hne & ->)].
        -- destruct (dict_set_keys_cases String.eqb String.eqb_spec
                       (string_of_list_ascii (strip entry)) fresh_stats cs)
             as [E|[_ E]]; rewrite E in Hk.
           ++ left. exact Hk.
           ++ apply in_app_or in Hk. destruct Hk as [Hk|[<-|[]]];
                [left; exact Hk|].
              right. exists entry. simpl. auto.
        -- right. exists e. simpl. auto.
    + destruct (IH (S r) cs Hnd Hfresh) as (H1 & H2 & H3 & H4).
      split; [exact H1|]. split; [exact H2|]. split; [exact H3|].
      intros name Hin. destruct (H4 name Hin) as [Hk|(e & He & Hne & ->)];
        [left; exact Hk|].
      right. exists e. simpl. auto.
Qed.

(** X4.  The console setup that asks for [n] names registers at most [n]
    competitors, and fewer when a name is typed twice; no name is in the
    ledger twice, every name is a line that was typed, trimmed and not
    empty, and every record is an empty one. *)
Theorem console_setup_registers_typed_names (n : nat)
    (entries : list text) :
  length (setup_competitors n entries []) <= n
  /\ NoDup (dict_keys (setup_competitors n entries []))
  /\ Forall (fun item => snd item = fresh_stats)
            (setup_competitors n entries [])
  /\ forall name,
       In name (dict_keys (setup_competitors n entries [])) ->
       name <> EmptyString
       /\ trimmed (list_ascii_of_string name)
       /\ exists entry,
            In entry entries /\ name = string_of_list_ascii (strip entry).
Proof.
  destruct (@setup_competitors_ok entries n [] (NoDup_nil _) (Forall_nil _))
    as (H1 & H2 & H3 & H4).
  split; [exact H1|]. split; [exact H2|]. split; [exact H3|].
  intros name Hin. destruct (H4 name Hin) as [[]|(e & He & Hne & ->)].
  split; [destruct (strip e); [discriminate|simpl; discriminate]|].
  split.
  - unfold trimmed. rewrite list_ascii_of_string_of_list_ascii.
    apply strip_idempotent.
  - exists e. auto.
Qed.

Lemma console_setup_registers_typed_names_witness :
  In "Bob" (dict_keys (setup_competitors 2 [txt EmptyString; txt " Bob"; txt "Ann"] []))
  /\ "Bob" <> EmptyString
  /\ trimmed (list_ascii_of_string "Bob").
Proof.
  split; [vm_compute; tauto|].
  destruct (console_setup_registers_typed_names 2
              [txt EmptyString; txt " Bob"; txt "Ann"]) as (_ & _ & _ & H).
  destruct (H "Bob") as (H1 & H2 & _); [vm_compute; tauto|].
  split; assumption.
Defined.

(** ** Console front end: [assign_heat] *)

Lemma assign_lane_sound (available : list string) (cs : ledger)
    (inputs : list text) :
  forall name rest,
    assign_lane available cs inputs = Some (Some name, rest) ->
    In name available \/ dict_mem String.eqb name cs = true.
Proof.
  induction inputs as [|typed inputs IH]; intros name rest;
    [discriminate|].
  cbn [assign_lane]. destruct (nonempty (strip typed)); simpl;
    [|discriminate].
  destruct (match py_int (strip typed) with
            | Some n =>
                if ((0 <=? n - 1) && (n - 1 <? Z.of_nat (length available)))%Z
                then nth_error available (Z.to_nat (n - 1))
                else None
            | None => None
            end) as [c|] eqn:E.
  - intros H. injection H as <- <-. left.
    destruct (py_int (strip typed)) as [n|]; [|discriminate].
    destruct ((0 <=? n - 1) && (n - 1 <? Z.of_nat (length available)))%Z;
      [|discriminate].
    exact (nth_error_In _ _ E).
  - destruct (dict_mem String.eqb (string_of_list_ascii (strip typed)) cs)
      eqn:Hm.
    + intros H. injection H as <- <-. right. exact Hm.
    + apply IH.
Qed.

Lemma assign_lanes_sound (available : list string) (cs : ledger)
    (lanes : list nat) :
  forall inputs asg,
    NoDup (dict_keys asg) ->
    let asg' := fst (assign_lanes available cs lanes inputs asg) in
    NoDup (dict_keys asg')
    /\ forall lane name,
         In (lane, name) asg' ->
         In (lane, name) asg
         \/ (In lane lanes
             /\ (In name available \/ dict_mem String.eqb name cs = true)).
Proof.
  induction lanes as [|lane0 lanes IH]; intros inputs asg Hnd; simpl.
  - auto.
  - destruct (assign_lane available cs inputs) as [[[name0|] rest]|] eqn:E;
      simpl; [| |auto].
    + destruct (IH rest (dict_set Nat.eqb lane0 name0 asg)) as [H1 H2].
      { apply (dict_set_nodup Nat.eqb Nat.eqb_spec). exact Hnd. }
      split; [exact H1|]. intros lane name Hin.
      destruct (H2 lane name Hin) as [Hin'|[Hl Hn]]; [|right; auto].
      destruct (in_dict_set Nat.eqb Nat.eqb_spec _ _ _ _ _ Hin')
        as [[-> ->]|Hin'']; [|left; exact Hin''].
      right. split; [left; reflexivity|].
      exact (assign_lane_sound _ _ _ E).
    + destruct (IH rest asg Hnd) as [H1 H2].
      split; [exact H1|]. intros lane name Hin.
      destruct (H2 lane name Hin) as [Hin'|[Hl Hn]]; [left|right]; auto.
Qed.

Lemma parse_timer_data_length (line : text) :
  length (parse_timer_data line) = 4.
Proof.
  unfold parse_timer_data.
  rewrite (parse_timer_data_try_scan (findall_scan line)).
  apply four_slots_length.
Qed.

(** X5.  [assign_heat] changes the lane assignments only.  When there are
    competitors, every lane it assigns is one of 1 to 4, holds one name,
    and that name is registered, however the names were typed (by number,
    by name, after wrong tries) and also when the input ends half-way; so a
    heat it set up, with the times of any line, is well-formed for the
    ledger. *)
Theorem assign_heat_assigns_registered (inputs : list text) (st : state) :
  let st' := fst (assign_heat inputs st) in
  competitors st' = competitors st
  /\ heat_number st' = heat_number st
  /\ heats_file st' = heats_file st
  /\ standings_file st' = standings_file st
  /\ (competitors st <> [] ->
      NoDup (dict_keys (current_heat_assignments st'))
      /\ (forall lane name,
            In (lane, name) (current_heat_assignments st') ->
            In lane [1; 2; 3; 4]
            /\ dict_mem String.eqb name (competitors st) = true)
      /\ forall line timestamp,
           heat_ok (competitors st)
                   {| hi_assignments := current_heat_assignments st';
                      hi_times := parse_timer_data line;
                      hi_timestamp := timestamp |}).
Proof.
  unfold assign_heat.
  destruct (competitors st) as [|item cs] eqn:Ecs.
  { simpl. split; [exact Ecs|]. do 3 (split; [reflexivity|]).
    intros H. contradiction H. reflexivity. }
  cbv iota. rewrite <- Ecs.
  pose proof (assign_lanes_sound (dict_keys (competitors st)) (competitors st)
                [1; 2; 3; 4] inputs [] (NoDup_nil _)) as [Hnd Hin].
  assert (Hmain :
    forall asg,
      asg = fst (assign_lanes (dict_keys (competitors st)) (competitors st)
                              [1; 2; 3; 4] inputs []) ->
      NoDup (dict_keys asg)
      /\ (forall lane name,
            In (lane, name) asg ->
            In lane [1; 2; 3; 4]
            /\ dict_mem String.eqb name (competitors st) = true)).
  { intros asg ->. split; [exact Hnd|]. intros lane name H.
    destruct (Hin lane name H) as [[]|[Hl [Hn|Hn]]]; split; auto.
    apply (dict_mem_in_keys String.eqb String.eqb_spec). exact Hn. }
  destruct (assign_lanes (dict_keys (competitors st)) (competitors st)
              [1; 2; 3; 4] inputs []) as [asg [[|answer rest]|]];
    cbn [fst set_assignments competitors heat_number heats_file
         standings_file current_heat_assignments];
    (do 4 (split; [reflexivity|]));
    intros _; destruct (Hmain asg eq_refl) as [H1 H2];
    (split; [exact H1|]); (split; [exact H2|]);
    intros line timestamp; (split; simpl;
      [apply parse_timer_data_length
      |intros lane name H; exact (proj2 (H2 lane name H))]).
Qed.

Lemma assign_heat_assigns_registered_witness :
  current_heat_assignments
    (fst (assign_heat [txt "2"; txt "Zed"; txt "Alice"; txt EmptyString; txt EmptyString; txt "y"]
                      sample_state))
  = [(1, "Bob"); (2, "Alice")]
  /\ heat_ok (competitors sample_state)
             {| hi_assignments :=
                  current_heat_assignments
                    (fst (assign_heat
                            [txt "2"; txt "Zed"; txt "Alice"; txt EmptyString; txt EmptyString;
                             txt "y"] sample_state));
                hi_times := parse_timer_data (txt "1.2345 1.1111 ");
                hi_timestamp := "2024-01-01 10:00:00" |}.
Proof.
  split; [reflexivity|].
  destruct (assign_heat_assigns_registered
              [txt "2"; txt "Zed"; txt "Alice"; txt EmptyString; txt EmptyString; txt "y"]
              sample_state) as (_ & _ & _ & _ & H).
  destruct H as (_ & _ & H); [discriminate|]. apply H.
Defined.

(** ** Console front end: the port menu of [connect] *)

Lemma is_quit_not_int (choice : text) :
  is_quit choice = true -> py_int choice = None.
Proof.
  destruct choice as [|c [|c' choice]]; try discriminate.
  unfold is_quit. intros H. apply orb_true_iff in H.
  destruct H as [H|H]; apply Nat.eqb_eq in H;
    rewrite <- (ascii_nat_embedding c), H; reflexivity.
Qed.

Lemma py_index_in (A : Type) (l : list A) (i : Z) (x : A) :
  py_index l i = Some x -> In x l.
Proof.
  unfold py_index.
  destruct ((0 <=? i) && (i <? Z.of_nat (length l)))%Z;
    [apply nth_error_In|].
  destruct ((- Z.of_nat (length l) <=? i) && (i <? 0))%Z;
    [apply nth_error_In|discriminate].
Qed.

(** X6.  The port menu of [connect] opens listed ports only.  The choice
    is read by [int] as it was typed, without [strip].  A number from 1 to
    the number of ports takes the port at that place; it does not reject 0
    and small negative numbers, which count from the end of the list (0 is
    the last port); a number further out, and a choice that [int] does not
    read as a number, make [connect] give up. *)
Theorem choose_port_menu (ports : list string) (choice : text) :
  (forall port, choose_port ports choice = Some port -> In port ports)
  /\ (py_int choice = None -> choose_port ports choice = None)
  /\ forall k,
       py_int choice = Some k ->
       ((1 <= k <= Z.of_nat (length ports))%Z ->
        choose_port ports choice = nth_error ports (Z.to_nat (k - 1))
        /\ choose_port ports choice <> None)
       /\ ((- Z.of_nat (length ports) < k <= 0)%Z ->
           choose_port ports choice
           = nth_error ports (Z.to_nat (Z.of_nat (length ports) + k - 1))
           /\ choose_port ports choice <> None)
       /\ ((k <= - Z.of_nat (length ports) \/ Z.of_nat (length ports) < k)%Z ->
           choose_port ports choice = None).
Proof.
  split; [|split].
  - intros port. unfold choose_port. destruct ports as [|p ports];
      [discriminate|].
    destruct (is_quit choice); [discriminate|].
    destruct (py_int choice) as [n|]; [|discriminate].
    apply py_index_in.
  - intros E. unfold choose_port. rewrite E.
    destruct ports; [reflexivity|]. destruct (is_quit choice); reflexivity.
  - intros k E.
    assert (Hq : is_quit choice = false).
    { destruct (is_quit choice) eqn:Hq; [|reflexivity].
      rewrite (is_quit_not_int _ Hq) in E. discriminate. }
    assert (Hc : ports <> [] ->
                 choose_port ports choice = py_index ports (k - 1)%Z).
    { intros Hne. unfold choose_port. destruct ports; [contradiction|].
      rewrite Hq, E. reflexivity. }
    split; [|split].
    + intros Hk.
      assert (Hne : ports <> []) by (destruct ports; simpl in *; [lia|discriminate]).
      rewrite (Hc Hne). unfold py_index.
      replace ((0 <=? k - 1) && (k - 1 <? Z.of_nat (length ports)))%Z
        with true by (symmetry; apply andb_true_iff; split;
                      [apply Z.leb_le|apply Z.ltb_lt]; lia).
      split; [reflexivity|]. apply nth_error_Some. lia.
    + intros Hk.
      assert (Hne : ports <> []) by (destruct ports; simpl in *; [lia|discriminate]).
      rewrite (Hc Hne). unfold py_index.
      replace ((0 <=? k - 1) && (k - 1 <? Z.of_nat (length ports)))%Z
        with false by (symmetry; apply andb_false_iff; left;
                       apply Z.leb_gt; lia).
      replace ((- Z.of_nat (length ports) <=? k - 1) && (k - 1 <? 0))%Z
        with true by (symmetry; apply andb_true_iff; split;
                      [apply Z.leb_le|apply Z.ltb_lt]; lia).
      replace (Z.of_nat (length ports) + (k - 1))%Z
        with (Z.of_nat (length ports) + k - 1)%Z by lia.
      split; [reflexivity|]. apply nth_error_Some. lia.
    + intros Hk. destruct ports as [|p ports]; [reflexivity|].
      assert (Hne : p :: ports <> []) by discriminate.
      rewrite (Hc Hne). unfold py_index.
      destruct Hk as [Hk|Hk].
      * replace ((0 <=? k - 1) && (k - 1 <? Z.of_nat (length (p :: ports))))%Z
          with false by (symmetry; apply andb_false_iff; left;
                         apply Z.leb_gt; lia).
        replace ((- Z.of_nat (length (p :: ports)) <=? k - 1) && (k - 1 <? 0))%Z
          with false by (symmetry; apply andb_false_iff; left;
                         apply Z.leb_gt; lia).
        reflexivity.
      * replace ((0 <=? k - 1) && (k - 1 <? Z.of_nat (length (p :: ports))))%Z
          with false by (symmetry; apply andb_false_iff; right;
                         apply Z.ltb_ge; lia).
        replace ((- Z.of_nat (length (p :: ports)) <=? k - 1) && (k - 1 <? 0))%Z
          with false by (symmetry; apply andb_false_iff; right;
                         apply Z.ltb_ge; lia).
        reflexivity.
Qed.

Lemma choose_port_menu_witness :
  choose_port ["COM1"; "COM3"; "COM7"] (txt " 0 ") = Some "COM7"
  /\ choose_port ["COM1"; "COM3"; "COM7"] (ascii_of_nat 28 :: txt "1")
     = None.
Proof.
  split.
  - destruct (choose_port_menu ["COM1"; "COM3"; "COM7"] (txt " 0 "))
      as (_ & _ & H).
    destruct (H 0%Z eq_refl) as (_ & H0 & _).
    destruct H0 as [H0 _]; [simpl; lia|]. rewrite H0. reflexivity.
  - apply (choose_port_menu ["COM1"; "COM3"; "COM7"]
             (ascii_of_nat 28 :: txt "1")).
    reflexivity.
Defined.

(** ** The heat log over a session *)

Lemma lanes_cells_four (asg : assignments) (times : list (option time)) :
  4 <= length times ->
  exists cells,
    lanes_cells asg times [1; 2; 3; 4] = Some cells /\ length cells = 8.
Proof.
  intros Hlen.
  destruct times as [|t1 [|t2 [|t3 [|t4 times]]]]; simpl in Hlen; try lia.
  eexists. split; [reflexivity|reflexivity].
Qed.

Lemma heat_row_written (number : Z) (timestamp : string) (asg : assignments)
    (times : list (option time)) (winner_lane : option nat) :
  4 <= length times ->
  exists r,
    heat_row number timestamp asg times winner_lane = Some r
    /\ first_cell r = CInt number
    /\ second_cell r = CStr timestamp
    /\ length r = 11.
Proof.
  intros Hlen. unfold heat_row.
  destruct (@lanes_cells_four asg times Hlen) as (cells & -> & Hc).
  eexists. split; [reflexivity|]. split; [reflexivity|].
  split; [reflexivity|].
  simpl. rewrite length_app. simpl. lia.
Qed.

Lemma display_heat_results_ok (times : list (option time))
    (w : option nat) :
  display_heat_results times = (w, None) -> 4 <= length times.
Proof.
  unfold display_heat_results.
  destruct (length times <? 4) eqn:E; [discriminate|].
  intros _. apply Nat.ltb_ge in E. exact E.
Qed.

(** What one heat does to the log and to the heat number: nothing when it
    does not run or raises, else the row of the heat and one step. *)
Lemma run_heat_log (fe : front_end) (h : heat_input) (st : state) :
  match snd (run_heat fe h st) with
  | Some _ =>
      heats_file (fst (run_heat fe h st)) = heats_file st
      /\ heat_number (fst (run_heat fe h st)) = heat_number st
  | None =>
      if heat_runs fe h then
        heat_number (fst (run_heat fe h st)) = (heat_number st + 1)%Z
        /\ exists r,
             logged_row fe (heat_number st) h = Some r
             /\ heats_file (fst (run_heat fe h st)) = heats_file st ++ [r]
             /\ first_cell r = CInt (logged_number fe (heat_number st))
             /\ second_cell r = CStr (hi_timestamp h)
             /\ length r = 11
      else
        heats_file (fst (run_heat fe h st)) = heats_file st
        /\ heat_number (fst (run_heat fe h st)) = heat_number st
  end.
Proof.
  assert (Hbody :
    forall fe0 body,
      (fe0 = Console /\ body = logger_heat)
      \/ (fe0 = Gui /\ body = process_race_results) ->
      match snd (body (hi_timestamp h) (hi_times h)
                      (set_assignments (hi_assignments h) st)) with
      | Some _ =>
          heats_file (fst (body (hi_timestamp h) (hi_times h)
                             (set_assignments (hi_assignments h) st)))
          = heats_file st
          /\ heat_number (fst (body (hi_timestamp h) (hi_times h)
                                 (set_assignments (hi_assignments h) st)))
             = heat_number st
      | None =>
          heat_number (fst (body (hi_timestamp h) (hi_times h)
                              (set_assignments (hi_assignments h) st)))
          = (heat_number st + 1)%Z
          /\ exists r,
               logged_row fe0 (heat_number st) h = Some r
               /\ heats_file (fst (body (hi_timestamp h) (hi_times h)
                                     (set_assignments (hi_assignments h) st)))
                  = heats_file st ++ [r]
               /\ first_cell r = CInt (logged_number fe0 (heat_number st))
               /\ second_cell r = CStr (hi_timestamp h)
               /\ length r = 11
      end).
  { intros fe0 body Hb.
    assert (Hw : fst (display_heat_results (hi_times h))
                 = option_map fst (find_winner (hi_times h))).
    { unfold display_heat_results.
      destruct (length (hi_times h) <? 4); reflexivity. }
    pose proof (update_competitor_stats_fields (hi_times h)
                  (set_assignments (hi_assignments h) st))
      as (Ha & Hn & Hf & _).
    cbn [set_assignments current_heat_assignments heat_number heats_file]
      in Ha, Hn, Hf.
    destruct Hb as [[-> ->]|[-> ->]];
      [unfold logger_heat|unfold process_race_results];
      (destruct (display_heat_results (hi_times h)) as [w [e|]] eqn:Ed;
       [cbn [fst snd]; split; reflexivity|]);
      pose proof (@display_heat_results_ok (hi_times h) w Ed) as Hlen;
      cbn [fst] in Hw; subst w;
      (destruct (update_competitor_stats (hi_times h)
                   (set_assignments (hi_assignments h) st)) as [st1 [e|]];
       cbn [fst snd] in *; [split; assumption|]).
    - unfold log_heat_results. rewrite Ha, Hn.
      destruct (@heat_row_written (heat_number st) (hi_timestamp h)
                  (hi_assignments h) (hi_times h)
                  (option_map fst (find_winner (hi_times h))) Hlen)
        as (r & Hr & H1 & H2 & H3).
      rewrite Hr. unfold save_standings.
      destruct (standings_rows 1 _) as [rows e]. cbn.
      split; [rewrite Hn; reflexivity|].
      exists r. unfold logged_row, logged_number. rewrite Hf. auto.
    - unfold save_heat_results. rewrite Ha, Hn.
      destruct (@heat_row_written (heat_number st - 1) (hi_timestamp h)
                  (hi_assignments h) (hi_times h)
                  (option_map fst (find_winner (hi_times h))) Hlen)
        as (r & Hr & H1 & H2 & H3).
      rewrite Hr. unfold save_standings.
      destruct (standings_rows 1 _) as [rows e]. cbn.
      split; [rewrite Hn; reflexivity|].
      exists r. unfold logged_row, logged_number. rewrite Hf. auto. }
  unfold run_heat, heat_runs. destruct fe.
  - destruct (any_present (hi_times h)).
    + apply (Hbody Console). left. auto.
    + cbn [fst snd]. split; reflexivity.
  - destruct (hi_assignments h) as [|a asg] eqn:Ea;
      [cbn; split; reflexivity|].
    cbn [nonempty_assignments andb].
    destruct (any_present (hi_times h)).
    + apply (Hbody Gui). right. auto.
    + cbn [fst snd]. split; reflexivity.
Qed.

Lemma numbers_from_snoc (n : Z) (k : nat) :
  numbers_from n (S k) = numbers_from n k ++ [CInt (n + Z.of_nat k)].
Proof.
  unfold numbers_from. rewrite seq_S, map_app. reflexivity.
Qed.

Lemma numbers_from_cons (n : Z) (k : nat) :
  numbers_from n (S k) = CInt n :: numbers_from (n + 1) k.
Proof.
  unfold numbers_from. cbn [seq map]. f_equal.
  - f_equal. simpl. lia.
  - rewrite <- seq_shift, map_map. apply map_ext. intros i. f_equal. lia.
Qed.

Lemma logged_number_succ (fe : front_end) (n : Z) :
  logged_number fe (n + 1) = (logged_number fe n + 1)%Z.
Proof. destruct fe; simpl; lia. Qed.

(** The heats of a session up to the one that raises, with what they leave
    in the log. *)
Lemma run_heats_log (fe : front_end) (hs : list heat_input) :
  forall st,
    exists done pending,
      hs = done ++ pending
      /\ (pending = [] <-> snd (run_heats fe hs st) = None)
      /\ heats_file (fst (run_heats fe hs st))
         = heats_file st ++ logged_rows fe (heat_number st) done
      /\ heat_number (fst (run_heats fe hs st))
         = (heat_number st
            + Z.of_nat (length (filter (heat_runs fe) done)))%Z
      /\ length (logged_rows fe (heat_number st) done)
         = length (filter (heat_runs fe) done)
      /\ map first_cell (logged_rows fe (heat_number st) done)
         = numbers_from (logged_number fe (heat_number st))
                        (length (filter (heat_runs fe) done))
      /\ map second_cell (logged_rows fe (heat_number st) done)
         = map (fun h => CStr (hi_timestamp h)) (filter (heat_runs fe) done)
      /\ Forall (fun r => length r = 11)
                (logged_rows fe (heat_number st) done).
Proof.
  induction hs as [|h hs IH]; intros st.
  - exists [], []. cbn. rewrite app_nil_r.
    repeat split; auto. lia.
  - cbn [run_heats]. pose proof (run_heat_log fe h st) as Hh.
    destruct (run_heat fe h st) as [st1 [e|]]; cbn [fst snd] in *.
    + destruct Hh as [Hf Hn].
      exists [], (h :: hs). cbn. rewrite app_nil_r.
      repeat split; auto; try discriminate. lia.
    + destruct (IH st1)
        as (done & pending & -> & Hp & H1 & H2 & H3 & H4 & H5 & H6).
      exists (h :: done), pending. split; [reflexivity|].
      split; [exact Hp|]. cbn [logged_rows filter].
      destruct (heat_runs fe h).
      * destruct Hh as (Hn & r & Hr & Hf & Hc1 & Hc2 & Hc3).
        rewrite Hr, H1, H2, Hf, Hn, <- app_assoc. rewrite Hn in *.
        cbn [length map].
        split; [reflexivity|]. split; [lia|]. split; [lia|].
        split; [rewrite numbers_from_cons, Hc1, H4, logged_number_succ;
                reflexivity|].
        split; [rewrite Hc2, H5; reflexivity|].
        constructor; assumption.
      * destruct Hh as [Hf Hn]. rewrite Hn, Hf in *.
        repeat split; assumption.
Qed.

(** X7.  Over any sequence of heats, also malformed ones, the heat log only
    grows.  Every heat that runs without an exception appends its row, the
    heat that raises and the heats after it append nothing: the rows are
    those of the heats that ran, in their order, each of eleven fields with
    the time stamp of its heat; the heat number advances by one for each of
    them, and the rows carry consecutive numbers, starting at the heat
    number in the console and one below it in the GUI.  In the GUI,
    [finish_setup] puts the log back to its header and leaves the heat
    number. *)
Theorem heat_log_one_row_per_heat (fe : front_end)
    (hs : list heat_input) (st : state) :
  (exists done pending,
     hs = done ++ pending
     /\ (pending = [] <-> snd (run_heats fe hs st) = None)
     /\ heats_file (fst (run_heats fe hs st))
        = heats_file st ++ logged_rows fe (heat_number st) done
     /\ heat_number (fst (run_heats fe hs st))
        = (heat_number st
           + Z.of_nat (length (filter (heat_runs fe) done)))%Z
     /\ length (logged_rows fe (heat_number st) done)
        = length (filter (heat_runs fe) done)
     /\ map first_cell (logged_rows fe (heat_number st) done)
        = numbers_from (logged_number fe (heat_number st))
                       (length (filter (heat_runs fe) done))
     /\ map second_cell (logged_rows fe (heat_number st) done)
        = map (fun h => CStr (hi_timestamp h)) (filter (heat_runs fe) done)
     /\ Forall (fun r => length r = 11)
               (logged_rows fe (heat_number st) done))
  /\ (competitors st <> [] ->
      heats_file (finish_setup true st) = [heats_header]
      /\ heat_number (finish_setup true st) = heat_number st
      /\ competitors (finish_setup true st) = competitors st).
Proof.
  split; [apply run_heats_log|].
  unfold finish_setup. destruct (competitors st) as [|c cs] eqn:E.
  - intros H. contradiction H. reflexivity.
  - intros _. cbn. auto.
Qed.

Lemma heat_log_one_row_per_heat_witness :
  heats_file
    (fst (run_heats Gui
            [sample_heat;
             {| hi_assignments := [(1, "Alice")];
                hi_times := [None; None; None; None];
                hi_timestamp := "2024-01-01 10:01:00" |};
             {| hi_assignments := [(2, "Alice")];
                hi_times := [None; Some 20000%Z; None; None];
                hi_timestamp := "2024-01-01 10:02:00" |}]
            sample_state))
  = [heats_header;
     [CInt 0; CStr "2024-01-01 10:00:00"; CStr "Alice"; CTime 12345;
      CStr "Bob"; CTime 11111; CStr EmptyString; CStr EmptyString;
      CStr EmptyString; CStr EmptyString; CStr "Bob"];
     [CInt 1; CStr "2024-01-01 10:02:00"; CStr EmptyString;
      CStr EmptyString; CStr "Alice"; CTime 20000; CStr EmptyString;
      CStr EmptyString; CStr EmptyString; CStr EmptyString; CStr "Alice"]]
  /\ heats_file
       (finish_setup true
          (fst (run_heats Gui [sample_heat] sample_state)))
     = [heats_header].
Proof.
  split.
  - destruct (heat_log_one_row_per_heat Gui
                [sample_heat;
                 {| hi_assignments := [(1, "Alice")];
                    hi_times := [None; None; None; None];
                    hi_timestamp := "2024-01-01 10:01:00" |};
                 {| hi_assignments := [(2, "Alice")];
                    hi_times := [None; Some 20000%Z; None; None];
                    hi_timestamp := "2024-01-01 10:02:00" |}]
                sample_state)
      as [(done & pending & Hs & Hp & Hf & _) _].
    assert (Hnil : pending = []) by (apply Hp; reflexivity).
    rewrite Hnil, app_nil_r in Hs. rewrite Hf, <- Hs. reflexivity.
  - apply (heat_log_one_row_per_heat Gui []
             (fst (run_heats Gui [sample_heat] sample_state))).
    vm_compute. discriminate.
Defined.

(** ** A heat with a finisher that is not registered *)

Lemma unregistered_finisher_keys (asg : assignments)
    (times : list (option time)) (cs cs' : ledger) (lane : nat) :
  dict_keys cs' = dict_keys cs ->
  unregistered_finisher asg times cs lane ->
  unregistered_finisher asg times cs' lane.
Proof.
  intros Hk (name & t & H1 & H2 & H3). exists name, t.
  split; [exact H1|]. split; [exact H2|].
  apply (dict_get_none_keys String.eqb String.eqb_spec). rewrite Hk.
  apply (dict_get_none_keys String.eqb String.eqb_spec). exact H3.
Qed.

Lemma update_lane_raises (number : Z) (asg : assignments)
    (times : list (option time)) (lane : nat) (cs : ledger) :
  lane - 1 < length times ->
  (snd (update_lane number asg times lane cs) = None
   /\ ~ unregistered_finisher asg times cs lane)
  \/ (update_lane number asg times lane cs = (cs, Some KeyError)
      /\ unregistered_finisher asg times cs lane).
Proof.
  intros Hlen. unfold update_lane, unregistered_finisher.
  destruct (dict_get Nat.eqb lane asg) as [c|] eqn:Ea.
  - destruct (nth_error times (lane - 1)) as [[t|]|] eqn:Et.
    + destruct (dict_get String.eqb c cs) as [s|] eqn:Ec.
      * left. split; [reflexivity|].
        intros (name & t' & H1 & H2 & H3). congruence.
      * right. split; [reflexivity|]. exists c, t. auto.
    + left. split; [reflexivity|].
      intros (name & t' & H1 & H2 & H3). discriminate.
    + apply nth_error_None in Et. lia.
  - left. split; [reflexivity|].
    intros (name & t' & H1 & H2 & H3). discriminate.
Qed.

Lemma update_lanes_raises (number : Z) (asg : assignments)
    (times : list (option time)) (lanes : list nat) :
  (forall lane, In lane lanes -> lane - 1 < length times) ->
  forall cs,
    (snd (update_lanes number asg times lanes cs) = None
     /\ forall lane, In lane lanes ->
                     ~ unregistered_finisher asg times cs lane)
    \/ (snd (update_lanes number asg times lanes cs) = Some KeyError
        /\ exists before lane after,
             lanes = before ++ lane :: after
             /\ (forall l, In l before ->
                           ~ unregistered_finisher asg times cs l)
             /\ unregistered_finisher asg times cs lane
             /\ fst (update_lanes number asg times lanes cs)
                = fst (update_lanes number asg times before cs)).
Proof.
  induction lanes as [|lane rest IH]; intros Hlen cs.
  - left. split; [reflexivity|]. intros lane [].
  - cbn [update_lanes].
    pose proof (update_lane_keys number asg times lane cs) as Hk.
    destruct (@update_lane_raises number asg times lane cs (Hlen lane (or_introl eq_refl)))
      as [[He Hn]|[He Hu]].
    + destruct (update_lane number asg times lane cs) as [cs1 [e|]] eqn:E1;
        cbn [fst snd] in *; [discriminate|].
      destruct (IH (fun l H => Hlen l (or_intror H)) cs1)
        as [[H1 H2]|(H1 & before & l & after & -> & H3 & H4 & H5)].
      * left. split; [exact H1|]. intros l [<-|Hl]; [exact Hn|].
        intros Hu. apply (H2 l Hl).
        exact (@unregistered_finisher_keys asg times cs _ _ Hk Hu).
      * right. split; [exact H1|].
        exists (lane :: before), l, after. split; [reflexivity|].
        split.
        { intros l' [<-|Hl']; [exact Hn|]. intros Hu. apply (H3 l' Hl').
          exact (@unregistered_finisher_keys asg times cs _ _ Hk Hu). }
        split.
        { exact (@unregistered_finisher_keys asg times _ cs _ (eq_sym Hk) H4). }
        cbn [update_lanes]. rewrite E1. exact H5.
    + rewrite He. right. split; [reflexivity|].
      exists [], lane, rest. simpl. auto.
Qed.

(** X8.  A heat that runs on a four-slot array raises exactly when one of
    its lanes is assigned to a name that is not in the ledger and holds a
    time.  The exception is a [KeyError]; the lanes before the first such
    lane have been recorded in the ledger already, while no row is written
    to the heat log, the standings file is not rewritten and the heat
    number does not advance. *)
Theorem heat_raises_on_unregistered_finisher (fe : front_end)
    (h : heat_input) (st : state) :
  length (hi_times h) = 4 ->
  heat_runs fe h = true ->
  (snd (run_heat fe h st) = None
   /\ forall lane, In lane [1; 2; 3; 4] ->
        ~ unregistered_finisher (hi_assignments h) (hi_times h)
                                (competitors st) lane)
  \/ (snd (run_heat fe h st) = Some KeyError
      /\ heats_file (fst (run_heat fe h st)) = heats_file st
      /\ standings_file (fst (run_heat fe h st)) = standings_file st
      /\ heat_number (fst (run_heat fe h st)) = heat_number st
      /\ exists before lane after,
           [1; 2; 3; 4] = before ++ lane :: after
           /\ (forall l, In l before ->
                 ~ unregistered_finisher (hi_assignments h) (hi_times h)
                                         (competitors st) l)
           /\ unregistered_finisher (hi_assignments h) (hi_times h)
                                    (competitors st) lane
           /\ competitors (fst (run_heat fe h st))
              = fst (update_lanes (heat_number st) (hi_assignments h)
                                  (hi_times h) before (competitors st))).
Proof.
  intros Hlen Hruns.
  assert (Hin : forall lane, In lane [1; 2; 3; 4] ->
                             lane - 1 < length (hi_times h)).
  { rewrite Hlen. simpl. intros lane H.
    repeat (destruct H as [<-|H]; [lia|]). destruct H. }
  pose proof (@update_lanes_raises (heat_number st) (hi_assignments h)
                (hi_times h) [1; 2; 3; 4] Hin (competitors st)) as Hcases.
  assert (Hd : display_heat_results (hi_times h)
               = (option_map fst (find_winner (hi_times h)), None)).
  { unfold display_heat_results. rewrite Hlen. reflexivity. }
  assert (Hbody :
    forall body,
      (body = logger_heat \/ body = process_race_results) ->
      (snd (body (hi_timestamp h) (hi_times h)
                 (set_assignments (hi_assignments h) st)) = None
       /\ forall lane, In lane [1; 2; 3; 4] ->
            ~ unregistered_finisher (hi_assignments h) (hi_times h)
                                    (competitors st) lane)
      \/ (snd (body (hi_timestamp h) (hi_times h)
                    (set_assignments (hi_assignments h) st)) = Some KeyError
          /\ heats_file (fst (body (hi_timestamp h) (hi_times h)
                                (set_assignments (hi_assignments h) st)))
             = heats_file st
          /\ standings_file (fst (body (hi_timestamp h) (hi_times h)
                                    (set_assignments (hi_assignments h) st)))
             = standings_file st
          /\ heat_number (fst (body (hi_timestamp h) (hi_times h)
                                 (set_assignments (hi_assignments h) st)))
             = heat_number st
          /\ exists before lane after,
               [1; 2; 3; 4] = before ++ lane :: after
               /\ (forall l, In l before ->
                     ~ unregistered_finisher (hi_assignments h) (hi_times h)
                                             (competitors st) l)
               /\ unregistered_finisher (hi_assignments h) (hi_times h)
                                        (competitors st) lane
               /\ competitors (fst (body (hi_timestamp h) (hi_times h)
                                      (set_assignments (hi_assignments h) st)))
                  = fst (update_lanes (heat_number st) (hi_assignments h)
                                      (hi_times h) before (competitors st)))).
  { intros body Hb.
    assert (Hshape :
      body (hi_timestamp h) (hi_times h)
           (set_assignments (hi_assignments h) st)
      = match update_competitor_stats (hi_times h)
                (set_assignments (hi_assignments h) st) with
        | (st1, Some e) => (st1, Some e)
        | (st1, None) =>
            body (hi_timestamp h) (hi_times h)
                 (set_assignments (hi_assignments h) st)
        end).
    { destruct Hb as [-> | ->];
        [unfold logger_heat|unfold process_race_results];
        rewrite Hd;
        destruct (update_competitor_stats (hi_times h)
                    (set_assignments (hi_assignments h) st)) as [st1 [e|]];
        reflexivity. }
    assert (Hnone :
      snd (update_competitor_stats (hi_times h)
             (set_assignments (hi_assignments h) st)) = None ->
      snd (body (hi_timestamp h) (hi_times h)
                (set_assignments (hi_assignments h) st)) = None).
    { destruct Hb as [-> | ->];
        [unfold logger_heat|unfold process_race_results];
        rewrite Hd;
        destruct (update_competitor_stats (hi_times h)
                    (set_assignments (hi_assignments h) st)) as [st1 [e|]];
        cbn [snd]; [discriminate|reflexivity|discriminate|reflexivity]. }
    revert Hshape Hnone. unfold update_competitor_stats.
    cbn [set_assignments heat_number current_heat_assignments competitors].
    destruct Hcases as [[He Hno]|(He & before & lane & after & Hl & H1 & H2 & H3)].
    - destruct (update_lanes (heat_number st) (hi_assignments h) (hi_times h)
                  [1; 2; 3; 4] (competitors st)) as [cs [e|]];
        cbn [snd] in He; [discriminate|].
      intros _ Hnone. left. split; [apply Hnone; reflexivity|exact Hno].
    - destruct (update_lanes (heat_number st) (hi_assignments h) (hi_times h)
                  [1; 2; 3; 4] (competitors st)) as [cs [e|]];
        cbn [fst snd] in He, H3; [|discriminate].
      injection He as ->. intros Hshape _. right. rewrite Hshape.
      cbn [fst snd set_competitors heats_file standings_file heat_number
           competitors].
      split; [reflexivity|]. split; [reflexivity|]. split; [reflexivity|].
      split; [reflexivity|].
      exists before, lane, after. auto. }
  unfold run_heat, heat_runs in *. destruct fe.
  - rewrite Hruns. apply Hbody. left. reflexivity.
  - apply andb_true_iff in Hruns. destruct Hruns as [Hne Hany].
    destruct (hi_assignments h) as [|a asg] eqn:Ea; [discriminate|].
    rewrite Hany. apply Hbody. right. reflexivity.
Qed.

Lemma heat_raises_on_unregistered_finisher_witness :
  run_heat Gui
    {| hi_assignments := [(1, "Alice"); (2, "Ghost"); (3, "Bob")];
       hi_times := [Some 31234%Z; Some 29876%Z; Some 30001%Z; None];
       hi_timestamp := "2024-01-01 10:00:00" |}
    sample_state
  = (set_assignments [(1, "Alice"); (2, "Ghost"); (3, "Bob")]
       (set_competitors
          (fst (update_lanes (heat_number sample_state)
                  [(1, "Alice"); (2, "Ghost"); (3, "Bob")]
                  [Some 31234%Z; Some 29876%Z; Some 30001%Z; None]
                  [1] (competitors sample_state)))
          sample_state),
     Some KeyError).
Proof.
  destruct (heat_raises_on_unregistered_finisher Gui
              {| hi_assignments := [(1, "Alice"); (2, "Ghost"); (3, "Bob")];
                 hi_times := [Some 31234%Z; Some 29876%Z; Some 30001%Z; None];
                 hi_timestamp := "2024-01-01 10:00:00" |}
              sample_state eq_refl eq_refl) as [[H _]|_].
  - vm_compute in H. discriminate H.
  - vm_compute. reflexivity.
Defined.

(** ** The standings file *)

Lemma standings_rows_shape (items : list (string * stats)) :
  forall rank,
    map first_cell (fst (standings_rows rank items))
    = numbers_from (Z.of_nat rank) (length items)
    /\ map second_cell (fst (standings_rows rank items))
       = map (fun item => CStr (fst item)) items
    /\ map (fun r => nth 4 r (CStr EmptyString))
           (fst (standings_rows rank items))
       = map (fun item => CInt (Z.of_nat (races_count (snd item)))) items
    /\ Forall (fun r => length r = 5) (fst (standings_rows rank items)).
Proof.
  induction items as [|item items IH]; intros rank.
  - simpl. repeat split; constructor.
  - cbn [standings_rows].
    destruct (standings_row_fields rank item) as (best & avg & -> & _).
    destruct (IH (S rank)) as (H1 & H2 & H3 & H4).
    destruct (standings_rows (S rank) items) as [rs e]. cbn [fst] in *.
    cbn [map length]. rewrite numbers_from_cons, H1, H2, H3.
    replace (Z.of_nat rank + 1)%Z with (Z.of_nat (S rank)) by lia.
    repeat split. constructor; [reflexivity|exact H4].
Qed.

(** X9.  [save_standings] replaces the standings file, whatever it held, by
    the header and one row of five fields for each registered competitor,
    and never fails on a division: the ranks are 1, 2, ... in this order,
    the names are those of the ledger, each once, in ascending order of
    best time with the registration order among equals, and the last field
    is the number of races.  Nothing else of the state changes. *)
Theorem save_standings_rewrites_file (st : state) :
  competitors (save_standings st) = competitors st
  /\ current_heat_assignments (save_standings st)
     = current_heat_assignments st
  /\ heat_number (save_standings st) = heat_number st
  /\ heats_file (save_standings st) = heats_file st
  /\ exists rows,
       standings_file (save_standings st) = standings_header :: rows
       /\ length rows = length (competitors st)
       /\ Forall (fun r => length r = 5) rows
       /\ map first_cell rows = numbers_from 1 (length rows)
       /\ map second_cell rows
          = map (fun item => CStr (fst item))
                (sorted_competitors (competitors st))
       /\ map (fun r => nth 4 r (CStr EmptyString)) rows
          = map (fun item => CInt (Z.of_nat (races_count (snd item))))
                (sorted_competitors (competitors st))
       /\ Permutation (sorted_competitors (competitors st)) (competitors st)
       /\ StronglySorted (fun a b => (sort_key a <= sort_key b)%Z)
                         (sorted_competitors (competitors st))
       /\ forall k,
            filter (fun a => (sort_key a =? k)%Z)
                   (sorted_competitors (competitors st))
            = filter (fun a => (sort_key a =? k)%Z) (competitors st).
Proof.
  unfold save_standings.
  destruct (standings_rows_shape (sorted_competitors (competitors st)) 1)
    as (H1 & H2 & H3 & H4).
  destruct (standings_rows_no_exception
              (sorted_competitors (competitors st)) 1) as [_ Hlen].
  destruct (sorted_competitors_ranking (competitors st)) as (Hp & Hs & Hf).
  destruct (standings_rows 1 (sorted_competitors (competitors st)))
    as [rows e]. cbn [fst] in *.
  do 4 (split; [reflexivity|]).
  exists rows. split; [reflexivity|].
  assert (Hl : length rows = length (competitors st)).
  { rewrite Hlen. apply Permutation_length. exact Hp. }
  split; [exact Hl|]. split; [exact H4|].
  split; [rewrite H1, Hlen; reflexivity|].
  split; [exact H2|]. split; [exact H3|]. auto.
Qed.

(** ** Listening in chunks *)

(** X10.  Listening for a heat does not depend on how the serial stream
    arrives in chunks, for a stream whose carriage returns never stand
    inside a line: the heat is completed by the first line of the whole
    stream that holds a time, with that line's times, and listening goes on
    when no line holds one.  A buffer left over from the heat before is
    read only once a further chunk arrives. *)
Theorem listen_polls_any_chunking (buffer : text) (chunks : list text) :
  chunks <> []
  \/ (contains LF buffer = false /\ contains CR buffer = false) ->
  returns_in_margins (buffer ++ concat chunks) ->
  fst (listen_polls buffer chunks)
  = first_timed (fst (frame (buffer ++ concat chunks)))
  /\ fst (listen_polls buffer chunks)
     = fst (listen (buffer ++ concat chunks))
  /\ forall times,
       fst (listen_polls buffer chunks) = Some times ->
       length times = 4 /\ any_present times = true.
Proof.
  intros Hstart Hm.
  pose proof (@listen_polls_first_timed chunks buffer Hstart Hm) as H.
  split; [exact H|]. split; [rewrite H; symmetry; apply listen_first_timed|].
  intros times Ht. rewrite H, <- listen_first_timed in Ht.
  destruct (listen_first_timed_line (buffer ++ concat chunks)) as [_ Hsome].
  destruct (Hsome times Ht) as (skipped & line & later & _ & _ & -> & Ha).
  split; [apply parse_timer_data_length|exact Ha].
Qed.

Lemma listen_polls_any_chunking_witness :
  fst (listen_polls [] [txt "junk"; [CR; LF]; txt "1.23"; txt "45 2.0000";
                        [CR; LF]; txt "9.9999"; [LF]])
  = Some [Some 12345%Z; Some 20000%Z; None; None].
Proof.
  destruct (@listen_polls_any_chunking []
              [txt "junk"; [CR; LF]; txt "1.23"; txt "45 2.0000";
               [CR; LF]; txt "9.9999"; [LF]]) as (H & _ & _).
  - left. discriminate.
  - apply margins_crlf. vm_compute. reflexivity.
  - rewrite H. vm_compute. reflexivity.
Defined.

(** ** The slots the parser fills *)

Lemma digits_val_nonneg (ds : text) : (0 <= digits_val ds)%Z.
Proof.
  unfold digits_val.
  assert (H : forall acc, (0 <= acc)%Z ->
            (0 <= fold_left (fun a c => 10 * a + digit_val c) ds acc)%Z).
  { induction ds as [|c ds IH]; intros acc Hacc; [exact Hacc|].
    cbn [fold_left]. apply IH. unfold digit_val. lia. }
  apply H. lia.
Qed.

Lemma token_reads_nonneg (m : text) (v : time) :
  token_reads m v -> (0 <= v)%Z.
Proof.
  intros [ds Hne Hds|ds d4 Hne Hds Hd4 Hl].
  - pose proof (digits_val_nonneg ds). lia.
  - pose proof (digits_val_nonneg ds). pose proof (digits_val_nonneg d4). lia.
Qed.

Lemma matches_values (ms : list text) :
  (forall m, In m ms -> token_shape m) ->
  exists vs,
    map py_float ms = map Some vs /\ Forall (fun v => (0 <= v)%Z) vs.
Proof.
  induction ms as [|m ms IH]; intros Hall.
  - exists []. split; [reflexivity|constructor].
  - destruct (py_float_shape (Hall m (or_introl eq_refl))) as (v & Hr & Hv).
    destruct (IH (fun m' H => Hall m' (or_intror H))) as (vs & Hvs & Hnn).
    exists (v :: vs). simpl. rewrite Hv, Hvs.
    split; [reflexivity|].
    constructor; [exact (token_reads_nonneg Hr)|exact Hnn].
Qed.

(** X11.  The parser fills the slots from lane 1 on, without a gap: with
    [k] matches on the line the first [min(4, k)] slots hold the values of
    the first matches, none of them negative, and the slots after them are
    absent; a fifth match and any later one change nothing.  So a line
    completes a heat exactly when it has a match. *)
Theorem parse_timer_data_fills_from_lane_one (line : text) :
  exists vs,
    length vs = Nat.min 4 (length (findall time_pattern line))
    /\ parse_timer_data line = map Some vs ++ repeat None (4 - length vs)
    /\ map Some vs = map py_float (firstn 4 (findall time_pattern line))
    /\ Forall (fun v => (0 <= v)%Z) vs
    /\ (any_present (parse_timer_data line) = true <-> vs <> []).
Proof.
  pose proof (findall_scan line) as Hs.
  destruct (@matches_values (firstn 4 (findall time_pattern line)))
    as (vs & Hvs & Hnn).
  { intros m Hin. apply (scan_shapes Hs). exact (in_firstn _ _ _ Hin). }
  assert (Hlen : length vs = Nat.min 4 (length (findall time_pattern line))).
  { rewrite <- (length_map Some vs), <- Hvs, length_map, length_firstn.
    reflexivity. }
  exists vs. split; [exact Hlen|].
  assert (Hp : parse_timer_data line
               = map Some vs ++ repeat None (4 - length vs)).
  { unfold parse_timer_data. rewrite (parse_timer_data_try_scan Hs).
    cbn [fst]. rewrite Hvs. unfold four_slots.
    assert (Hle : length vs <= 4) by lia. clear - Hle.
    destruct vs as [|v1 [|v2 [|v3 [|v4 [|v5 vs]]]]]; simpl in *;
      try reflexivity; lia. }
  split; [exact Hp|]. split; [symmetry; exact Hvs|]. split; [exact Hnn|].
  rewrite Hp. destruct vs as [|v vs].
  - simpl. split; [discriminate|intros H; contradiction H; reflexivity].
  - simpl. split; [discriminate|reflexivity].
Qed.

(** ** GUI: automatic lane assignment *)

Lemma is_selection_empty_choice : is_selection EMPTY_CHOICE = false.
Proof. reflexivity. Qed.

Lemma auto_assign_combos (names : list string) (cb : combos) :
  map fst cb = [1; 2; 3; 4] ->
  length names <= 4 ->
  (forall name, In name names -> is_selection name = true) ->
  combo_assignments (set_combos (combine [1; 2; 3; 4] names)
                                (update_lane_options cb))
  = combine [1; 2; 3; 4] names.
Proof.
  intros Hcb Hlen Hsel.
  destruct cb as [|[l1 c1] [|[l2 c2] [|[l3 c3] [|[l4 c4] [|lc cb]]]]];
    try discriminate Hcb.
  cbn [map fst] in Hcb. injection Hcb as -> -> -> ->.
  unfold combo_assignments, update_lane_options.
  destruct names as [|n1 [|n2 [|n3 [|n4 [|n5 names]]]]];
    cbn [length] in Hlen; try lia;
    cbn [map fst snd combine set_combos dict_set Nat.eqb filter];
    rewrite ?is_selection_empty_choice;
    repeat match goal with
           | |- context [is_selection ?n] =>
               rewrite (Hsel n) by (simpl; tauto)
           end;
    reflexivity.
Qed.

Lemma nodup_keys_value (K V : Type) (d : list (K * V)) (k : K) (v v' : V) :
  NoDup (map fst d) -> In (k, v) d -> In (k, v') d -> v = v'.
Proof.
  induction d as [|[k0 v0] d IH]; intros Hnd H1 H2; [destruct H1|].
  cbn [map fst] in Hnd. inversion Hnd as [|? ? Hout Hnd']; subst.
  destruct H1 as [H1|H1], H2 as [H2|H2].
  - congruence.
  - injection H1 as <- <-. exfalso. apply Hout.
    apply in_map_iff. exists (k0, v'). auto.
  - injection H2 as <- <-. exfalso. apply Hout.
    apply in_map_iff. exists (k0, v). auto.
  - exact (IH Hnd' H1 H2).
Qed.

Lemma sorted_app_le (A : Type) (R : A -> A -> Prop) (l1 l2 : list A) :
  StronglySorted R (l1 ++ l2) ->
  forall a b, In a l1 -> In b l2 -> R a b.
Proof.
  induction l1 as [|x l1 IH]; intros Hs a b Ha Hb; [destruct Ha|].
  cbn [app] in Hs. inversion Hs as [|? ? Hs' Hall]; subst.
  destruct Ha as [<-|Ha].
  - rewrite Forall_forall in Hall. apply Hall. apply in_or_app. auto.
  - exact (IH Hs' a b Ha Hb).
Qed.

Lemma combine_lanes_snd (names : list string) :
  length names <= 4 ->
  map snd (combine [1; 2; 3; 4] names) = names
  /\ map fst (combine [1; 2; 3; 4] names) = seq 1 (length names).
Proof.
  intros Hlen.
  destruct names as [|n1 [|n2 [|n3 [|n4 [|n5 names]]]]];
    cbn [length] in Hlen; try lia; split; reflexivity.
Qed.

(** X12.  With the four comboboxes of the racing tab reset and no
    competitor called ['(empty)'], [auto_assign_lanes] followed by
    [start_listening] assigns lanes 1, 2, ... to the first four competitors
    in ascending order of races run (all of them when there are fewer):
    every assigned name is registered, no competitor gets two lanes, and no
    competitor left out has run fewer races than one that got a lane. *)
Theorem auto_assign_takes_least_raced (cb : combos) (confirm : bool)
    (st : state) :
  map fst cb = [1; 2; 3; 4] ->
  NoDup (dict_keys (competitors st)) ->
  (forall name, In name (dict_keys (competitors st)) ->
                is_selection name = true) ->
  let asg :=
    current_heat_assignments
      (fst (start_listening (auto_assign_lanes (competitors st)
                                               (update_lane_options cb))
                            confirm st)) in
  asg = combine [1; 2; 3; 4]
                (map fst (firstn 4 (py_sorted races_key (competitors st))))
  /\ map fst asg = seq 1 (Nat.min 4 (length (competitors st)))
  /\ NoDup (map snd asg)
  /\ (forall lane name, In (lane, name) asg ->
                        dict_mem String.eqb name (competitors st) = true)
  /\ (forall lane name s other s',
        In (lane, name) asg -> In (name, s) (competitors st) ->
        In (other, s') (competitors st) ->
        ~ In other (map snd asg) ->
        races_count s <= races_count s')
  /\ (snd (start_listening (auto_assign_lanes (competitors st)
                                               (update_lane_options cb))
                           confirm st) = true
      <-> competitors st <> [] /\ confirm = true).
Proof.
  intros Hcb. generalize (competitors st). intros cs Hnd Hsel.
  pose proof (py_sorted_perm races_key cs) as Hperm.
  pose proof (py_sorted_sorted races_key cs) as Hsorted.
  set (sorted := py_sorted races_key cs) in *.
  set (names := map fst (firstn 4 sorted)).
  assert (Hlen : length names = Nat.min 4 (length cs)).
  { unfold names. rewrite length_map, length_firstn.
    rewrite (Permutation_length Hperm). reflexivity. }
  assert (Hin : forall name, In name names -> In name (dict_keys cs)).
  { intros name H. unfold names in H. apply in_map_iff in H.
    destruct H as (item & <- & H). apply in_firstn in H.
    unfold dict_keys. apply in_map.
    exact (Permutation_in _ Hperm H). }
  assert (Hasg :
    combo_assignments (auto_assign_lanes cs (update_lane_options cb))
    = combine [1; 2; 3; 4] names).
  { unfold auto_assign_lanes. fold sorted. fold names.
    apply auto_assign_combos; [exact Hcb|lia|].
    intros name H. apply Hsel, Hin, H. }
  assert (Hst :
    current_heat_assignments
      (fst (start_listening (auto_assign_lanes cs (update_lane_options cb))
                            confirm st))
    = combine [1; 2; 3; 4] names).
  { unfold start_listening. rewrite Hasg.
    destruct (nonempty_assignments (combine [1; 2; 3; 4] names));
      reflexivity. }
  cbv zeta. rewrite Hst.
  destruct (@combine_lanes_snd names) as [Hsnd Hfst]; [lia|].
  rewrite Hsnd, Hfst, Hlen.
  split; [reflexivity|]. split; [reflexivity|].
  assert (Hnd_sorted : NoDup (map fst sorted)).
  { apply (Permutation_NoDup (l := map fst cs)); [|exact Hnd].
    apply Permutation_map, Permutation_sym, Hperm. }
  split.
  { unfold names. rewrite <- firstn_map.
    rewrite <- (firstn_skipn 4 (map fst sorted)) in Hnd_sorted.
    exact (NoDup_app_remove_r _ _ Hnd_sorted). }
  split.
  { intros lane name H.
    apply (dict_mem_in_keys String.eqb String.eqb_spec), Hin.
    rewrite <- Hsnd. apply in_map_iff. exists (lane, name). auto. }
  split.
  { intros lane name s other s' Hl Hs Ho Hout.
    assert (Hname : In name names).
    { rewrite <- Hsnd. apply in_map_iff. exists (lane, name). auto. }
    unfold names in Hname. apply in_map_iff in Hname.
    destruct Hname as ([name0 s0] & Hn0 & Htop). cbn [fst] in Hn0. subst name0.
    assert (Hs0 : s0 = s).
    { apply (@nodup_keys_value _ _ cs name s0 s Hnd); [|exact Hs].
      apply (Permutation_in _ Hperm). exact (in_firstn _ _ _ Htop). }
    subst s0.
    assert (Hrest : In (other, s') (skipn 4 sorted)).
    { assert (H : In (other, s') sorted)
        by exact (Permutation_in _ (Permutation_sym Hperm) Ho).
      rewrite <- (firstn_skipn 4 sorted) in H. apply in_app_or in H.
      destruct H as [H|H]; [|exact H].
      exfalso. apply Hout. unfold names. apply in_map_iff.
      exists (other, s'). auto. }
    rewrite <- (firstn_skipn 4 sorted) in Hsorted.
    pose proof (@sorted_app_le _ _ _ _ Hsorted _ _ Htop Hrest) as Hle.
    unfold races_key in Hle. cbn [snd] in Hle. lia. }
  unfold start_listening. rewrite Hasg.
  assert (Hne : nonempty_assignments (combine [1; 2; 3; 4] names)
                = negb (Nat.eqb (length cs) 0)).
  { destruct cs as [|c cs].
    - unfold names, sorted. reflexivity.
    - destruct names as [|n names]; [simpl in Hlen; lia|reflexivity]. }
  rewrite Hne. destruct cs as [|c cs]; cbn [length Nat.eqb negb snd].
  - split; [discriminate|]. intros [H _]. contradiction H. reflexivity.
  - split; [intros ->; split; [discriminate|reflexivity]|intros [_ H]; exact H].
Qed.

Lemma auto_assign_takes_least_raced_witness :
  current_heat_assignments
    (fst (start_listening
            (auto_assign_lanes
               [("Ann", record_time 1 1 31234 fresh_stats);
                ("Bob", fresh_stats); ("Cy", fresh_stats);
                ("Dee", record_time 1 2 30000 fresh_stats);
                ("Eve", fresh_stats); ("Fay", fresh_stats)]
               (update_lane_options initial_combos))
            true
            (set_competitors
               [("Ann", record_time 1 1 31234 fresh_stats);
                ("Bob", fresh_stats); ("Cy", fresh_stats);
                ("Dee", record_time 1 2 30000 fresh_stats);
                ("Eve", fresh_stats); ("Fay", fresh_stats)]
               initial_state)))
  = [(1, "Bob"); (2, "Cy"); (3, "Eve"); (4, "Fay")].
Proof.
  destruct (@auto_assign_takes_least_raced initial_combos true
              (set_competitors
                 [("Ann", record_time 1 1 31234 fresh_stats);
                  ("Bob", fresh_stats); ("Cy", fresh_stats);
                  ("Dee", record_time 1 2 30000 fresh_stats);
                  ("Eve", fresh_stats); ("Fay", fresh_stats)]
                 initial_state)) as [H _].
  - reflexivity.
  - vm_compute. repeat constructor; simpl; intuition discriminate.
  - intros name H. vm_compute in H.
    repeat (destruct H as [<-|H]; [reflexivity|]). destruct H.
  - exact H.
Defined.

(** ** Ranking below the sentinel *)

Lemma filter_none (A : Type) (f : A -> bool) (l : list A) :
  (forall x, In x l -> f x = false) -> filter f l = [].
Proof.
  induction l as [|x l IH]; intros H; [reflexivity|].
  simpl. rewrite (H x (or_introl eq_refl)). apply IH.
  intros y Hy. apply H. right. exact Hy.
Qed.

Lemma filter_all (A : Type) (f : A -> bool) (l : list A) :
  (forall x, In x l -> f x = true) -> filter f l = l.
Proof.
  induction l as [|x l IH]; intros H; [reflexivity|].
  simpl. rewrite (H x (or_introl eq_refl)). f_equal. apply IH.
  intros y Hy. apply H. right. exact Hy.
Qed.

Lemma filter_same (A : Type) (f g : A -> bool) (l : list A) :
  (forall x, In x l -> f x = g x) -> filter f l = filter g l.
Proof.
  induction l as [|x l IH]; intros H; [reflexivity|].
  simpl. rewrite (H x (or_introl eq_refl)), IH; [reflexivity|].
  intros y Hy. apply H. right. exact Hy.
Qed.

Lemma sorted_timed_first (l : list (string * stats)) :
  StronglySorted (fun a b => (sort_key a <= sort_key b)%Z) l ->
  (forall c t, In c l -> best_time (snd c) = Some t -> (t < sentinel)%Z) ->
  l = filter (fun c => match best_time (snd c) with
                       | Some _ => true
                       | None => false
                       end) l
      ++ filter (fun c => (sort_key c =? sentinel)%Z) l.
Proof.
  induction 1 as [|x l Hs IH Hall]; intros Hlow; [reflexivity|].
  assert (Hlow' : forall c t, In c l -> best_time (snd c) = Some t ->
                              (t < sentinel)%Z).
  { intros c t Hc. apply Hlow. right. exact Hc. }
  assert (Hk : sort_key x = match best_time (snd x) with
                            | Some t => t
                            | None => sentinel
                            end) by reflexivity.
  cbn [filter]. rewrite Hk in Hall |- *. clear Hk.
  destruct (best_time (snd x)) as [t|] eqn:Ex.
  - pose proof (Hlow x t (or_introl eq_refl) Ex) as Ht.
    replace (t =? sentinel)%Z with false by (symmetry; apply Z.eqb_neq; lia).
    cbn [app]. f_equal. apply IH. exact Hlow'.
  - rewrite Z.eqb_refl.
    assert (Hnone : forall y, In y l -> best_time (snd y) = None).
    { intros y Hy. rewrite Forall_forall in Hall.
      pose proof (Hall y Hy) as Hle. unfold sort_key in Hle.
      destruct (best_time (snd y)) as [u|] eqn:Ey; [|reflexivity].
      pose proof (Hlow' y u Hy Ey). lia. }
    rewrite filter_none, filter_all; [reflexivity| |].
    + intros y Hy. unfold sort_key. rewrite (Hnone y Hy).
      apply Z.eqb_refl.
    + intros y Hy. rewrite (Hnone y Hy). reflexivity.
Qed.

(** X13.  When every best time of the ledger is below 999 s, the standings
    list first the competitors that have a best time and after them those
    that have none, the latter in the order of their registration. *)
Theorem standings_rank_timed_first (cs : ledger) :
  (forall c t, In c cs -> best_time (snd c) = Some t -> (t < sentinel)%Z) ->
  sorted_competitors cs
  = filter (fun c => match best_time (snd c) with
                     | Some _ => true
                     | None => false
                     end) (sorted_competitors cs)
    ++ filter (fun c => match best_time (snd c) with
                        | Some _ => false
                        | None => true
                        end) cs.
Proof.
  intros Hlow.
  destruct (sorted_competitors_ranking cs) as (Hp & Hs & Hf).
  assert (Hlow' : forall c t, In c (sorted_competitors cs) ->
                    best_time (snd c) = Some t -> (t < sentinel)%Z).
  { intros c t Hc. apply Hlow. exact (Permutation_in _ Hp Hc). }
  rewrite (sorted_timed_first Hs Hlow') at 1. f_equal.
  rewrite Hf. apply filter_same. intros c Hc. unfold sort_key.
  destruct (best_time (snd c)) as [t|] eqn:Ec; [|apply Z.eqb_refl].
  apply Z.eqb_neq. pose proof (Hlow c t Hc Ec). lia.
Qed.

Lemma standings_rank_timed_first_witness :
  map fst (sorted_competitors
             [("Cy", fresh_stats);
              ("Ann", record_time 1 1 31234 fresh_stats);
              ("Bob", fresh_stats);
              ("Dee", record_time 1 2 30000 fresh_stats)])
  = ["Dee"; "Ann"; "Cy"; "Bob"].
Proof.
  rewrite (@standings_rank_timed_first
             [("Cy", fresh_stats);
              ("Ann", record_time 1 1 31234 fresh_stats);
              ("Bob", fresh_stats);
              ("Dee", record_time 1 2 30000 fresh_stats)]).
  - vm_compute. reflexivity.
  - intros c t H. vm_compute in H.
    repeat (destruct H as [<-|H];
            [cbn [snd best_time]; intros E; try discriminate E;
             injection E as <-; unfold sentinel; lia|]).
    destruct H.
Defined.
